(** * Vaccination pipelines of [cowidev.vax]: a shallow embedding

    The batch and incremental source pipelines under
    [scripts/src/cowidev/vax] are pandas programs. A data frame is
    embedded as the list of its rows (a record per source), a column that
    can hold NaN as an [option], a Python [dict] as a [gmap], a Python
    [set] as a [gset], and a raised exception as the [Raise] branch of
    [result]. Counts are Python or int64 integers and are embedded as [Z];
    dates are ISO strings compared the way Python compares [str]. *)

From stdpp Require Import gmap strings list fin_maps.
From Stdlib Require Import ZArith QArith Ascii Sorted.

#[local] Open Scope string_scope.
#[local] Open Scope Z_scope.

(** ** Exceptions and results *)

(** The [ValueError]s of the pipelines differ only by their message; the
    message (with the data it carries) is the [reason]. *)
Inductive reason : Type :=
  | UnknownVaccines (tokens : gset string)
  | InvalidDoseNumber (doses : gset Z)
  | FeedTooLong (rows : nat)
  | SeveralDateUpdates
  | VaccineFieldNaN
  | PerHundredAbove100 (field : string)
  | DatesOutOfRange
  | InvalidLocation
  | TableFormatChanged
  | ColumnsNotSameLengthAsKey.

Inductive exn : Type :=
  | ValueError (r : reason)
  | AssertionError
  | TypeError
  | AttributeError (name : string)
  | IndexError
  | RegressionError.

Inductive result (A : Type) : Type :=
  | Ok (a : A)
  | Raise (e : exn).
Arguments Ok {A} a.
Arguments Raise {A} e.

(** Sequencing: the first exception raised ends the computation. *)
#[global] Instance result_bind : MBind result :=
  λ A B (k : A → result B) (r : result A),
    match r with
    | Ok a => k a
    | Raise e => Raise e
    end.

#[global] Instance result_ret : MRet result := λ A (a : A), Ok a.

(** [assert c] of Python. *)
Definition assert (c : bool) : result unit :=
  if c then Ok tt else Raise AssertionError.

(** ** Strings: order, [split], [strip], [sorted], [join] *)

(** Python's [<] on [str]: lexicographic on code points. *)
Definition str_lt (a b : string) : bool := String.ltb a b.
Definition str_ge (a b : string) : bool := negb (String.ltb a b).
Definition str_gt (a b : string) : bool := String.ltb b a.

(** [s.split(sep)] for a one-character separator: never empty. *)
Fixpoint split (sep : ascii) (s : string) : list string :=
  match s with
  | EmptyString => [EmptyString]
  | String c r =>
      if Ascii.eqb c sep then EmptyString :: split sep r
      else match split sep r with
           | [] => [String c EmptyString]
           | t :: ts => String c t :: ts
           end
  end.

(** The ASCII characters that [str.isspace] accepts: tab to carriage
    return, the four separators 28..31 and the space. *)
Definition is_space (c : ascii) : bool :=
  let n := N_of_ascii c in
  ((9 <=? n)%N && (n <=? 13)%N) || ((28 <=? n)%N && (n <=? 32)%N).

Fixpoint lstrip (s : string) : string :=
  match s with
  | String c r => if is_space c then lstrip r else s
  | EmptyString => EmptyString
  end.

Definition strip (s : string) : string :=
  String.rev (lstrip (String.rev (lstrip s))).

(** [sorted(xs)] on strings, duplicates kept. *)
Fixpoint insert_sorted (x : string) (l : list string) : list string :=
  match l with
  | [] => [x]
  | y :: r => if str_lt y x then y :: insert_sorted x r else x :: l
  end.

Definition sorted (l : list string) : list string :=
  foldr insert_sorted [] l.

(** [sep.join(xs)]. *)
Fixpoint join (sep : string) (l : list string) : string :=
  match l with
  | [] => EmptyString
  | [x] => x
  | x :: r => x +:+ sep +:+ join sep r
  end.

(** [Series.unique()]: the distinct values in order of first appearance. *)
Fixpoint unique {A : Type} `{EqDecision A} (l : list A) : list A :=
  match l with
  | [] => []
  | x :: r => x :: filter (λ y, y ≠ x) (unique r)
  end.

(** The sorted distinct keys of a [groupby] or of a [pivot] index. *)
Fixpoint insert_key (d : string) (l : list string) : list string :=
  match l with
  | [] => [d]
  | x :: r =>
      if str_lt d x then d :: l
      else if String.eqb d x then l
      else x :: insert_key d r
  end.

Definition group_keys (l : list string) : list string :=
  foldr insert_key [] l.

(** ** NaN-aware arithmetic on columns *)

(** [a + b] on cells: NaN absorbs. *)
Definition add_na (a b : option Z) : option Z :=
  match a, b with
  | Some x, Some y => Some (x + y)
  | _, _ => None
  end.

(** [a >= b] and [a > b] on cells: a comparison with NaN is [False]. *)
Definition ge_na (a b : option Z) : bool :=
  match a, b with
  | Some x, Some y => x >=? y
  | _, _ => false
  end.

Definition gt_na (a b : option Z) : bool :=
  match a, b with
  | Some x, Some y => x >? y
  | _, _ => false
  end.

Definition isnull {A : Type} (a : option A) : bool :=
  match a with
  | None => true
  | Some _ => false
  end.

Definition sum_list (l : list Z) : Z := foldr Z.add 0 l.

(** The [sum] of a [groupby]: NaN cells are skipped, and the sum of no
    cell is 0. *)
Definition sum_skipna (l : list (option Z)) : Z :=
  sum_list (omap id l).

(** The [max] of a [groupby]: NaN cells are skipped, and the maximum of no
    cell is NaN. *)
Definition max_skipna (l : list (option Z)) : option Z :=
  match omap id l with
  | [] => None
  | x :: r => Some (foldr Z.max x r)
  end.

(** [Series.cumsum()]. *)
Fixpoint cumsum_from (acc : Z) (l : list Z) : list Z :=
  match l with
  | [] => []
  | x :: r => (acc + x) :: cumsum_from (acc + x) r
  end.

Definition cumsum (l : list Z) : list Z := cumsum_from 0 l.

(** A column is non-decreasing when no value is below the one of the row
    before it. *)
Definition non_decreasing (l : list Z) : Prop :=
  ∀ (i : nat) (a b : Z), l !! i = Some a → l !! S i = Some b → a ≤ b.

(** Dates strictly ascending from one row to the next. *)
Definition ascending (l : list string) : Prop :=
  Sorted (λ a b, str_lt a b = true) l.

(** [a <= b] on strings. *)
Definition str_le (a b : string) : Prop := str_lt b a = false.

(** [Series.replace(mapping)]: a value that is a key of the mapping is
    replaced by what it maps to, any other value stays. *)
Definition replace (mapping : gmap string string) (x : string) : string :=
  default x (mapping !! x).

(** [xs.min()] and [xs.max()] on strings; NaN on an empty column. *)
Definition str_min (l : list string) : option string :=
  match l with
  | [] => None
  | x :: r => Some (foldr (λ a m, if str_lt a m then a else m) x r)
  end.

Definition str_max (l : list string) : option string :=
  match l with
  | [] => None
  | x :: r => Some (foldr (λ a m, if str_lt m a then a else m) x r)
  end.

(** ** [cowidev.vax.utils.incremental]: the merge engine *)

Module Incremental.

(** Modelled from the spec: the module [cowidev.vax.utils.incremental]
    (its [increment]) is called by every incremental source but is not
    among the sources; an Observation is the record of section 3, its
    counts non-negative integers or absent. *)
Record Observation : Type := {
  location : string;
  date : string;
  total_vaccinations : option N;
  people_vaccinated : option N;
  people_fully_vaccinated : option N;
  total_boosters : option N;
  vaccine : string;
  source_url : string
}.

(** Modelled from the spec: the non-regression of one cumulative field
    between an earlier and a later Observation, for the [increment] that
    is not among the sources; an absent count is unknown and constrains
    nothing. *)
Definition field_ok (earlier later : option N) : bool :=
  match earlier, later with
  | Some x, Some y => (x <=? y)%N
  | _, _ => true
  end.

(** Modelled from the spec: the non-regression invariant of section 3,
    field by field (4.2, check 3), for the [increment] that is not among
    the sources. *)
Definition non_regressing (a b : Observation) : bool :=
  field_ok (total_vaccinations a) (total_vaccinations b)
  && field_ok (people_vaccinated a) (people_vaccinated b)
  && field_ok (people_fully_vaccinated a) (people_fully_vaccinated b)
  && field_ok (total_boosters a) (total_boosters b).

(** Modelled from the spec: the upsert of 4.3 for the [increment] that is
    not among the sources. The position of the date is located in the
    date-ascending series (the scan below finds the position that the
    binary search finds); an Observation of that exact date is replaced,
    otherwise the new one is inserted where it keeps the dates
    ascending. *)
Fixpoint upsert (o : Observation) (s : list Observation) : list Observation :=
  match s with
  | [] => [o]
  | x :: r =>
      if str_lt (date o) (date x) then o :: s
      else if String.eqb (date o) (date x) then o :: r
      else x :: upsert o r
  end.

(** Modelled from the spec: the re-check of 4.3 for the [increment] that
    is not among the sources; only the pairs made of the Observation of
    date [d] and its immediate predecessor or successor are compared. *)
Fixpoint neighbours_ok (d : string) (s : list Observation) : bool :=
  match s with
  | a :: r =>
      match r with
      | b :: _ =>
          (if String.eqb (date a) d || String.eqb (date b) d
           then non_regressing a b else true)
          && neighbours_ok d r
      | [] => true
      end
  | [] => true
  end.

(** Modelled from the spec: [merge] of 4.3 for the [increment] that is
    not among the sources; a regression rejects the merge with
    [RegressionError] and no series is returned. *)
Definition merge (s : list Observation) (o : Observation)
  : result (list Observation) :=
  let s' := upsert o s in
  if neighbours_ok (date o) s' then Ok s' else Raise RegressionError.

(** Modelled from the spec: the invariant of a Series in section 3, for
    the [increment] that is not among the sources: dates ascending with
    one Observation per date, and no cumulative field regressing between
    neighbours. *)
Fixpoint valid (s : list Observation) : bool :=
  match s with
  | a :: r =>
      match r with
      | b :: _ => str_lt (date a) (date b) && non_regressing a b && valid r
      | [] => true
      end
  | [] => true
  end.

End Incremental.

(** ** [cowidev.vax.incremental.who]: the cross-country feed *)

Module Who.

(** Sometimes the WHO doesn't yet include a vaccine in a country's
    metadata while there is evidence that it has been administered in
    the country. *)
Definition ADDITIONAL_VACCINES_USED : gmap string (list string) :=
  {[ "Cayman Islands" := ["Oxford/AstraZeneca"];
     "Gambia" := ["Johnson&Johnson"] ]}.

(** A row of the feed. [only_2doses] is the column that
    [pipe_map_vaccines] adds: it is absent ([None]) before. *)
Record row : Type := {
  COUNTRY : option string;
  DATE_UPDATED : option string;
  DATA_SOURCE : option string;
  TOTAL_VACCINATIONS : option Z;
  PERSONS_VACCINATED_1PLUS_DOSE : option Z;
  PERSONS_FULLY_VACCINATED : option Z;
  VACCINES_USED : option string;
  only_2doses : option bool
}.

Definition with_COUNTRY (c : option string) (r : row) : row :=
  {| COUNTRY := c;
     DATE_UPDATED := DATE_UPDATED r;
     DATA_SOURCE := DATA_SOURCE r;
     TOTAL_VACCINATIONS := TOTAL_VACCINATIONS r;
     PERSONS_VACCINATED_1PLUS_DOSE := PERSONS_VACCINATED_1PLUS_DOSE r;
     PERSONS_FULLY_VACCINATED := PERSONS_FULLY_VACCINATED r;
     VACCINES_USED := VACCINES_USED r;
     only_2doses := only_2doses r |}.

Definition with_vaccines (v : string) (flag : bool) (r : row) : row :=
  {| COUNTRY := COUNTRY r;
     DATE_UPDATED := DATE_UPDATED r;
     DATA_SOURCE := DATA_SOURCE r;
     TOTAL_VACCINATIONS := TOTAL_VACCINATIONS r;
     PERSONS_VACCINATED_1PLUS_DOSE := PERSONS_VACCINATED_1PLUS_DOSE r;
     PERSONS_FULLY_VACCINATED := PERSONS_FULLY_VACCINATED r;
     VACCINES_USED := Some v;
     only_2doses := Some flag |}.

(** The distinct dates, NaN left out, of the rows of a country. *)
Definition reporting_dates (df : list row) (c : string) : list string :=
  unique (omap DATE_UPDATED (filter (λ r, COUNTRY r = Some c) df)).

(** [df.groupby("COUNTRY").DATE_UPDATED.nunique()]: per country (rows
    without a country belong to no group), the number of distinct dates
    that are not NaN; the groups come in the order of their keys. *)
Definition date_updates (df : list row) : list nat :=
  (λ c, length (reporting_dates df c)) <$> group_keys (omap COUNTRY df).

Definition pipe_checks (df : list row) : result (list row) :=
  if (300 <? length df)%nat then
    Raise (ValueError (FeedTooLong (length df)))
  else if (length (unique (date_updates df)) =? 1)%nat then
    if negb (default 0%nat (head (unique (date_updates df))) =? 1)%nat
    then Raise (ValueError SeveralDateUpdates)
    else Ok df
  else Raise (ValueError SeveralDateUpdates).

(** The three masks of [pipe_filter_entries]. *)
Definition mask_1 (r : row) : bool :=
  ge_na (TOTAL_VACCINATIONS r) (PERSONS_VACCINATED_1PLUS_DOSE r)
  || isnull (PERSONS_VACCINATED_1PLUS_DOSE r).

Definition mask_2 (r : row) : bool :=
  ge_na (TOTAL_VACCINATIONS r) (PERSONS_FULLY_VACCINATED r)
  || isnull (PERSONS_FULLY_VACCINATED r).

Definition mask_3 (r : row) : bool :=
  ge_na (PERSONS_VACCINATED_1PLUS_DOSE r) (PERSONS_FULLY_VACCINATED r)
  || isnull (PERSONS_VACCINATED_1PLUS_DOSE r)
  || isnull (PERSONS_FULLY_VACCINATED r).

Section Config.

(** The tables of [cowidev.vax.utils.orgs] and
    [cowidev.vax.utils.checks], which the pipeline imports. *)
Variable WHO_VACCINES : gmap string string.
Variable WHO_COUNTRIES : gmap string string.
Variable VACCINES_ONE_DOSE : list string.

Definition pipe_rename_countries (df : list row) : list row :=
  (λ r, with_COUNTRY (replace WHO_COUNTRIES <$> COUNTRY r) r) <$> df.

(** [df.COUNTRY.isin(WHO_COUNTRIES.values())] on one row. *)
Definition known_country (r : row) : bool :=
  match COUNTRY r with
  | Some c => bool_decide (c ∈ map_img (SA:=gset string) WHO_COUNTRIES)
  | None => false
  end.

Definition pipe_filter_entries (df : list row) : list row :=
  let df := filter (λ r, DATA_SOURCE r = Some "REPORTING") df in
  let df := filter (λ r, mask_1 r && mask_2 r && mask_3 r = true) df in
  filter (λ r, known_country r = true) df.

(** The tokens of a feed: every [VACCINES_USED] that is not NaN, split
    at the commas, each piece stripped. *)
Definition vaccine_lists (df : list row) : list (list string) :=
  (λ x, strip <$> split "," x) <$> omap VACCINES_USED df.

Definition vaccines_used (df : list row) : gset string :=
  list_to_set (concat (vaccine_lists df)).

(** The [sum] of an empty column is 0, and [set(0)] raises [TypeError];
    otherwise the lists are concatenated. *)
Definition pipe_vaccine_checks (df : list row) : result (list row) :=
  match vaccine_lists df with
  | [] => Raise TypeError
  | _ :: _ =>
      let vaccines_unknown := vaccines_used df ∖ dom WHO_VACCINES in
      if bool_decide (vaccines_unknown = ∅) then Ok df
      else Raise (ValueError (UnknownVaccines vaccines_unknown))
  end.

(** Replace vaccine names and create column [only_2_doses]. *)
Definition _map_vaccines_func (r : row) : result (string * bool) :=
  match VACCINES_USED r with
  | None => Raise (ValueError VaccineFieldNaN)
  | Some used =>
      let vaccines := split "," used in
      let vaccines := replace WHO_VACCINES <$> vaccines in
      let only_2doses :=
        forallb (λ v, negb (bool_decide (v ∈ VACCINES_ONE_DOSE))) vaccines in
      (* Add vaccines that aren't yet recorded by the WHO *)
      let vaccines :=
        match COUNTRY r ≫= (ADDITIONAL_VACCINES_USED !!.) with
        | Some extra => (vaccines ++ extra)%list
        | None => vaccines
        end in
      Ok (join ", " (sorted (unique vaccines)), only_2doses)
  end.

(** [df.apply(self._map_vaccines_func, axis=1)] on a frame with rows,
    and the two columns written: the first row that raises ends it. *)
Definition apply_map_vaccines (df : list row) : result (list row) :=
  mapM (λ r, '(v, flag) ← _map_vaccines_func r;
             Ok (with_vaccines v flag r)) df.

(** On a frame without rows [apply] calls the function on no row and
    returns a copy of the frame; its columns are those of the feed, not
    two, and the assignment raises "Columns must be same length as
    key". *)
Definition pipe_map_vaccines (df : list row) : result (list row) :=
  match df with
  | [] => Raise (ValueError ColumnsNotSameLengthAsKey)
  | _ :: _ => apply_map_vaccines df
  end.

(** The casts to the nullable integer type and the [fillna] change no
    cell of a column of integers or NaN. *)
Definition pipe_calculate_metrics (df : list row) : list row := df.

Definition pipeline (df : list row) : result (list row) :=
  df ← pipe_checks df;
  df ← pipe_vaccine_checks
          (pipe_filter_entries (pipe_rename_countries df));
  df ← pipe_map_vaccines df;
  Ok (pipe_calculate_metrics df).

End Config.

(** The arguments of one call of [increment]. *)
Record increment_call : Type := {
  location : option string;
  total_vaccinations : option Z;
  people_vaccinated : option Z;
  people_fully_vaccinated : option Z;
  date : option string;
  vaccine : option string;
  source_url : string
}.

Definition source_url_ref : string := "https://covid19.who.int/".

(** The order of [df.sort_values("COUNTRY")]: by name, the rows without a
    country last. *)
Definition country_lt (x y : row) : bool :=
  match COUNTRY x, COUNTRY y with
  | Some a, Some b => str_lt a b
  | Some _, None => true
  | None, _ => false
  end.

Fixpoint insert_by_country (x : row) (l : list row) : list row :=
  match l with
  | [] => [x]
  | y :: r => if country_lt x y then x :: l
              else y :: insert_by_country x r
  end.

Definition sort_by_country (df : list row) : list row :=
  foldr insert_by_country [] df.

(** The calls of [increment] that [increment_countries] makes, in the
    order of the loop: none for a row whose three counts are all null. *)
Definition increment_countries (df : list row) : list increment_call :=
  omap (λ r,
          let cond :=
            isnull (PERSONS_VACCINATED_1PLUS_DOSE r)
            && isnull (PERSONS_FULLY_VACCINATED r)
            && isnull (TOTAL_VACCINATIONS r) in
          if negb cond then
            Some {| location := COUNTRY r;
                    total_vaccinations := TOTAL_VACCINATIONS r;
                    people_vaccinated := PERSONS_VACCINATED_1PLUS_DOSE r;
                    people_fully_vaccinated := PERSONS_FULLY_VACCINATED r;
                    date := DATE_UPDATED r;
                    vaccine := VACCINES_USED r;
                    source_url := source_url_ref |}
          else None)
       (sort_by_country df).

Section ExportFeed.

Variable WHO_VACCINES : gmap string string.
Variable WHO_COUNTRIES : gmap string string.
Variable VACCINES_ONE_DOSE : list string.

(** [export], from the frame read to the calls of [increment]. *)
Definition export (df : list row) : result (list increment_call) :=
  df ← pipeline WHO_VACCINES WHO_COUNTRIES VACCINES_ONE_DOSE df;
  Ok (increment_countries df).

End ExportFeed.

End Who.

(** ** [cowidev.vax.batch.peru] *)

Module Peru.

Definition location : string := "Peru".
Definition source_url_ref : string :=
  "https://www.datosabiertos.gob.pe/dataset/vacunacion".

Definition vaccine_mapping : gmap string string :=
  {[ "SINOPHARM" := "Sinopharm/Beijing";
     "PFIZER" := "Pfizer/BioNTech";
     "ASTRAZENECA" := "Oxford/AstraZeneca" ]}.

(** The four columns that [read] keeps. *)
Module Csv.
Record row : Type := {
  fecha_vacunacion : string;
  fabricante : option string;
  dosis : Z;
  n_reg : Z
}.
End Csv.

(** A row once the columns are renamed and the rows without a vaccine
    are dropped. *)
Record row : Type := {
  date : string;
  vaccine : string;
  dosis : Z;
  n_reg : Z
}.

Definition pipe_rename_columns (df : list Csv.row) : list row :=
  omap (λ r, v ← Csv.fabricante r;
             Some {| date := Csv.fecha_vacunacion r; vaccine := v;
                     dosis := Csv.dosis r; n_reg := Csv.n_reg r |}) df.

Definition pipe_checks (df : list row) : result (list row) :=
  (* Check vaccine names *)
  let unknown_vaccines : gset string :=
    list_to_set (unique (vaccine <$> df)) ∖ dom vaccine_mapping in
  if negb (bool_decide (unknown_vaccines = ∅)) then
    Raise (ValueError (UnknownVaccines unknown_vaccines))
  else
    (* Check dose number *)
    let dose_num_wrong : gset Z :=
      list_to_set (dosis <$> df) ∖ {[ 1; 2; 3 ]} in
    if negb (bool_decide (dose_num_wrong = ∅)) then
      Raise (ValueError (InvalidDoseNumber dose_num_wrong))
    else Ok df.

(** [df.replace(mapping)] looks at every column of strings. *)
Definition pipe_rename_vaccines (df : list row) : list row :=
  (λ r, {| date := replace vaccine_mapping (date r);
           vaccine := replace vaccine_mapping (vaccine r);
           dosis := dosis r; n_reg := n_reg r |}) <$> df.

(** The frame that [pipe_format] builds, column by column: the dates,
    and one column of counts per dose number met in the data. The
    columns 1, 2 and 3 are renamed [people_vaccinated],
    [people_fully_vaccinated] and [total_boosters]: the three accessors
    below read them under these names. [total_vaccinations] is the
    column that [pipe_total_vaccinations] adds. *)
Record frame : Type := {
  f_date : list string;
  f_doses : gmap Z (list Z);
  total_vaccinations : option (list Z)
}.

Definition people_vaccinated (f : frame) : option (list Z) := f_doses f !! 1.
Definition people_fully_vaccinated (f : frame) : option (list Z) :=
  f_doses f !! 2.
Definition total_boosters (f : frame) : option (list Z) := f_doses f !! 3.

(** A cell of the pivot: the sum of [n_reg] over the rows of that date
    and dose, NaN when there is none. *)
Definition cell (df : list row) (d : string) (k : Z) : option Z :=
  match filter (λ r, date r = d ∧ dosis r = k) df with
  | [] => None
  | g => Some (sum_list (n_reg <$> g))
  end.

(** [fillna(0)] *)
Definition fillna (x : option Z) : Z := default 0 x.

(** The index of a pivot is sorted, so [sort_values("date")] moves no
    row. *)
Definition pipe_format (df : list row) : frame :=
  let dates := group_keys (date <$> df) in
  let doses : gset Z := list_to_set (dosis <$> df) in
  {| f_date := dates;
     f_doses :=
       set_to_map (λ k, (k, cumsum ((λ d, fillna (cell df d k)) <$> dates)))
                  doses;
     total_vaccinations := None |}.

Definition attribute (name : string) (col : option (list Z))
  : result (list Z) :=
  match col with
  | Some c => Ok c
  | None => Raise (AttributeError name)
  end.

Definition pipe_total_vaccinations (f : frame) : result frame :=
  a ← attribute "people_vaccinated" (people_vaccinated f);
  b ← attribute "people_fully_vaccinated" (people_fully_vaccinated f);
  c ← attribute "total_boosters" (total_boosters f);
  Ok {| f_date := f_date f;
        f_doses := f_doses f;
        total_vaccinations :=
          Some (zip_with Z.add (zip_with Z.add a b) c) |}.

(** What the invariant of a series says of a frame: one value per date
    in each cumulative column, the dates ascending, and no column going
    down from a date to the next. *)
Definition cumulative_non_decreasing (f : frame) : Prop :=
  ascending (f_date f)
  ∧ ∃ pv pfv tb tot : list Z,
      people_vaccinated f = Some pv
      ∧ people_fully_vaccinated f = Some pfv
      ∧ total_boosters f = Some tb
      ∧ total_vaccinations f = Some tot
      ∧ length pv = length (f_date f)
      ∧ length pfv = length (f_date f)
      ∧ length tb = length (f_date f)
      ∧ length tot = length (f_date f)
      ∧ non_decreasing pv ∧ non_decreasing pfv
      ∧ non_decreasing tb ∧ non_decreasing tot.

(** The frame with the three constant columns of [pipe_metadata]. *)
Record output : Type := {
  data : frame;
  out_location : string;
  out_vaccine : string;
  out_source_url : string
}.

Definition pipe_metadata (f : frame) : output :=
  {| data := f;
     out_location := location;
     out_vaccine := join ", " (sorted (map_to_list vaccine_mapping).*2);
     out_source_url := source_url_ref |}.

Definition pipeline (df : list Csv.row) : result output :=
  df ← pipe_checks (pipe_rename_columns df);
  f ← pipe_total_vaccinations (pipe_format (pipe_rename_vaccines df));
  Ok (pipe_metadata f).

(** The rows of the source that the checks accept: a row that names a
    vaccine names one of the mapping and has dose number 1, 2 or 3. *)
Definition checks_pass (df : list Csv.row) : Prop :=
  ∀ s v, s ∈ df → Csv.fabricante s = Some v →
    is_Some (vaccine_mapping !! v)
    ∧ (Csv.dosis s = 1 ∨ Csv.dosis s = 2 ∨ Csv.dosis s = 3).

(** Some row of the source names a vaccine and has dose number [k]. *)
Definition has_dose (df : list Csv.row) (k : Z) : Prop :=
  ∃ s, s ∈ df ∧ is_Some (Csv.fabricante s) ∧ Csv.dosis s = k.

(** The doses of number [k] that the source counts, over all dates, in the
    rows that name a vaccine. *)
Definition doses_given (df : list Csv.row) (k : Z) : Z :=
  sum_list (Csv.n_reg
              <$> filter (λ s, is_Some (Csv.fabricante s) ∧ Csv.dosis s = k) df).

(** The age table. A percentage is a float: a finite float is a
    rational, and NaN is [None]. *)
Module Age.
Record row : Type := {
  people_vaccinated_per_hundred : option Q;
  people_fully_vaccinated_per_hundred : option Q;
  sunday : string;
  location : string
}.
End Age.

(** [x > 100] on a cell; false on NaN. *)
Definition above_100 (x : option Q) : bool :=
  match x with
  | Some q => negb (Qle_bool q (100 # 1))
  | None => false
  end.

(** [(column > 100).sum()] *)
Definition count_above_100 (col : list (option Q)) : nat :=
  length (filter (λ x, above_100 x = true) col).

Section AgeChecks.

(** [localdatenow("America/Lima")] *)
Variable today : string.

(** The minimum of an empty column is NaN, and comparing NaN with a
    string raises [TypeError]. *)
Definition pipe_age_checks (df : list Age.row) : result (list Age.row) :=
  if negb (count_above_100 (Age.people_vaccinated_per_hundred <$> df)
           =? 0)%nat then
    Raise (ValueError (PerHundredAbove100 "people_vaccinated_per_hundred"))
  else if negb (count_above_100
                  (Age.people_fully_vaccinated_per_hundred <$> df)
                =? 0)%nat then
    Raise (ValueError
             (PerHundredAbove100 "people_fully_vaccinated_per_hundred"))
  else
    match str_min (Age.sunday <$> df), str_max (Age.sunday <$> df) with
    | Some first, Some last =>
        if str_lt first "2021-02-08" || str_gt last today then
          Raise (ValueError DatesOutOfRange)
        else if negb (forallb (λ l, String.eqb l "Peru")
                        (unique (Age.location <$> df))) then
          Raise (ValueError InvalidLocation)
        else Ok df
    | _, _ => Raise TypeError
    end.

(** [pipe_age_rename_date] only renames the column [sunday]. *)
Definition pipeline_age (df : list Age.row) : result (list Age.row) :=
  pipe_age_checks df.

End AgeChecks.

End Peru.

(** ** [cowidev.vax.batch.france] *)

Module France.

Definition vaccine_mapping : gmap Z string :=
  {[ 1 := "Pfizer/BioNTech";
     2 := "Moderna";
     3 := "Oxford/AstraZeneca";
     4 := "Johnson&Johnson" ]}.

Definition one_dose_vaccines : list string := ["Johnson&Johnson"].

Definition source_url : string :=
  "https://www.data.gouv.fr/fr/datasets/donnees-relatives-aux-personnes-vaccinees-contre-la-covid-19-1/".

(** The five columns read from the source. *)
Module Csv.
Record row : Type := {
  vaccin : Z;
  jour : string;
  n_cum_dose1 : option Z;
  n_cum_dose2 : option Z;
  n_cum_dose3 : option Z
}.
End Csv.

(** A row per vaccine and date, columns renamed, the vaccine named, with
    the column [total_vaccinations] that [main] adds. *)
Record row : Type := {
  vaccine : string;
  date : string;
  people_vaccinated : option Z;
  people_fully_vaccinated : option Z;
  total_boosters : option Z;
  total_vaccinations : option Z
}.

(** A row of the manufacturer file. *)
Record manufacturer_row : Type := {
  m_date : string;
  m_total_vaccinations : option Z;
  m_vaccine : string;
  m_location : string
}.

(** A row of the country file: one per date. *)
Record series_row : Type := {
  s_date : string;
  s_total_vaccinations : Z;
  s_people_vaccinated : Z;
  s_people_fully_vaccinated : Z;
  s_total_boosters : Z;
  s_vaccine : string;
  s_location : string;
  s_source_url : string
}.

(** Map vaccine names, first statement: the rows whose vaccine code is a
    key of the mapping and whose first-dose count is positive. *)
Definition known_and_started (df : list Csv.row) : list Csv.row :=
  filter (λ r, Csv.vaccin r ∈ dom vaccine_mapping
               ∧ gt_na (Csv.n_cum_dose1 r) (Some 0) = true) df.

(** Map vaccine names, last statement, and add total doses. Every code
    left by [known_and_started] has a name, so no row is lost here. *)
Definition name_and_total (r : Csv.row) : option row :=
  name ← vaccine_mapping !! Csv.vaccin r;
  Some {| vaccine := name;
          date := Csv.jour r;
          people_vaccinated := Csv.n_cum_dose1 r;
          people_fully_vaccinated := Csv.n_cum_dose2 r;
          total_boosters := Csv.n_cum_dose3 r;
          total_vaccinations :=
            add_na (add_na (Csv.n_cum_dose1 r) (Csv.n_cum_dose2 r))
                   (Csv.n_cum_dose3 r) |}.

Definition manufacturer (df : list row) : list manufacturer_row :=
  (λ r, {| m_date := date r;
           m_total_vaccinations := total_vaccinations r;
           m_vaccine := vaccine r;
           m_location := "France" |}) <$> df.

(** Infer fully vaccinated for one-dose vaccines. *)
Definition infer_fully_vaccinated (r : row) : row :=
  if bool_decide (vaccine r ∈ one_dose_vaccines) then
    {| vaccine := vaccine r;
       date := date r;
       people_vaccinated := people_vaccinated r;
       people_fully_vaccinated := people_vaccinated r;
       total_boosters := total_boosters r;
       total_vaccinations := total_vaccinations r |}
  else r.

(** Whether the vaccine of a row of the source is a one-dose vaccine. *)
Definition is_one_dose (r : Csv.row) : bool :=
  match vaccine_mapping !! Csv.vaccin r with
  | Some name => bool_decide (name ∈ one_dose_vaccines)
  | None => false
  end.

(** [df.groupby("date", as_index=False).agg(...)] and the two constant
    columns. *)
Definition aggregate (df : list row) : list series_row :=
  (λ d,
     let g := filter (λ r, date r = d) df in
     {| s_date := d;
        s_total_vaccinations := sum_skipna (total_vaccinations <$> g);
        s_people_vaccinated := sum_skipna (people_vaccinated <$> g);
        s_people_fully_vaccinated :=
          sum_skipna (people_fully_vaccinated <$> g);
        s_total_boosters := sum_skipna (total_boosters <$> g);
        s_vaccine := join ", " (sorted (vaccine <$> g));
        s_location := "France";
        s_source_url := source_url |})
    <$> group_keys (date <$> df).

(** [main], from the frame read to the two files written. *)
Definition main (source : list Csv.row)
  : result (list manufacturer_row * list series_row) :=
  let df := known_and_started source in
  assert (bool_decide
            ((list_to_set (unique (Csv.vaccin <$> df)) : gset Z)
             = dom vaccine_mapping));;
  let df := omap name_and_total df in
  Ok (manufacturer df, aggregate (infer_fully_vaccinated <$> df)).

End France.

(** ** [cowidev.vax.batch.hong_kong] *)

Module HongKong.

(** A row of the frame that [read] builds. *)
Module Read.
Record row : Type := {
  date : string;
  people_vaccinated : option Z;
  people_fully_vaccinated : option Z;
  total_vaccinations : option Z;
  total_pfizer : option Z;
  total_sinovac : option Z
}.
End Read.

(** A row with the columns that [pipeline] adds. *)
Record row : Type := {
  date : string;
  people_vaccinated : option Z;
  people_fully_vaccinated : option Z;
  total_vaccinations : option Z;
  total_pfizer : option Z;
  total_sinovac : option Z;
  vaccine : string;
  location : string;
  source_url : string
}.

Record manufacturer_row : Type := {
  m_location : string;
  m_date : string;
  m_vaccine : string;
  m_total_vaccinations : Z
}.

Definition _enrich_vaccine (date : string) : string :=
  if str_lt date "2021-03-06" then "Sinovac"
  else "Pfizer/BioNTech, Sinovac".

(** [enrich_vaccine] then [enrich_metadata]. *)
Definition pipeline (df : list Read.row) : list row :=
  (λ r, {| date := Read.date r;
           people_vaccinated := Read.people_vaccinated r;
           people_fully_vaccinated := Read.people_fully_vaccinated r;
           total_vaccinations := Read.total_vaccinations r;
           total_pfizer := Read.total_pfizer r;
           total_sinovac := Read.total_sinovac r;
           vaccine := _enrich_vaccine (Read.date r);
           location := "Hong Kong";
           source_url := "https://www.covidvaccine.gov.hk/en/dashboard" |})
    <$> df.

(** [stack()] on one row: a record per column, in the order of the
    columns, for the cells that are not NaN. *)
Definition stack (r : row) : list manufacturer_row :=
  omap (λ '(name, value),
          v ← value;
          Some {| m_location := location r; m_date := date r;
                  m_vaccine := name; m_total_vaccinations := v |})
       [ ("Pfizer/BioNTech", total_pfizer r); ("Sinovac", total_sinovac r) ].

Definition manufacturer_pipeline (df : list row) : list manufacturer_row :=
  df ≫= stack.

End HongKong.

(** ** Calendar dates from timestamps *)

(** The civil date (year, month, day) of a day count from 1970-01-01, in
    the proleptic Gregorian calendar. *)
Definition civil_from_days (days : Z) : Z * Z * Z :=
  let z := days + 719468 in
  let era := z / 146097 in
  let doe := z - era * 146097 in
  let yoe := (doe - doe / 1460 + doe / 36524 - doe / 146096) / 365 in
  let doy := doe - (365 * yoe + yoe / 4 - yoe / 100) in
  let mp := (5 * doy + 2) / 153 in
  let d := doy - (153 * mp + 2) / 5 + 1 in
  let m := if mp <? 10 then mp + 3 else mp - 9 in
  let y := yoe + era * 400 in
  (if m <=? 2 then y + 1 else y, m, d).

Definition digit (n : Z) : ascii := ascii_of_N (48 + Z.to_N (n mod 10)).

Definition digits2 (n : Z) : string :=
  String (digit (n / 10)) (String (digit n) EmptyString).

Definition digits4 (n : Z) : string := digits2 (n / 100) +:+ digits2 n.

(** [pd.to_datetime(ms, unit="ms").dt.date.astype(str)] on one timestamp
    of the years 0 to 9999. *)
Definition date_of_ms (ms : Z) : string :=
  let '(y, m, d) := civil_from_days (ms / 86400000) in
  digits4 y +:+ "-" +:+ digits2 m +:+ "-" +:+ digits2 d.

(** [df.sort_values(key)]: a stable sort on a column of strings. *)
Fixpoint insert_by {A : Type} (key : A → string) (x : A) (l : list A)
  : list A :=
  match l with
  | [] => [x]
  | y :: r => if str_lt (key x) (key y) then x :: l
              else y :: insert_by key x r
  end.

Definition sort_values {A : Type} (key : A → string) (l : list A) : list A :=
  foldr (insert_by key) [] l.

(** ** [cowidev.vax.batch.saudi_arabia] *)

Module SaudiArabia.

(** The attributes of a feature that [main] keeps. *)
Record attributes : Type := {
  Reportdt : Z;
  Total_Vaccinations : option Z;
  FirstDose : option Z;
  SecondDose : option Z
}.

Record row : Type := {
  date : string;
  total_vaccinations : option Z;
  people_vaccinated : option Z;
  people_fully_vaccinated : option Z;
  location : string;
  vaccine : string;
  source_url : string
}.

(** [df.groupby("date", as_index=False).max()] and the three columns
    that [main] sets. *)
Definition daily_max (features : list attributes) : list row :=
  (λ d,
     let g := filter (λ a, date_of_ms (Reportdt a) = d) features in
     {| date := d;
        total_vaccinations := max_skipna (Total_Vaccinations <$> g);
        people_vaccinated := max_skipna (FirstDose <$> g);
        people_fully_vaccinated := max_skipna (SecondDose <$> g);
        location := "Saudi Arabia";
        vaccine := if str_ge d "2021-02-18"
                   then "Oxford/AstraZeneca, Pfizer/BioNTech"
                   else "Pfizer/BioNTech";
        source_url := "https://covid19.moh.gov.sa/" |})
    <$> group_keys ((λ a, date_of_ms (Reportdt a)) <$> features).

Definition main (features : list attributes) : list row :=
  let df := daily_max features in
  let df :=
    sort_values date
      (filter (λ r, gt_na (total_vaccinations r) (Some 0) = true) df) in
  (* The data contains an error that creates a negative change *)
  filter (λ r, date r ≠ "2021-03-03") df.

End SaudiArabia.

(** ** A [pd.Series] of scalars *)

Inductive scalar : Type :=
  | Int (n : Z)
  | Str (s : string).

(** [ds.name]: the value under a label, [AttributeError] without it. *)
Definition getattr (ds : gmap string scalar) (name : string) : result scalar :=
  match ds !! name with
  | Some v => Ok v
  | None => Raise (AttributeError name)
  end.

(** Python's [+]: the sum of two integers, two strings joined. *)
Definition add (a b : scalar) : result scalar :=
  match a, b with
  | Int x, Int y => Ok (Int (x + y))
  | Str x, Str y => Ok (Str (x +:+ y))
  | _, _ => Raise TypeError
  end.

(** ** [cowidev.vax.incremental.jordan] *)

Module Jordan.

Section Helpers.

(** [cowidev.vax.utils.incremental.enrich_data] *)
Variable enrich_data :
  gmap string scalar → string → scalar → gmap string scalar.

Definition pipe_vaccinations (ds : gmap string scalar)
  : result (gmap string scalar) :=
  a ← getattr ds "people_vaccinated";
  b ← getattr ds "people_fully_vaccinated";
  total_vaccinations ← add a b;
  Ok (enrich_data ds "total_vaccinations" total_vaccinations).

End Helpers.

Definition location : string := "Jordan".
Definition source_url : string := "https://corona.moh.gov.jo/ar".

Section Pipeline.

(** [cowidev.vax.utils.incremental.enrich_data] *)
Variable enrich_data :
  gmap string scalar → string → scalar → gmap string scalar.

(** [localdate("Asia/Amman")] *)
Variable today : string.

Definition pipe_date (ds : gmap string scalar) : gmap string scalar :=
  enrich_data ds "date" (Str today).

Definition pipe_location (ds : gmap string scalar) : gmap string scalar :=
  enrich_data ds "location" (Str location).

Definition pipe_vaccine (ds : gmap string scalar) : gmap string scalar :=
  (* Johnson&Johnson authorized, no doses arrived or given yet *)
  let vaccines_used :=
    "Pfizer/BioNTech, Sinopharm/Beijing, Sputnik V, Oxford/AstraZeneca" in
  enrich_data ds "vaccine" (Str vaccines_used).

Definition pipe_source (ds : gmap string scalar) : gmap string scalar :=
  enrich_data ds "source_url" (Str source_url).

Definition pipeline (ds : gmap string scalar) : result (gmap string scalar) :=
  ds ← pipe_vaccinations enrich_data ds;
  Ok (pipe_source (pipe_vaccine (pipe_location (pipe_date ds)))).

End Pipeline.

End Jordan.

(** ** [cowidev.vax.incremental.japan] *)

Module Japan.

(** [df.shape == (3, 7)] on a table given by its rows. *)
Definition shape_3_7 (df : list (list (option Z))) : bool :=
  (length df =? 3)%nat && forallb (λ r, (length r =? 7)%nat) df.

(** [x == y] on cells; false when a side is NaN. *)
Definition eq_na (a b : option Z) : bool :=
  match a, b with
  | Some x, Some y => x =? y
  | _, _ => false
  end.

(** [df.iloc[:, 2].values], and [values[i]]. *)
Definition values (df : list (list (option Z))) : list (option Z) :=
  (λ r, mjoin (r !! 2%nat)) <$> df.

Definition value (df : list (list (option Z))) (i : nat) : option Z :=
  mjoin (values df !! i).

Section Reader.

(** [localdate("Asia/Tokyo")] *)
Variable today : string.

(** The table is the one that [read_html] finds on the page. Once the
    second assertion holds, no value is NaN. *)
Definition connect_parse_data (df : list (list (option Z)))
  : result (gmap string scalar) :=
  assert (shape_3_7 df);;
  let total_vaccinations := value df 0 in
  let people_vaccinated := value df 1 in
  let people_fully_vaccinated := value df 2 in
  assert (eq_na total_vaccinations
                (add_na people_vaccinated people_fully_vaccinated));;
  match total_vaccinations, people_vaccinated, people_fully_vaccinated with
  | Some t, Some p, Some f =>
      Ok ({[ "total_vaccinations" := Int t;
             "people_vaccinated" := Int p;
             "people_fully_vaccinated" := Int f;
             "date" := Str today ]} : gmap string scalar)
  | _, _, _ => Raise AssertionError
  end.

End Reader.

End Japan.

(** Python's [-]: the difference of two integers. *)
Definition sub (a b : scalar) : result scalar :=
  match a, b with
  | Int x, Int y => Ok (Int (x - y))
  | _, _ => Raise TypeError
  end.

(** ** [cowidev.vax.incremental.taiwan] *)

Module Taiwan.

(** A table read from the PDF is given by its rows, all of the same
    length; a cell is a string or NaN. *)
Definition ncols (df : list (list (option string))) : nat :=
  match df with
  | r :: _ => length r
  | [] => 0%nat
  end.

(** [df.iloc[i, j]] with Python's negative row positions. *)
Definition iloc (df : list (list (option string))) (i : Z) (j : nat)
  : result (option string) :=
  let n := Z.of_nat (length df) in
  let k := if i <? 0 then n + i else i in
  if (k <? 0) || (n <=? k) then Raise IndexError
  else match df !! Z.to_nat k ≫= (.!! j) with
       | Some c => Ok c
       | None => Raise IndexError
       end.

(** [cell == s]; false on NaN. *)
Definition cell_is (c : option string) (s : string) : bool :=
  match c with
  | Some x => String.eqb x s
  | None => false
  end.

(** [df[df[1] == label].tail(1).values[0][-1]] *)
Definition last_value (df : list (list (option string))) (label : string)
  : result (option string) :=
  match last (filter (λ r, cell_is (mjoin (r !! 1%nat)) label = true) df)
          ≫= last with
  | Some c => Ok c
  | None => Raise IndexError
  end.

Section Stats.

(** [cowidev.utils.clean.clean_count] *)
Variable clean_count : option string → result Z.

(** The condition of the [if], with the short circuits of [or]. *)
Definition format_has_changed (df : list (list (option string)))
  : result bool :=
  if negb (ncols df =? 4)%nat then Ok true else
  c ← iloc df 0 0;
  if negb (cell_is c "廠牌") then Ok true else
  c ← iloc df 0 1;
  if negb (cell_is c "劑次") then Ok true else
  c ← iloc df (-1) 0;
  if cell_is c "總計" then Ok false else
  c ← iloc df (-2) 0;
  Ok (negb (cell_is c "總計")).

Definition _parse_stats (df : list (list (option string)))
  : result (gmap string scalar) :=
  changed ← format_has_changed df;
  if (changed : bool) then Raise (ValueError TableFormatChanged) else
  num_dose1 ← last_value df "第 1劑";
  num_dose1 ← clean_count num_dose1;
  num_dose2 ← last_value df "第 2劑";
  num_dose2 ← clean_count num_dose2;
  Ok ({[ "total_vaccinations" := Int (num_dose1 + num_dose2);
         "people_vaccinated" := Int num_dose1 ]} : gmap string scalar).

End Stats.

(** New vaccine "Medigen" soon. *)
Definition vaccines_mapping : gmap string string :=
  {[ "AstraZeneca" := "Oxford/AstraZeneca";
     "高端" := "Medigen";
     "Moderna" := "Moderna";
     "BioNTech" := "Pfizer/BioNTech" ]}.

(** [set(df.iloc[1:-1, 0].dropna()) - set(["總計"])]: the first cells of
    the rows between the first and the last, NaN left out. *)
Definition brands (df : list (list (option string))) : gset string :=
  list_to_set
    (omap (λ r, mjoin (r !! 0%nat)) (take (length df - 2) (drop 1 df)))
  ∖ {[ "總計" ]}.

Definition _parse_vaccines (df : list (list (option string)))
  : result string :=
  let vaccines := brands df in
  let vaccines_wrong := vaccines ∖ dom vaccines_mapping in
  if negb (bool_decide (vaccines_wrong = ∅)) then
    Raise (ValueError (UnknownVaccines vaccines_wrong))
  else
    Ok (join ", " (sorted (omap (vaccines_mapping !!.) (elements vaccines)))).

Definition location : string := "Taiwan".
Definition source_data_url : string :=
  "https://www.cdc.gov.tw/Category/Page/9jFXNbCe-sFK9EImRRi2Og".

Section Pipeline.

(** [cowidev.vax.utils.incremental.enrich_data] *)
Variable enrich_data :
  gmap string scalar → string → scalar → gmap string scalar.

Definition pipe_metrics (ds : gmap string scalar)
  : result (gmap string scalar) :=
  if bool_decide (is_Some (ds !! "people_vaccinated")) then
    total_vaccinations ← getattr ds "total_vaccinations";
    people_vaccinated ← getattr ds "people_vaccinated";
    people_fully_vaccinated ← sub total_vaccinations people_vaccinated;
    Ok (enrich_data ds "people_fully_vaccinated" people_fully_vaccinated)
  else Ok ds.

Definition pipe_location (ds : gmap string scalar) : gmap string scalar :=
  enrich_data ds "location" (Str location).

Definition pipe_source (ds : gmap string scalar) : gmap string scalar :=
  enrich_data ds "source_url" (Str source_data_url).

Definition pipeline (ds : gmap string scalar) : result (gmap string scalar) :=
  ds ← pipe_metrics ds;
  Ok (pipe_source (pipe_location ds)).

End Pipeline.

End Taiwan.

(** ** [cowidev.vax.incremental.philippines] *)

Module Philippines.

(** What [_parse_data] returns. *)
Record metrics : Type := {
  total_vaccinations : Z;
  people_fully_vaccinated : Z;
  total_boosters : Z;
  date : string
}.

(** The [ValueError] of [_parse_data] names the two metrics to check: the
    one that should be the larger, then the other. *)
Inductive outcome : Type :=
  | Data (m : metrics)
  | CheckValues (larger smaller : string).

(** [_parse_data] once the date and the three counts are read from the
    page. *)
Definition _parse_data (date : string)
    (total_vaccinations people_fully_vaccinated total_boosters : Z)
  : outcome :=
  if total_vaccinations <? people_fully_vaccinated then
    CheckValues "total_vaccinations" "people_fully_vaccinated"
  else if total_vaccinations <? total_boosters then
    CheckValues "total_vaccinations" "total_boosters"
  else if people_fully_vaccinated <? total_boosters then
    CheckValues "people_fully_vaccinated" "total_boosters"
  else
    Data {| total_vaccinations := total_vaccinations;
            people_fully_vaccinated := people_fully_vaccinated;
            total_boosters := total_boosters;
            date := date |}.

End Philippines.

(** ** Sample inputs *)

Module Samples.

(** Two days of a source whose total goes down from 100 to 50. *)
Definition regressing_source : list SaudiArabia.attributes :=
  [ {| SaudiArabia.Reportdt := 1612137600000;
       SaudiArabia.Total_Vaccinations := Some 100;
       SaudiArabia.FirstDose := Some 80;
       SaudiArabia.SecondDose := Some 20 |};
    {| SaudiArabia.Reportdt := 1612224000000;
       SaudiArabia.Total_Vaccinations := Some 50;
       SaudiArabia.FirstDose := Some 40;
       SaudiArabia.SecondDose := Some 10 |} ].

(** Doses given on three days, with a row that names no vaccine. *)
Definition peru_source : list Peru.Csv.row :=
  [ {| Peru.Csv.fecha_vacunacion := "2021-02-10";
       Peru.Csv.fabricante := Some "PFIZER";
       Peru.Csv.dosis := 1; Peru.Csv.n_reg := 5 |};
    {| Peru.Csv.fecha_vacunacion := "2021-02-09";
       Peru.Csv.fabricante := Some "SINOPHARM";
       Peru.Csv.dosis := 1; Peru.Csv.n_reg := 10 |};
    {| Peru.Csv.fecha_vacunacion := "2021-02-10";
       Peru.Csv.fabricante := Some "SINOPHARM";
       Peru.Csv.dosis := 2; Peru.Csv.n_reg := 3 |};
    {| Peru.Csv.fecha_vacunacion := "2021-02-10";
       Peru.Csv.fabricante := None;
       Peru.Csv.dosis := 2; Peru.Csv.n_reg := 3 |};
    {| Peru.Csv.fecha_vacunacion := "2021-02-11";
       Peru.Csv.fabricante := Some "ASTRAZENECA";
       Peru.Csv.dosis := 3; Peru.Csv.n_reg := 1 |} ].

(** A persisted series of two days, and a later correction of the second
    day. *)
Definition first_day : Incremental.Observation :=
  {| Incremental.location := "Jordan";
     Incremental.date := "2021-06-01";
     Incremental.total_vaccinations := Some 1000%N;
     Incremental.people_vaccinated := Some 700%N;
     Incremental.people_fully_vaccinated := Some 300%N;
     Incremental.total_boosters := None;
     Incremental.vaccine := "Pfizer/BioNTech";
     Incremental.source_url := "https://corona.moh.gov.jo/ar" |}.

Definition second_day : Incremental.Observation :=
  {| Incremental.location := "Jordan";
     Incremental.date := "2021-06-02";
     Incremental.total_vaccinations := Some 1100%N;
     Incremental.people_vaccinated := Some 750%N;
     Incremental.people_fully_vaccinated := Some 350%N;
     Incremental.total_boosters := None;
     Incremental.vaccine := "Pfizer/BioNTech";
     Incremental.source_url := "https://corona.moh.gov.jo/ar" |}.

Definition correction : Incremental.Observation :=
  {| Incremental.location := "Jordan";
     Incremental.date := "2021-06-02";
     Incremental.total_vaccinations := Some 1150%N;
     Incremental.people_vaccinated := Some 760%N;
     Incremental.people_fully_vaccinated := Some 390%N;
     Incremental.total_boosters := None;
     Incremental.vaccine := "Pfizer/BioNTech";
     Incremental.source_url := "https://corona.moh.gov.jo/ar" |}.

Definition regressed : Incremental.Observation :=
  {| Incremental.location := "Jordan";
     Incremental.date := "2021-06-03";
     Incremental.total_vaccinations := Some 900%N;
     Incremental.people_vaccinated := Some 760%N;
     Incremental.people_fully_vaccinated := Some 390%N;
     Incremental.total_boosters := None;
     Incremental.vaccine := "Pfizer/BioNTech";
     Incremental.source_url := "https://corona.moh.gov.jo/ar" |}.

Definition persisted : list Incremental.Observation :=
  [first_day; second_day].

(** Tables in the manner of [WHO_VACCINES], [WHO_COUNTRIES] and
    [VACCINES_ONE_DOSE]. *)
Definition who_vaccines : gmap string string :=
  {[ "Pfizer BioNTech - Comirnaty" := "Pfizer/BioNTech";
     "SII - Covishield" := "Oxford/AstraZeneca";
     "Janssen - Ad26.COV 2-S" := "Johnson&Johnson" ]}.

Definition who_countries : gmap string string :=
  {[ "Gambia" := "Gambia"; "Aruba" := "Aruba" ]}.

Definition vaccines_one_dose : list string := ["Johnson&Johnson"; "CanSino"].

(** A row of Gambia, for which the feed lists a two-dose vaccine only. *)
Definition gambia : Who.row :=
  {| Who.COUNTRY := Some "Gambia";
     Who.DATE_UPDATED := Some "2021-09-01";
     Who.DATA_SOURCE := Some "REPORTING";
     Who.TOTAL_VACCINATIONS := Some 200;
     Who.PERSONS_VACCINATED_1PLUS_DOSE := Some 150;
     Who.PERSONS_FULLY_VACCINATED := Some 50;
     Who.VACCINES_USED := Some "SII - Covishield";
     Who.only_2doses := None |}.

(** A row that reports first doses and no total. *)
Definition unknown_total : Who.row :=
  {| Who.COUNTRY := Some "Aruba";
     Who.DATE_UPDATED := Some "2021-09-01";
     Who.DATA_SOURCE := Some "REPORTING";
     Who.TOTAL_VACCINATIONS := None;
     Who.PERSONS_VACCINATED_1PLUS_DOSE := Some 80;
     Who.PERSONS_FULLY_VACCINATED := None;
     Who.VACCINES_USED := Some "Pfizer BioNTech - Comirnaty";
     Who.only_2doses := None |}.

(** A row of the mask example: more first doses than doses in total. *)
Definition more_people_than_doses : Who.row :=
  {| Who.COUNTRY := Some "Aruba";
     Who.DATE_UPDATED := Some "2021-09-01";
     Who.DATA_SOURCE := Some "REPORTING";
     Who.TOTAL_VACCINATIONS := Some 50;
     Who.PERSONS_VACCINATED_1PLUS_DOSE := Some 80;
     Who.PERSONS_FULLY_VACCINATED := Some 10;
     Who.VACCINES_USED := Some "Pfizer BioNTech - Comirnaty";
     Who.only_2doses := None |}.

(** A row whose date of update is blank. *)
Definition undated : Who.row :=
  {| Who.COUNTRY := Some "Aruba";
     Who.DATE_UPDATED := None;
     Who.DATA_SOURCE := Some "REPORTING";
     Who.TOTAL_VACCINATIONS := Some 200;
     Who.PERSONS_VACCINATED_1PLUS_DOSE := Some 150;
     Who.PERSONS_FULLY_VACCINATED := Some 50;
     Who.VACCINES_USED := Some "Pfizer BioNTech - Comirnaty";
     Who.only_2doses := None |}.

(** The example of the resolver: one known and one unknown token. *)
Definition pfizer_only : gmap string string :=
  {[ "PFIZER" := "Pfizer/BioNTech" ]}.

Definition pfizer_and_moderna : Who.row :=
  {| Who.COUNTRY := Some "Aruba";
     Who.DATE_UPDATED := Some "2021-09-01";
     Who.DATA_SOURCE := Some "REPORTING";
     Who.TOTAL_VACCINATIONS := Some 200;
     Who.PERSONS_VACCINATED_1PLUS_DOSE := Some 150;
     Who.PERSONS_FULLY_VACCINATED := Some 50;
     Who.VACCINES_USED := Some "PFIZER, MODERNA";
     Who.only_2doses := None |}.

(** One day of the French source: the four vaccines of the mapping, and a
    vaccine of code 5 that the mapping does not know. *)
Definition france_row (code : Z) (n1 n2 n3 : option Z) : France.Csv.row :=
  {| France.Csv.vaccin := code;
     France.Csv.jour := "2021-05-01";
     France.Csv.n_cum_dose1 := n1;
     France.Csv.n_cum_dose2 := n2;
     France.Csv.n_cum_dose3 := n3 |}.

Definition france_source : list France.Csv.row :=
  [ france_row 1 (Some 100) (Some 60) (Some 0);
    france_row 2 (Some 50) (Some 20) (Some 0);
    france_row 3 (Some 30) (Some 10) (Some 0);
    france_row 4 (Some 100) (Some 0) (Some 0);
    france_row 5 (Some 7) (Some 2) (Some 0) ].

(** The same day when the source reports no booster at all, and no second
    dose for the one-dose vaccine. *)
Definition france_without_boosters : list France.Csv.row :=
  [ france_row 1 (Some 100) (Some 60) None;
    france_row 2 (Some 50) (Some 20) None;
    france_row 3 (Some 30) (Some 10) None;
    france_row 4 (Some 100) None None ].

(** A day of Hong Kong with 100 doses of one vaccine and 0 of the
    other. *)
Definition hong_kong_day : HongKong.Read.row :=
  {| HongKong.Read.date := "2021-03-01";
     HongKong.Read.people_vaccinated := Some 100;
     HongKong.Read.people_fully_vaccinated := Some 0;
     HongKong.Read.total_vaccinations := Some 100;
     HongKong.Read.total_pfizer := Some 100;
     HongKong.Read.total_sinovac := Some 0 |}.

(** A week of the Peruvian age table before the campaign began. *)
Definition early_week : Peru.Age.row :=
  {| Peru.Age.people_vaccinated_per_hundred := Some (50 # 1);
     Peru.Age.people_fully_vaccinated_per_hundred := Some (30 # 1);
     Peru.Age.sunday := "2021-01-31";
     Peru.Age.location := "Peru" |}.

(** What Jordan's reader returns. *)
Definition jordan_reading : gmap string scalar :=
  {[ "people_vaccinated" := Int 700; "people_fully_vaccinated" := Int 300 ]}.

(** Doses of the first two numbers only. *)
Definition peru_without_boosters : list Peru.Csv.row :=
  [ {| Peru.Csv.fecha_vacunacion := "2021-02-09";
       Peru.Csv.fabricante := Some "SINOPHARM";
       Peru.Csv.dosis := 1; Peru.Csv.n_reg := 10 |};
    {| Peru.Csv.fecha_vacunacion := "2021-02-10";
       Peru.Csv.fabricante := Some "SINOPHARM";
       Peru.Csv.dosis := 2; Peru.Csv.n_reg := 3 |} ].

(** The table of a report of Taiwan: two brands, the totals in the last
    two rows. *)
Definition taiwan_table : list (list (option string)) :=
  [ [Some "廠牌"; Some "劑次"; Some "本日接種人次"; Some "累計接種人次"];
    [Some "AstraZeneca"; Some "第 1劑"; Some "10"; Some "500"];
    [None; Some "第 2劑"; Some "20"; Some "250"];
    [Some "Moderna"; Some "第 1劑"; Some "30"; Some "200"];
    [None; Some "第 2劑"; Some "5"; Some "50"];
    [Some "總計"; Some "第 1劑"; Some "40"; Some "700"];
    [None; Some "第 2劑"; Some "25"; Some "300"] ].

(** The same report with a brand that the mapping does not know. *)
Definition taiwan_table_new_brand : list (list (option string)) :=
  [ [Some "廠牌"; Some "劑次"; Some "本日接種人次"; Some "累計接種人次"];
    [Some "AstraZeneca"; Some "第 1劑"; Some "10"; Some "500"];
    [Some "Novavax"; Some "第 1劑"; Some "30"; Some "200"];
    [Some "總計"; Some "第 1劑"; Some "40"; Some "700"];
    [None; Some "第 2劑"; Some "25"; Some "300"] ].

(** A reader of counts written with digits only, in the place of
    [clean_count]. *)
Definition digit_value (c : ascii) : option Z :=
  let n := Z.of_N (N_of_ascii c) in
  if (48 <=? n) && (n <=? 57) then Some (n - 48) else None.

Fixpoint read_digits (acc : Z) (s : string) : option Z :=
  match s with
  | EmptyString => Some acc
  | String c s => d ← digit_value c; read_digits (10 * acc + d) s
  end.

Definition read_count (c : option string) : result Z :=
  match c ≫= read_digits 0 with
  | Some n => Ok n
  | None => Raise TypeError
  end.

(** The series that Taiwan's reader makes of the table above. *)
Definition taiwan_series : gmap string scalar :=
  {[ "total_vaccinations" := Int 1000;
     "people_vaccinated" := Int 700;
     "date" := Str "2021-07-01";
     "vaccine" := Str "Moderna, Oxford/AstraZeneca" ]}.

End Samples.

(** * Properties *)

(** ** The order on strings *)

Lemma str_lt_irrefl (a : string) : str_lt a a = false.
Proof.
  unfold str_lt, String.ltb.
  pose proof (String.compare_antisym a a) as H.
  destruct (String.compare a a); simpl in H; congruence.
Qed.

Lemma str_lt_asym (a b : string) : str_lt a b = true → str_lt b a = false.
Proof.
  unfold str_lt, String.ltb. rewrite (String.compare_antisym a b).
  destruct (String.compare b a); simpl; congruence.
Qed.

Lemma str_lt_total (a b : string) :
  str_lt a b = false → String.eqb a b = false → str_lt b a = true.
Proof.
  unfold str_lt, String.ltb. rewrite (String.compare_antisym a b).
  destruct (String.compare b a) eqn:E; simpl; try congruence.
  apply String.compare_eq_iff in E as ->.
  rewrite String.eqb_refl. congruence.
Qed.

Lemma ascii_compare_trans (a b c : ascii) (o : comparison) :
  Ascii.compare a b = o → Ascii.compare b c = o → Ascii.compare a c = o.
Proof.
  unfold Ascii.compare. destruct o.
  - rewrite !N.compare_eq_iff. congruence.
  - rewrite !N.compare_lt_iff. lia.
  - rewrite !N.compare_gt_iff. lia.
Qed.

Lemma str_lt_trans (a b c : string) :
  str_lt a b = true → str_lt b c = true → str_lt a c = true.
Proof.
  unfold str_lt, String.ltb. revert b c.
  induction a as [|x a IH]; intros [|y b] [|z c]; simpl; try done.
  destruct (Ascii.compare x y) eqn:Hxy; try done;
    destruct (Ascii.compare y z) eqn:Hyz; try done.
  - rewrite (ascii_compare_trans _ _ _ _ Hxy Hyz). apply IH.
  - apply Ascii.compare_eq_iff in Hxy as ->. by rewrite Hyz.
  - apply Ascii.compare_eq_iff in Hyz as <-. by rewrite Hxy.
  - by rewrite (ascii_compare_trans _ _ _ _ Hxy Hyz).
Qed.

(** ** C1: merging twice *)

Section MergeFacts.
Import Incremental.

Lemma upsert_upsert (o : Observation) (s : list Observation) :
  upsert o (upsert o s) = upsert o s.
Proof.
  induction s as [|x r IH]; simpl.
  - by rewrite str_lt_irrefl, String.eqb_refl.
  - destruct (str_lt (date o) (date x)) eqn:Hlt; simpl.
    + by rewrite str_lt_irrefl, String.eqb_refl.
    + destruct (String.eqb (date o) (date x)) eqn:Heq; simpl.
      * by rewrite str_lt_irrefl, String.eqb_refl.
      * by rewrite Hlt, Heq, IH.
Qed.

Lemma merge_Ok_inv (s s' : list Observation) (o : Observation) :
  merge s o = Ok s' →
  s' = upsert o s ∧ neighbours_ok (date o) (upsert o s) = true.
Proof.
  unfold merge. destruct (neighbours_ok _ _) eqn:E; [|done].
  intros [= <-]. done.
Qed.

(** The upsert keeps the dates ascending. *)
Lemma upsert_ascending (o : Observation) (s : list Observation) :
  ascending (date <$> s) → ascending (date <$> upsert o s).
Proof.
  unfold ascending. induction s as [|x r IH]; simpl; intros Hs.
  - by repeat constructor.
  - inversion_clear Hs as [|? ? Hr Hhd].
    destruct (str_lt (date o) (date x)) eqn:Hlt; simpl.
    + by repeat constructor.
    + destruct (String.eqb (date o) (date x)) eqn:Heq; simpl.
      * apply String.eqb_eq in Heq as ->. by constructor.
      * constructor; [by apply IH|].
        pose proof (str_lt_total _ _ Hlt Heq) as Hxo.
        destruct r as [|y r']; simpl in *; [by constructor|].
        inversion_clear Hhd.
        destruct (str_lt (date o) (date y)); simpl; [by constructor|].
        destruct (String.eqb (date o) (date y)); simpl; by constructor.
Qed.

(** After a merge that is accepted, the new Observation is in the
    series. *)
Lemma upsert_elem_of (o : Observation) (s : list Observation) :
  o ∈ upsert o s.
Proof.
  induction s as [|x r IH]; simpl; [by left|].
  destruct (str_lt (date o) (date x)); [by left|].
  destruct (String.eqb (date o) (date x)); [by left|by right].
Qed.

(** In a series with ascending dates, every later Observation has a later
    date than the first one. *)
Lemma ascending_head (x : Observation) (r : list Observation) :
  ascending (date <$> x :: r) →
  ∀ y, y ∈ r → str_lt (date x) (date y) = true.
Proof.
  unfold ascending. revert x. induction r as [|z r IH]; intros x Hs y Hy.
  - by apply elem_of_nil in Hy.
  - simpl in Hs. inversion_clear Hs as [|? ? Hr Hhd].
    inversion_clear Hhd as [|? ? Hxz].
    apply elem_of_cons in Hy as [->|Hy]; [done|].
    apply (str_lt_trans _ (date z)); [done|]. by apply IH.
Qed.

(** When the date of the new Observation is already in the series, the
    upsert replaces the Observation of that date: the dates of the series
    stay the same. *)
Lemma upsert_replaces (o : Observation) (s : list Observation) :
  ascending (date <$> s) → date o ∈ date <$> s →
  date <$> upsert o s = date <$> s.
Proof.
  induction s as [|x r IH]; intros Hs Hin.
  - by apply elem_of_nil in Hin.
  - simpl. destruct (str_lt (date o) (date x)) eqn:Hlt.
    + exfalso. rewrite fmap_cons in Hin.
      apply elem_of_cons in Hin as [Heq|Hin].
      * rewrite Heq, str_lt_irrefl in Hlt. done.
      * apply list_elem_of_fmap in Hin as (y & Hy & Hin).
        pose proof (ascending_head x r Hs y Hin) as Hxy.
        rewrite Hy in Hlt. apply str_lt_asym in Hlt. congruence.
    + destruct (String.eqb (date o) (date x)) eqn:Heq.
      * apply String.eqb_eq in Heq. by rewrite !fmap_cons, Heq.
      * rewrite !fmap_cons. f_equal. apply IH.
        -- unfold ascending in *. simpl in Hs. by inversion_clear Hs.
        -- rewrite fmap_cons in Hin. apply elem_of_cons in Hin as [Hd|Hin];
             [|done]. apply String.eqb_neq in Heq. done.
Qed.

Lemma valid_cons (a b : Observation) (r : list Observation) :
  valid (a :: b :: r) = true
  ↔ str_lt (date a) (date b) = true ∧ non_regressing a b = true
    ∧ valid (b :: r) = true.
Proof. simpl. rewrite !andb_true_iff. tauto. Qed.

Lemma neighbours_ok_cons (d : string) (a b : Observation)
    (r : list Observation) :
  neighbours_ok d (a :: b :: r) = true
  ↔ (date a = d ∨ date b = d → non_regressing a b = true)
    ∧ neighbours_ok d (b :: r) = true.
Proof.
  simpl. rewrite andb_true_iff.
  destruct (String.eqb (date a) d) eqn:Ea, (String.eqb (date b) d) eqn:Eb;
    simpl; rewrite ?String.eqb_eq, ?String.eqb_neq in *; intuition.
Qed.

(** A merge that is accepted keeps the invariant of the series: dates
    ascending, one Observation per date, no cumulative field going down
    between neighbours. *)
Lemma merge_valid (s s' : list Observation) (o : Observation) :
  valid s = true → merge s o = Ok s' → valid s' = true.
Proof.
  intros Hs [-> Hn]%merge_Ok_inv. revert Hs Hn.
  induction s as [|x r IH]; [done|].
  cbn [upsert].
  destruct (str_lt (date o) (date x)) eqn:Hlt.
  { intros Hs [Hox _]%neighbours_ok_cons. apply valid_cons. auto. }
  destruct (String.eqb (date o) (date x)) eqn:Heq.
  { apply String.eqb_eq in Heq. destruct r as [|y r']; [done|].
    intros (Hxy & _ & Hr)%valid_cons [Hoy _]%neighbours_ok_cons.
    apply valid_cons. rewrite Heq. auto. }
  pose proof (str_lt_total _ _ Hlt Heq) as Hxo.
  destruct r as [|y r'].
  { intros _ [Hxo' _]%neighbours_ok_cons. apply valid_cons. cbn. auto. }
  intros (Hxy & Hnr & Hr)%valid_cons. specialize (IH Hr). revert IH.
  cbn [upsert].
  destruct (str_lt (date o) (date y)) eqn:Hlty.
  { intros IH [Hxo' Hn]%neighbours_ok_cons. apply valid_cons. auto. }
  destruct (String.eqb (date o) (date y)) eqn:Heqy.
  { intros IH [Hxo' Hn]%neighbours_ok_cons. apply valid_cons. auto. }
  intros IH [_ Hn]%neighbours_ok_cons. apply valid_cons. auto.
Qed.

(** The regression example: after a day with 1100 doses in total, a later
    day with 900 is rejected. *)
Lemma merge_regression_rejected :
  merge Samples.persisted Samples.regressed = Raise RegressionError.
Proof. by vm_compute. Qed.

(** Merging the same Observation a second time, whatever the series. *)
Lemma merge_twice (s : list Observation) (o : Observation) :
  (merge s o ≫= λ s', merge s' o) = merge s o.
Proof.
  unfold merge at 2 3.
  destruct (neighbours_ok (date o) (upsert o s)) eqn:E; simpl; [|done].
  unfold merge. by rewrite upsert_upsert, E.
Qed.

(** C1. For every series [s] and every Observation [o] whose date is
    already present in [s], merging [o] a second time changes nothing:
    [merge (merge s o) o = merge s o]. A merge that is accepted returns a
    series that the second merge accepts and returns as it is; a merge
    that is rejected stays rejected. *)
Theorem merge_idempotent (s : list Observation) (o : Observation) :
  date o ∈ date <$> s →
  (merge s o ≫= λ s', merge s' o) = merge s o
  ∧ ∀ s', merge s o = Ok s' → merge s' o = Ok s'.
Proof.
  intros _. split.
  - unfold merge at 2 3.
    destruct (neighbours_ok (date o) (upsert o s)) eqn:E; simpl; [|done].
    unfold merge. by rewrite upsert_upsert, E.
  - intros s' [-> E]%merge_Ok_inv.
    unfold merge. by rewrite upsert_upsert, E.
Qed.

Lemma merge_idempotent_witness :
  date Samples.correction ∈ date <$> Samples.persisted
  ∧ merge Samples.persisted Samples.correction
    = Ok [Samples.first_day; Samples.correction]
  ∧ (merge Samples.persisted Samples.correction
       ≫= λ s', merge s' Samples.correction)
    = merge Samples.persisted Samples.correction.
Proof.
  split; [|split].
  - vm_compute. right. left.
  - vm_compute. reflexivity.
  - refine (proj1 (merge_idempotent Samples.persisted Samples.correction _)).
    vm_compute. right. left.
Defined.

End MergeFacts.

(** ** Columns: sums, cumulative sums, sorted keys *)

Lemma sum_list_nonneg (l : list Z) : Forall (λ x, 0 ≤ x) l → 0 ≤ sum_list l.
Proof. induction 1; simpl; lia. Qed.

Lemma length_cumsum_from (acc : Z) (l : list Z) :
  length (cumsum_from acc l) = length l.
Proof. revert acc. induction l as [|x r IH]; intros acc; simpl; [done|]. by rewrite IH. Qed.

Lemma cumsum_from_non_decreasing (acc : Z) (l : list Z) :
  Forall (λ x, 0 ≤ x) l → non_decreasing (cumsum_from acc l).
Proof.
  intros Hl. revert acc. induction Hl as [|x r Hx Hr IH]; intros acc i a b.
  - done.
  - destruct i as [|i]; simpl.
    + intros [= <-]. destruct Hr as [|y r' Hy _]; simpl; [done|].
      intros [= <-]. lia.
    + apply IH.
Qed.

Lemma zip_add_non_decreasing (a b : list Z) :
  non_decreasing a → non_decreasing b → non_decreasing (zip_with Z.add a b).
Proof.
  intros Ha Hb i x y Hx Hy.
  apply lookup_zip_with_Some in Hx as (x1 & x2 & -> & Hx1 & Hx2).
  apply lookup_zip_with_Some in Hy as (y1 & y2 & -> & Hy1 & Hy2).
  specialize (Ha i _ _ Hx1 Hy1). specialize (Hb i _ _ Hx2 Hy2). lia.
Qed.

Lemma insert_key_HdRel (x d : string) (l : list string) :
  str_lt x d = true →
  HdRel (λ a b, str_lt a b = true) x l →
  HdRel (λ a b, str_lt a b = true) x (insert_key d l).
Proof.
  intros Hxd Hhd. destruct l as [|y r]; simpl; [by constructor|].
  inversion_clear Hhd.
  destruct (str_lt d y); [by constructor|].
  destruct (String.eqb d y); by constructor.
Qed.

Lemma insert_key_ascending (d : string) (l : list string) :
  ascending l → ascending (insert_key d l).
Proof.
  unfold ascending. induction 1 as [|x r Hr IH Hhd]; simpl.
  - by repeat constructor.
  - destruct (str_lt d x) eqn:Hlt; [by repeat constructor|].
    destruct (String.eqb d x) eqn:Heq; [by constructor|].
    constructor; [done|]. apply insert_key_HdRel; [|done].
    by apply str_lt_total.
Qed.

Lemma group_keys_ascending (l : list string) : ascending (group_keys l).
Proof.
  induction l as [|d l IH]; simpl; [constructor|].
  by apply insert_key_ascending.
Qed.

Section PeruFacts.
Import Peru.

Lemma pipe_checks_Ok (df df' : list row) : pipe_checks df = Ok df' → df' = df.
Proof.
  unfold pipe_checks.
  repeat (case_match; try done). by intros [= <-].
Qed.

Lemma cell_nonneg (df : list row) (d : string) (k : Z) :
  Forall (λ r, 0 ≤ n_reg r) df → 0 ≤ fillna (cell df d k).
Proof.
  intros Hdf. destruct (cell df d k) as [v|] eqn:E; simpl; [|done].
  unfold cell in E.
  destruct (filter _ df) as [|r g] eqn:F; [done|].
  assert (Forall (λ r, 0 ≤ n_reg r) (r :: g)) as Hg.
  { rewrite <- F. apply Forall_forall.
    intros x [_ Hx]%list_elem_of_filter.
    by apply (proj1 (Forall_forall _ _) Hdf). }
  injection E as <-.
  change (0 ≤ sum_list (n_reg <$> r :: g)).
  by apply sum_list_nonneg, Forall_fmap.
Qed.

Lemma pipe_format_column (df : list row) (k : Z) (col : list Z) :
  f_doses (pipe_format df) !! k = Some col →
  col = cumsum ((λ d, fillna (cell df d k)) <$> group_keys (date <$> df)).
Proof.
  unfold pipe_format; simpl. intros H.
  apply lookup_set_to_map in H as (y & _ & [= -> <-]); [done|].
  by intros y y' _ _ [=].
Qed.

Lemma pipe_format_column_facts (df : list row) (k : Z) (col : list Z) :
  Forall (λ r, 0 ≤ n_reg r) df →
  f_doses (pipe_format df) !! k = Some col →
  non_decreasing col ∧ length col = length (f_date (pipe_format df)).
Proof.
  intros Hdf ->%pipe_format_column. split.
  - apply cumsum_from_non_decreasing, Forall_fmap, Forall_forall.
    intros d _. by apply cell_nonneg.
  - unfold cumsum. by rewrite length_cumsum_from, length_fmap.
Qed.

Lemma pipeline_nonneg (df : list Csv.row) :
  Forall (λ r, 0 ≤ Csv.n_reg r) df →
  Forall (λ r, 0 ≤ n_reg r) (pipe_rename_vaccines (pipe_rename_columns df)).
Proof.
  intros Hdf. unfold pipe_rename_vaccines, pipe_rename_columns.
  apply Forall_fmap, Forall_forall. intros r Hr. simpl.
  apply list_elem_of_omap in Hr as (s & Hs & Hr).
  destruct (Csv.fabricante s); simplify_eq/=.
  by apply (proj1 (Forall_forall _ _) Hdf).
Qed.

(** Every series that the pipeline returns from non-negative dose counts
    has one value per date in each cumulative column, ascending dates
    and non-decreasing columns. *)
Lemma pipeline_non_decreasing (df : list Csv.row) (out : output) :
  Forall (λ r, 0 ≤ Csv.n_reg r) df →
  pipeline df = Ok out →
  cumulative_non_decreasing (data out).
Proof.
  intros Hdf. unfold pipeline.
  destruct (pipe_checks (pipe_rename_columns df)) as [df1|] eqn:Hc; [|done].
  apply pipe_checks_Ok in Hc as ->. simpl.
  pose proof (pipeline_nonneg df Hdf) as Hnn.
  set (df2 := pipe_rename_vaccines (pipe_rename_columns df)) in *.
  unfold pipe_total_vaccinations, people_vaccinated,
    people_fully_vaccinated, total_boosters.
  destruct (f_doses (pipe_format df2) !! 1) as [a|] eqn:Ha; [|done].
  destruct (f_doses (pipe_format df2) !! 2) as [b|] eqn:Hb; [|done].
  destruct (f_doses (pipe_format df2) !! 3) as [c|] eqn:Hc; [|done].
  simpl. intros [= <-]. simpl.
  destruct (pipe_format_column_facts df2 1 a Hnn Ha) as [Ha1 Ha2].
  destruct (pipe_format_column_facts df2 2 b Hnn Hb) as [Hb1 Hb2].
  destruct (pipe_format_column_facts df2 3 c Hnn Hc) as [Hc1 Hc2].
  split; [apply group_keys_ascending|].
  exists a, b, c, (zip_with Z.add (zip_with Z.add a b) c).
  repeat split; try done.
  - rewrite !length_zip_with. simpl in *. lia.
  - by repeat apply zip_add_non_decreasing.
Qed.
End PeruFacts.

Lemma elem_of_insert_by {A : Type} (key : A → string) (x y : A) (l : list A) :
  y ∈ insert_by key x l ↔ y = x ∨ y ∈ l.
Proof.
  induction l as [|z r IH]; simpl.
  - rewrite list_elem_of_singleton, elem_of_nil. tauto.
  - destruct (str_lt (key x) (key z)).
    + by rewrite elem_of_cons.
    + rewrite !elem_of_cons, IH. tauto.
Qed.

Lemma elem_of_sort_values {A : Type} (key : A → string) (y : A) (l : list A) :
  y ∈ sort_values key l ↔ y ∈ l.
Proof.
  induction l as [|x r IH]; simpl; [done|].
  by rewrite elem_of_insert_by, elem_of_cons, IH.
Qed.

Section SaudiArabiaFacts.
Import SaudiArabia.

(** A row of the file carries, for its date, the largest total that the
    source reports for that date: nothing relates it to the rows of the
    other dates. *)
Lemma main_reports_source (features : list attributes) (r : row) :
  r ∈ main features →
  total_vaccinations r =
    max_skipna (Total_Vaccinations
                  <$> filter (λ a, date_of_ms (Reportdt a) = date r) features)
  ∧ gt_na (total_vaccinations r) (Some 0) = true
  ∧ date r ≠ "2021-03-03".
Proof.
  unfold main.
  intros [Hd Hr]%list_elem_of_filter.
  apply elem_of_sort_values in Hr.
  apply list_elem_of_filter in Hr as [Hpos Hr].
  unfold daily_max in Hr.
  apply list_elem_of_fmap in Hr as (d & -> & _). simpl in *. done.
Qed.

End SaudiArabiaFacts.

(** ** C2: cumulative fields from one date to the next *)

(** The Saudi Arabia file keeps the dates ascending and yet lets the total
    go down from 100 to 50 when the source does. *)
Lemma saudi_arabia_total_regresses :
  SaudiArabia.date <$> SaudiArabia.main Samples.regressing_source
    = ["2021-02-01"; "2021-02-02"]
  ∧ ascending (SaudiArabia.date <$> SaudiArabia.main Samples.regressing_source)
  ∧ omap SaudiArabia.total_vaccinations
         (SaudiArabia.main Samples.regressing_source) = [100; 50]
  ∧ ¬ non_decreasing
        (omap SaudiArabia.total_vaccinations
              (SaudiArabia.main Samples.regressing_source)).
Proof.
  split; [by vm_compute|]. split; [|split; [by vm_compute|]].
  - repeat constructor.
  - intros H. pose proof (H 0%nat 100 50 eq_refl eq_refl). lia.
Qed.

(** C2 (amended). Every series that the Peru batch pipeline produces from
    source dose counts [n_reg] that are all non-negative has ascending
    dates, and each of its cumulative fields ([people_vaccinated],
    [people_fully_vaccinated], [total_boosters], [total_vaccinations]) is
    non-decreasing between every pair of adjacent dates. A pipeline that
    republishes the cumulative counts of its source, as Saudi Arabia
    does, carries for each date the largest total the source reports for
    that date, and keeps only positive totals and dates other than
    2021-03-03. *)
Theorem cumulative_fields_non_decreasing :
  (∀ (df : list Peru.Csv.row) (out : Peru.output),
     Forall (λ r, 0 ≤ Peru.Csv.n_reg r) df →
     Peru.pipeline df = Ok out →
     Peru.cumulative_non_decreasing (Peru.data out))
  ∧ (∀ (features : list SaudiArabia.attributes) (r : SaudiArabia.row),
       r ∈ SaudiArabia.main features →
       SaudiArabia.total_vaccinations r =
         max_skipna
           (SaudiArabia.Total_Vaccinations
              <$> filter (λ a, date_of_ms (SaudiArabia.Reportdt a)
                               = SaudiArabia.date r) features)
       ∧ gt_na (SaudiArabia.total_vaccinations r) (Some 0) = true
       ∧ SaudiArabia.date r ≠ "2021-03-03").
Proof.
  split.
  - apply pipeline_non_decreasing.
  - apply main_reports_source.
Qed.

Lemma cumulative_fields_non_decreasing_witness :
  ∃ out : Peru.output,
    Forall (λ r, 0 ≤ Peru.Csv.n_reg r) Samples.peru_source
    ∧ Peru.pipeline Samples.peru_source = Ok out
    ∧ Peru.cumulative_non_decreasing (Peru.data out).
Proof.
  eexists. split; [|split].
  - repeat constructor; vm_compute; discriminate.
  - vm_compute. reflexivity.
  - apply (proj1 cumulative_fields_non_decreasing Samples.peru_source).
    + repeat constructor; vm_compute; discriminate.
    + vm_compute. reflexivity.
Defined.

(** ** Distinct values *)

Lemma elem_of_unique {A : Type} `{EqDecision A} (y : A) (l : list A) :
  y ∈ unique l ↔ y ∈ l.
Proof.
  induction l as [|x r IH]; simpl; [done|].
  rewrite !elem_of_cons, list_elem_of_filter, IH.
  destruct (decide (y = x)); tauto.
Qed.

Lemma filter_none {A : Type} (P : A → Prop) `{∀ x, Decision (P x)}
    (l : list A) :
  Forall (λ y, ¬ P y) l → filter P l = [].
Proof.
  induction 1 as [|y r Hy Hr IH]; [done|].
  by rewrite filter_cons_False.
Qed.

Lemma unique_all_equal {A : Type} `{EqDecision A} (x : A) (l : list A) :
  l ≠ [] → Forall (λ y, y = x) l → unique l = [x].
Proof.
  intros Hne Hall. destruct l as [|y r]; [done|]. simpl.
  apply Forall_cons in Hall as [-> Hr]. f_equal.
  apply filter_none, Forall_forall. intros z Hz Hzx.
  apply (proj1 (elem_of_unique _ _)) in Hz.
  rewrite Forall_forall in Hr. by apply Hzx, Hr.
Qed.

Lemma unique_singleton_inv {A : Type} `{EqDecision A} (x : A) (l : list A) :
  unique l = [x] → l ≠ [] ∧ Forall (λ y, y = x) l.
Proof.
  intros Hu. split.
  - intros ->. discriminate.
  - apply Forall_forall. intros y Hy.
    apply (proj2 (elem_of_unique _ _)) in Hy. rewrite Hu in Hy.
    by apply list_elem_of_singleton in Hy.
Qed.

Lemma elem_of_insert_key (y d : string) (l : list string) :
  y ∈ insert_key d l ↔ y = d ∨ y ∈ l.
Proof.
  induction l as [|x r IH]; simpl.
  - rewrite list_elem_of_singleton, elem_of_nil. tauto.
  - destruct (str_lt d x); [by rewrite elem_of_cons|].
    destruct (String.eqb d x) eqn:Heq.
    + apply String.eqb_eq in Heq as ->. rewrite elem_of_cons. tauto.
    + rewrite !elem_of_cons, IH. tauto.
Qed.

Lemma elem_of_group_keys (y : string) (l : list string) :
  y ∈ group_keys l ↔ y ∈ l.
Proof.
  induction l as [|x r IH]; simpl; [done|].
  by rewrite elem_of_insert_key, elem_of_cons, IH.
Qed.

(** ** The WHO feed *)

Section WhoFacts.
Import Who.

Lemma pipe_checks_cases (df : list row) :
  pipe_checks df = Ok df
  ∨ pipe_checks df = Raise (ValueError (FeedTooLong (length df)))
  ∨ pipe_checks df = Raise (ValueError SeveralDateUpdates).
Proof. unfold pipe_checks. repeat case_match; auto. Qed.

Lemma pipe_checks_Ok_iff (df : list row) :
  pipe_checks df = Ok df
  ↔ (length df ≤ 300)%nat ∧ date_updates df ≠ []
    ∧ Forall (λ n, n = 1%nat) (date_updates df).
Proof.
  unfold pipe_checks.
  destruct (300 <? length df)%nat eqn:Hlen.
  { apply Nat.ltb_lt in Hlen. split; [done|]. lia. }
  apply Nat.ltb_ge in Hlen.
  destruct (unique (date_updates df)) as [|n [|m u]] eqn:Hu; simpl.
  - split; [done|]. intros (_ & Hne & _).
    destruct (date_updates df); [done|discriminate].
  - destruct (n =? 1)%nat eqn:Hn; simpl.
    + apply Nat.eqb_eq in Hn as ->.
      apply unique_singleton_inv in Hu as [? ?]. done.
    + apply Nat.eqb_neq in Hn. split; [done|]. intros (_ & Hne & Hall).
      rewrite (unique_all_equal 1%nat _ Hne Hall) in Hu. congruence.
  - split; [done|]. intros (_ & Hne & Hall).
    rewrite (unique_all_equal 1%nat _ Hne Hall) in Hu. congruence.
Qed.

Lemma countries_nil (df : list row) :
  date_updates df = [] ↔ ∀ r, r ∈ df → COUNTRY r = None.
Proof.
  unfold date_updates. split.
  - intros Hk%fmap_nil_inv r Hr. destruct (COUNTRY r) as [c|] eqn:Hc; [|done].
    assert (c ∈ group_keys (omap COUNTRY df)) as Hin.
    { apply elem_of_group_keys, list_elem_of_omap. eauto. }
    rewrite Hk in Hin. by apply elem_of_nil in Hin.
  - intros Hall.
    destruct (group_keys (omap COUNTRY df)) as [|c k] eqn:Hk; [done|].
    assert (c ∈ group_keys (omap COUNTRY df)) as Hin by (rewrite Hk; left).
    apply elem_of_group_keys, list_elem_of_omap in Hin as (r & Hr & Hc).
    rewrite (Hall r Hr) in Hc. done.
Qed.

Lemma country_not_one_date (df : list row) :
  ¬ Forall (λ n, n = 1%nat) (date_updates df)
  ↔ ∃ c, Some c ∈ COUNTRY <$> df ∧ length (reporting_dates df c) ≠ 1%nat.
Proof.
  split.
  - intros H. apply not_Forall_Exists in H; [|apply _].
    apply Exists_exists in H as (n & Hn & Hne). unfold date_updates in Hn.
    apply list_elem_of_fmap in Hn as (c & -> & Hc).
    exists c. split; [|done].
    apply elem_of_group_keys, list_elem_of_omap in Hc as (r & Hr & Hc).
    apply list_elem_of_fmap. eauto.
  - intros (c & Hc & Hn) Hall. apply Hn.
    rewrite Forall_forall in Hall. apply Hall.
    unfold date_updates. apply list_elem_of_fmap. exists c. split; [done|].
    apply list_elem_of_fmap in Hc as (r & Hc & Hr).
    apply elem_of_group_keys, list_elem_of_omap. eauto.
Qed.

(** C8 (amended). The check rejects the entire batch by raising, no row
    being skipped or processed, if and only if the feed has more than 300
    rows, or no row of it names a country, or some country has a number of
    distinct reporting dates other than one (more than one, or none when
    all its dates are blank); otherwise the batch passes the check
    unchanged. *)
Theorem pipe_checks_rejects_iff (df : list row) :
  (pipe_checks df = Ok df
   ∨ pipe_checks df = Raise (ValueError (FeedTooLong (length df)))
   ∨ pipe_checks df = Raise (ValueError SeveralDateUpdates))
  ∧ (pipe_checks df ≠ Ok df
     ↔ (300 < length df)%nat
       ∨ (∀ r, r ∈ df → COUNTRY r = None)
       ∨ ∃ c, Some c ∈ COUNTRY <$> df
              ∧ length (reporting_dates df c) ≠ 1%nat).
Proof.
  split; [apply pipe_checks_cases|].
  rewrite pipe_checks_Ok_iff, <- countries_nil, <- country_not_one_date.
  split.
  - intros H. destruct (decide (length df ≤ 300)%nat); [|left; lia].
    right. destruct (decide (date_updates df = [])); [by left|].
    right. intros Hall. by apply H.
  - intros [H|[H|H]] (Hlen & Hne & Hall); [lia|done|done].
Qed.

(** The masks, case by case. *)
Lemma mask_1_true_iff (r : row) :
  mask_1 r = true
  ↔ PERSONS_VACCINATED_1PLUS_DOSE r = None
    ∨ ∃ t p, TOTAL_VACCINATIONS r = Some t
             ∧ PERSONS_VACCINATED_1PLUS_DOSE r = Some p ∧ p ≤ t.
Proof.
  unfold mask_1, ge_na, isnull.
  destruct (TOTAL_VACCINATIONS r) as [t|],
    (PERSONS_VACCINATED_1PLUS_DOSE r) as [p|]; simpl.
  - rewrite orb_false_r, Z.geb_le. split.
    + intros H. right. by exists t, p.
    + intros [?|(? & ? & [= <-] & [= <-] & ?)]; done.
  - split; [by left|done].
  - split; [done|]. by intros [?|(? & ? & ? & _)].
  - split; [by left|done].
Qed.

Lemma mask_2_true_iff (r : row) :
  mask_2 r = true
  ↔ PERSONS_FULLY_VACCINATED r = None
    ∨ ∃ t f, TOTAL_VACCINATIONS r = Some t
             ∧ PERSONS_FULLY_VACCINATED r = Some f ∧ f ≤ t.
Proof.
  unfold mask_2, ge_na, isnull.
  destruct (TOTAL_VACCINATIONS r) as [t|],
    (PERSONS_FULLY_VACCINATED r) as [f|]; simpl.
  - rewrite orb_false_r, Z.geb_le. split.
    + intros H. right. by exists t, f.
    + intros [?|(? & ? & [= <-] & [= <-] & ?)]; done.
  - split; [by left|done].
  - split; [done|]. by intros [?|(? & ? & ? & _)].
  - split; [by left|done].
Qed.

Lemma mask_3_true_iff (r : row) :
  mask_3 r = true
  ↔ PERSONS_VACCINATED_1PLUS_DOSE r = None
    ∨ PERSONS_FULLY_VACCINATED r = None
    ∨ ∃ p f, PERSONS_VACCINATED_1PLUS_DOSE r = Some p
             ∧ PERSONS_FULLY_VACCINATED r = Some f ∧ f ≤ p.
Proof.
  unfold mask_3, ge_na, isnull.
  destruct (PERSONS_VACCINATED_1PLUS_DOSE r) as [p|],
    (PERSONS_FULLY_VACCINATED r) as [f|]; simpl.
  - rewrite !orb_false_r, Z.geb_le. split.
    + intros H. right. right. by exists p, f.
    + intros [?|[?|(? & ? & [= <-] & [= <-] & ?)]]; done.
  - split; [by right; left|done].
  - split; [by left|done].
  - split; [by left|done].
Qed.

Lemma elem_of_pipe_filter_entries
    (WHO_COUNTRIES : gmap string string) (df : list row) (r : row) :
  r ∈ pipe_filter_entries WHO_COUNTRIES df
  ↔ r ∈ df ∧ DATA_SOURCE r = Some "REPORTING"
    ∧ mask_1 r = true ∧ mask_2 r = true ∧ mask_3 r = true
    ∧ ∃ c k, COUNTRY r = Some c ∧ WHO_COUNTRIES !! k = Some c.
Proof.
  unfold pipe_filter_entries. rewrite !list_elem_of_filter, !andb_true_iff.
  assert (known_country WHO_COUNTRIES r = true
          ↔ ∃ c k, COUNTRY r = Some c ∧ WHO_COUNTRIES !! k = Some c) as ->.
  { unfold known_country. destruct (COUNTRY r) as [c|].
    - rewrite bool_decide_eq_true, elem_of_map_img. split.
      + intros [k Hk]. by exists c, k.
      + intros (? & k & [= <-] & Hk). by exists k.
    - split; [done|]. by intros (? & ? & ? & _). }
  tauto.
Qed.

(** C4 (amended). In the row filtering of the WHO feed, the masks
    total ≥ first-dose and total ≥ fully-vaccinated are true whenever the
    right-hand side of their comparison (the first-dose count, the
    fully-vaccinated count) is unknown, and the mask
    first-dose ≥ fully-vaccinated is true whenever either side is unknown;
    when the total is unknown, each of the first two masks is true only if
    its right-hand side is unknown too. A row is kept exactly when it
    comes from the reporting channel, the three masks are true and its
    country is one of the values of the country table. *)
Theorem masks_when_unknown (r : row) :
  (PERSONS_VACCINATED_1PLUS_DOSE r = None → mask_1 r = true)
  ∧ (PERSONS_FULLY_VACCINATED r = None → mask_2 r = true)
  ∧ (PERSONS_VACCINATED_1PLUS_DOSE r = None
     ∨ PERSONS_FULLY_VACCINATED r = None → mask_3 r = true)
  ∧ (TOTAL_VACCINATIONS r = None →
     (mask_1 r = true ↔ PERSONS_VACCINATED_1PLUS_DOSE r = None)
     ∧ (mask_2 r = true ↔ PERSONS_FULLY_VACCINATED r = None))
  ∧ ∀ (WHO_COUNTRIES : gmap string string) (df : list row),
      r ∈ pipe_filter_entries WHO_COUNTRIES df
      ↔ r ∈ df ∧ DATA_SOURCE r = Some "REPORTING"
        ∧ mask_1 r = true ∧ mask_2 r = true ∧ mask_3 r = true
        ∧ ∃ c k, COUNTRY r = Some c ∧ WHO_COUNTRIES !! k = Some c.
Proof.
  split; [|split; [|split; [|split]]].
  - intros H. apply mask_1_true_iff. by left.
  - intros H. apply mask_2_true_iff. by left.
  - intros H. apply mask_3_true_iff. tauto.
  - intros Ht. rewrite mask_1_true_iff, mask_2_true_iff. split.
    + split; [|by left]. intros [?|(? & ? & ? & _)]; congruence.
    + split; [|by left]. intros [?|(? & ? & ? & _)]; congruence.
  - intros WHO_COUNTRIES df. apply elem_of_pipe_filter_entries.
Qed.

Lemma vaccines_used_nil (df : list row) :
  vaccine_lists df = [] → vaccines_used df = ∅.
Proof. unfold vaccines_used. by intros ->. Qed.

(** The unknown vaccines are exactly the tokens without an entry in the
    mapping. *)
Lemma elem_of_vaccines_unknown
    (WHO_VACCINES : gmap string string) (df : list row) (t : string) :
  t ∈ vaccines_used df ∖ dom WHO_VACCINES
  ↔ t ∈ vaccines_used df ∧ WHO_VACCINES !! t = None.
Proof. by rewrite elem_of_difference, not_elem_of_dom. Qed.

Lemma vaccines_unknown_nonempty
    (WHO_VACCINES : gmap string string) (df : list row) :
  vaccines_used df ∖ dom WHO_VACCINES ≠ ∅
  ↔ ∃ t, t ∈ vaccines_used df ∧ WHO_VACCINES !! t = None.
Proof.
  split.
  - intros H. apply set_choose_L in H as [t Ht].
    exists t. by apply elem_of_vaccines_unknown.
  - intros (t & Ht) Hempty.
    apply elem_of_vaccines_unknown in Ht. rewrite Hempty in Ht.
    by apply not_elem_of_empty in Ht.
Qed.

Lemma pipe_vaccine_checks_unknown
    (WHO_VACCINES : gmap string string) (df : list row) (U : gset string) :
  pipe_vaccine_checks WHO_VACCINES df = Raise (ValueError (UnknownVaccines U))
  ↔ U = vaccines_used df ∖ dom WHO_VACCINES ∧ U ≠ ∅.
Proof.
  unfold pipe_vaccine_checks.
  destruct (vaccine_lists df) as [|l ls] eqn:Hl.
  - split; [done|]. intros [-> Hne]. exfalso. apply Hne.
    rewrite (vaccines_used_nil df Hl). apply difference_disjoint_L.
    apply disjoint_empty_l.
  - simpl. case_bool_decide as Hd.
    + split; [done|]. intros [-> Hne]. done.
    + split.
      * intros [= <-]. done.
      * intros [-> _]. done.
Qed.

Lemma pipe_vaccine_checks_Ok
    (WHO_VACCINES : gmap string string) (df df' : list row) :
  pipe_vaccine_checks WHO_VACCINES df = Ok df'
  → df' = df ∧ ∀ t, t ∈ vaccines_used df → is_Some (WHO_VACCINES !! t).
Proof.
  unfold pipe_vaccine_checks.
  destruct (vaccine_lists df) as [|l ls] eqn:Hl; [done|]. simpl.
  case_bool_decide as Hd; [|done]. intros [= <-]. split; [done|].
  intros t Ht. apply elem_of_dom.
  destruct (decide (t ∈ dom WHO_VACCINES)) as [|Hn]; [done|].
  assert (t ∈ vaccines_used df ∖ dom WHO_VACCINES) as Hin
    by (by apply elem_of_difference).
  rewrite Hd in Hin. by apply not_elem_of_empty in Hin.
Qed.

(** The flag [only_2doses] is computed from the vaccines of the feed
    alone. *)
Lemma _map_vaccines_func_flag
    (WHO_VACCINES : gmap string string) (VACCINES_ONE_DOSE : list string)
    (r : row) (v : string) (flag : bool) :
  _map_vaccines_func WHO_VACCINES VACCINES_ONE_DOSE r = Ok (v, flag) →
  ∃ used, VACCINES_USED r = Some used
    ∧ flag = forallb (λ x, negb (bool_decide (x ∈ VACCINES_ONE_DOSE)))
                     (replace WHO_VACCINES <$> split "," used).
Proof.
  unfold _map_vaccines_func.
  destruct (VACCINES_USED r) as [used|]; [|done].
  intros [= _ <-]. by exists used.
Qed.

End WhoFacts.

(** ** France *)

Section FranceFacts.
Import France.

Lemma known_and_started_known (source : list Csv.row) :
  known_and_started
    (filter (λ r, Csv.vaccin r ∈ dom vaccine_mapping) source)
  = known_and_started source.
Proof.
  unfold known_and_started. rewrite list_filter_filter.
  apply list_filter_iff. tauto.
Qed.

(** Rows whose vaccine code is not a key of the mapping do not reach the
    two files and raise nothing. *)
Lemma main_drops_unknown (source : list Csv.row) :
  main (filter (λ r, Csv.vaccin r ∈ dom vaccine_mapping) source)
  = main source.
Proof. unfold main. by rewrite known_and_started_known. Qed.

Lemma main_cases (source : list Csv.row) :
  let df := known_and_started source in
  if bool_decide ((list_to_set (unique (Csv.vaccin <$> df)) : gset Z)
                  = dom vaccine_mapping)
  then main source
       = Ok (manufacturer (omap name_and_total df),
             aggregate (infer_fully_vaccinated <$> omap name_and_total df))
  else main source = Raise AssertionError.
Proof. unfold main. simpl. by case_bool_decide. Qed.

Lemma name_and_total_known (df : list Csv.row) :
  Forall (λ r, Csv.vaccin r ∈ dom vaccine_mapping) df →
  Forall2 (λ r x, name_and_total r = Some x) df (omap name_and_total df).
Proof.
  induction 1 as [|r l Hr Hl IH]; simpl; [constructor|].
  apply elem_of_dom in Hr as [name Hname].
  destruct (name_and_total r) as [x|] eqn:Hx.
  - by constructor.
  - unfold name_and_total in Hx. by rewrite Hname in Hx.
Qed.

Lemma known_and_started_Forall (source : list Csv.row) :
  Forall (λ r, Csv.vaccin r ∈ dom vaccine_mapping) (known_and_started source).
Proof.
  apply Forall_forall. intros r Hr. unfold known_and_started in Hr.
  by apply list_elem_of_filter in Hr as [[? _] _].
Qed.

(** The total of a row is the sum of its three dose counts. *)
Lemma name_and_total_total (r : Csv.row) (x : row) :
  name_and_total r = Some x →
  total_vaccinations x
  = add_na (add_na (Csv.n_cum_dose1 r) (Csv.n_cum_dose2 r)) (Csv.n_cum_dose3 r)
  ∧ people_vaccinated x = Csv.n_cum_dose1 r
  ∧ people_fully_vaccinated x = Csv.n_cum_dose2 r
  ∧ total_boosters x = Csv.n_cum_dose3 r
  ∧ date x = Csv.jour r
  ∧ vaccine_mapping !! Csv.vaccin r = Some (vaccine x).
Proof.
  unfold name_and_total.
  destruct (vaccine_mapping !! Csv.vaccin r) as [name|]; [|done].
  by intros [= <-].
Qed.

Lemma infer_fully_vaccinated_others (r : row) :
  vaccine (infer_fully_vaccinated r) = vaccine r
  ∧ date (infer_fully_vaccinated r) = date r
  ∧ people_vaccinated (infer_fully_vaccinated r) = people_vaccinated r
  ∧ total_boosters (infer_fully_vaccinated r) = total_boosters r
  ∧ total_vaccinations (infer_fully_vaccinated r) = total_vaccinations r.
Proof. unfold infer_fully_vaccinated. by case_bool_decide. Qed.

Lemma infer_fully_vaccinated_one_dose (r : row) :
  vaccine r ∈ one_dose_vaccines →
  people_fully_vaccinated (infer_fully_vaccinated r) = people_vaccinated r.
Proof. intros H. unfold infer_fully_vaccinated. by rewrite bool_decide_eq_true_2. Qed.

Lemma infer_fully_vaccinated_two_doses (r : row) :
  vaccine r ∉ one_dose_vaccines → infer_fully_vaccinated r = r.
Proof. intros H. unfold infer_fully_vaccinated. by rewrite bool_decide_eq_false_2. Qed.

Lemma filter_date_infer (d : string) (df : list row) :
  filter (λ r, date r = d) (infer_fully_vaccinated <$> df)
  = infer_fully_vaccinated <$> filter (λ r, date r = d) df.
Proof.
  induction df as [|r l IH]; [done|]. rewrite fmap_cons, !filter_cons.
  destruct (infer_fully_vaccinated_others r) as (_ & -> & _).
  destruct (decide (date r = d)); by rewrite IH.
Qed.

(** The total of a date is the sum of the totals of its rows, the rows
    without a total left out. *)
Lemma aggregate_total (df : list row) (s : series_row) :
  s ∈ aggregate (infer_fully_vaccinated <$> df) →
  s_total_vaccinations s
  = sum_skipna (total_vaccinations <$> filter (λ r, date r = s_date s) df).
Proof.
  unfold aggregate. intros (d & -> & _)%list_elem_of_fmap. simpl.
  rewrite filter_date_infer. f_equal. rewrite <- list_fmap_compose.
  apply list_fmap_ext. intros i r _. simpl.
  by destruct (infer_fully_vaccinated_others r) as (_ & _ & _ & _ & ->).
Qed.

End FranceFacts.

(** ** Hong Kong: the manufacturer file *)

Section HongKongFacts.
Import HongKong.

Lemma elem_of_stack (r : row) (m : manufacturer_row) :
  m ∈ stack r
  ↔ m_location m = location r ∧ m_date m = date r
    ∧ (m_vaccine m = "Pfizer/BioNTech"
         ∧ total_pfizer r = Some (m_total_vaccinations m)
       ∨ m_vaccine m = "Sinovac"
         ∧ total_sinovac r = Some (m_total_vaccinations m)).
Proof.
  unfold stack. rewrite list_elem_of_omap. split.
  - intros ([name value] & Hin & Hm).
    destruct value as [v|]; simplify_eq/=.
    apply elem_of_cons in Hin as [[= <- <-]|Hin]; [tauto|].
    apply list_elem_of_singleton in Hin as [= <- <-]. tauto.
  - destruct m as [l d n v]. simpl.
    intros (-> & -> & [[-> Hv]|[-> Hv]]).
    + exists ("Pfizer/BioNTech", total_pfizer r). split; [by left|].
      by rewrite Hv.
    + exists ("Sinovac", total_sinovac r). split; [by right; left|].
      by rewrite Hv.
Qed.

Lemma length_stack (r : row) :
  length (stack r)
  = length (filter (λ c, c ≠ None) [total_pfizer r; total_sinovac r]).
Proof.
  unfold stack. by destruct (total_pfizer r), (total_sinovac r).
Qed.

End HongKongFacts.

(** ** Peru: the age table *)

Section PeruAgeFacts.
Import Peru.

Lemma above_100_iff (x : option Q) :
  above_100 x = true ↔ ∃ q, x = Some q ∧ (100 # 1 < q)%Q.
Proof.
  unfold above_100. destruct x as [q|].
  - rewrite negb_true_iff, <- not_true_iff_false, Qle_bool_iff. split.
    + intros H. exists q. split; [done|]. by apply Qnot_le_lt.
    + intros (? & [= <-] & H). by apply Qlt_not_le.
  - split; [done|]. by intros (? & ? & _).
Qed.

Lemma count_above_100_zero (col : list (option Q)) :
  (count_above_100 col =? 0)%nat = true
  ↔ Forall (λ x, above_100 x = false) col.
Proof.
  unfold count_above_100. rewrite Nat.eqb_eq, length_zero_iff_nil.
  induction col as [|x l IH]; [by split|].
  rewrite filter_cons, Forall_cons.
  destruct (decide (above_100 x = true)) as [Hx|Hx].
  - split; [done|]. intros [? _]. congruence.
  - rewrite IH. apply not_true_is_false in Hx. tauto.
Qed.

Lemma locations_all_Peru (df : list Age.row) :
  forallb (λ l, String.eqb l "Peru") (unique (Age.location <$> df)) = true
  ↔ ∀ r, r ∈ df → Age.location r = "Peru".
Proof.
  rewrite forallb_forall. split.
  - intros H r Hr. apply String.eqb_eq, H, list_elem_of_In.
    apply elem_of_unique, list_elem_of_fmap. eauto.
  - intros H l Hl%list_elem_of_In.
    apply (proj1 (elem_of_unique _ _)) in Hl.
    apply list_elem_of_fmap in Hl as (r & -> & Hr).
    apply String.eqb_eq. by apply H.
Qed.

(** The checks of the age table pass exactly when no percentage is above
    100, the table has a row, its Sundays lie between 2021-02-08 and
    today, and every location is Peru. *)
Lemma pipe_age_checks_Ok_iff
    (today : string) (df df' : list Age.row) :
  pipe_age_checks today df = Ok df'
  ↔ df' = df
    ∧ Forall (λ r, above_100 (Age.people_vaccinated_per_hundred r) = false
                   ∧ above_100 (Age.people_fully_vaccinated_per_hundred r)
                     = false) df
    ∧ (∃ first last, str_min (Age.sunday <$> df) = Some first
         ∧ str_max (Age.sunday <$> df) = Some last
         ∧ str_lt first "2021-02-08" = false ∧ str_gt last today = false)
    ∧ ∀ r, r ∈ df → Age.location r = "Peru".
Proof.
  assert (∀ f : Age.row → option Q,
            (count_above_100 (f <$> df) =? 0)%nat = true
            ↔ Forall (λ r, above_100 (f r) = false) df) as Hcount.
  { intros f. by rewrite count_above_100_zero, Forall_fmap. }
  unfold pipe_age_checks. split.
  - destruct (count_above_100 (Age.people_vaccinated_per_hundred <$> df)
              =? 0)%nat eqn:E1; simpl; [|done].
    destruct (count_above_100
                (Age.people_fully_vaccinated_per_hundred <$> df)
              =? 0)%nat eqn:E2; simpl; [|done].
    destruct (str_min _) as [first|], (str_max _) as [last|]; try done.
    destruct (str_lt first "2021-02-08") eqn:E3; simpl; [done|].
    destruct (str_gt last today) eqn:E4; simpl; [done|].
    destruct (forallb _ _) eqn:E5; simpl; [|done].
    intros [= <-]. split; [done|]. split; [|split].
    + apply Hcount in E1, E2. rewrite Forall_forall in E1, E2.
      apply Forall_forall. intros r Hr. split; auto.
    + by exists first, last.
    + by apply locations_all_Peru.
  - intros (-> & Hall & (first & last & -> & -> & -> & ->) & Hloc).
    apply Forall_and in Hall as [H1 H2].
    apply Hcount in H1, H2. rewrite H1, H2. simpl.
    apply locations_all_Peru in Hloc. by rewrite Hloc.
Qed.

Lemma pipe_age_checks_above_100 (today : string) (df : list Age.row) :
  (∃ field,
     pipe_age_checks today df = Raise (ValueError (PerHundredAbove100 field)))
  ↔ ∃ r, r ∈ df
      ∧ (above_100 (Age.people_vaccinated_per_hundred r) = true
         ∨ above_100 (Age.people_fully_vaccinated_per_hundred r) = true).
Proof.
  assert (∀ col : list (option Q),
            (count_above_100 col =? 0)%nat = false
            ↔ ∃ x, x ∈ col ∧ above_100 x = true) as Hcount.
  { intros col. rewrite <- not_true_iff_false, count_above_100_zero. split.
    - intros H. apply not_Forall_Exists in H; [|apply _].
      apply Exists_exists in H as (x & Hx & Hn). exists x. split; [done|].
      simpl in Hn. by destruct (above_100 x).
    - intros (x & Hx & Ht) Hall. rewrite Forall_forall in Hall.
      specialize (Hall x Hx). congruence. }
  unfold pipe_age_checks.
  destruct (count_above_100 (Age.people_vaccinated_per_hundred <$> df) =? 0)%nat
    eqn:E1; simpl.
  - destruct (count_above_100
                (Age.people_fully_vaccinated_per_hundred <$> df) =? 0)%nat
      eqn:E2; simpl.
    + split.
      * intros [field H]. repeat case_match; done.
      * intros (r & Hr & [H|H]); exfalso.
        -- apply count_above_100_zero in E1. rewrite Forall_fmap in E1.
           rewrite Forall_forall in E1. specialize (E1 r Hr). simpl in E1.
           congruence.
        -- apply count_above_100_zero in E2. rewrite Forall_fmap in E2.
           rewrite Forall_forall in E2. specialize (E2 r Hr). simpl in E2.
           congruence.
    + split; [|by eauto]. intros _.
      apply Hcount in E2 as (x & (r & -> & Hr)%list_elem_of_fmap & Hx). eauto.
  - split; [|by eauto]. intros _.
    apply Hcount in E1 as (x & (r & -> & Hr)%list_elem_of_fmap & Hx). eauto.
Qed.

End PeruAgeFacts.

(** ** Totals derived from dose counts *)

Lemma jordan_total
    (enrich_data : gmap string scalar → string → scalar → gmap string scalar)
    (ds : gmap string scalar) (a b : Z) :
  (∀ ds k v, ds !! k = None → enrich_data ds k v = <[k:=v]> ds) →
  ds !! "people_vaccinated" = Some (Int a) →
  ds !! "people_fully_vaccinated" = Some (Int b) →
  ds !! "total_vaccinations" = None →
  ∃ ds', Jordan.pipe_vaccinations enrich_data ds = Ok ds'
    ∧ ds' !! "total_vaccinations" = Some (Int (a + b))
    ∧ ds' !! "people_vaccinated" = Some (Int a)
    ∧ ds' !! "people_fully_vaccinated" = Some (Int b).
Proof.
  intros Henrich Ha Hb Ht. unfold Jordan.pipe_vaccinations, getattr.
  rewrite Ha, Hb. simpl. eexists. split; [done|].
  rewrite (Henrich _ _ _ Ht).
  rewrite lookup_insert_eq, !lookup_insert_ne by done. done.
Qed.

Lemma peru_total (f f' : Peru.frame) :
  Peru.pipe_total_vaccinations f = Ok f' →
  ∃ a b c tot,
    Peru.people_vaccinated f' = Some a
    ∧ Peru.people_fully_vaccinated f' = Some b
    ∧ Peru.total_boosters f' = Some c
    ∧ Peru.total_vaccinations f' = Some tot
    ∧ Peru.f_doses f' = Peru.f_doses f
    ∧ Peru.f_date f' = Peru.f_date f
    ∧ ∀ i t, tot !! i = Some t
        ↔ ∃ x y z, a !! i = Some x ∧ b !! i = Some y ∧ c !! i = Some z
                   ∧ t = x + y + z.
Proof.
  unfold Peru.pipe_total_vaccinations, Peru.attribute.
  destruct (Peru.people_vaccinated f) as [a|] eqn:Ha; [|done].
  destruct (Peru.people_fully_vaccinated f) as [b|] eqn:Hb; [|done].
  destruct (Peru.total_boosters f) as [c|] eqn:Hc; [|done].
  simpl. intros [= <-]. exists a, b, c. eexists.
  repeat split; try done.
  - intros (xy & z & -> & (x & y & -> & Hx & Hy)%lookup_zip_with_Some & Hz)
      %lookup_zip_with_Some.
    by exists x, y, z.
  - intros (x & y & z & Hx & Hy & Hz & ->).
    apply lookup_zip_with_Some. exists (x + y), z. split; [done|].
    split; [|done]. apply lookup_zip_with_Some. by exists x, y.
Qed.

Section JapanFacts.
Import Japan.

Lemma connect_parse_data_Ok_iff
    (today : string) (df : list (list (option Z))) (ds : gmap string scalar) :
  connect_parse_data today df = Ok ds
  ↔ shape_3_7 df = true
    ∧ ∃ t p f, value df 0 = Some t ∧ value df 1 = Some p
        ∧ value df 2 = Some f ∧ t = p + f
        ∧ ds = {[ "total_vaccinations" := Int t;
                  "people_vaccinated" := Int p;
                  "people_fully_vaccinated" := Int f;
                  "date" := Str today ]}.
Proof.
  unfold connect_parse_data, assert.
  destruct (shape_3_7 df); simpl; [|by split; [|intros [? _]]].
  destruct (value df 0) as [t|], (value df 1) as [p|],
    (value df 2) as [f|]; simpl;
    try (split; [done|]; by intros (_ & ? & ? & ? & ? & ? & ? & _)).
  destruct (t =? p + f) eqn:E; simpl.
  - apply Z.eqb_eq in E. split.
    + intros [= <-]. split; [done|]. by exists t, p, f.
    + intros (_ & ? & ? & ? & [= <-] & [= <-] & [= <-] & _ & ->). done.
  - apply Z.eqb_neq in E. split; [done|].
    intros (_ & ? & ? & ? & [= <-] & [= <-] & [= <-] & ? & _). done.
Qed.

Lemma connect_parse_data_cases
    (today : string) (df : list (list (option Z))) :
  connect_parse_data today df = Raise AssertionError
  ∨ ∃ ds, connect_parse_data today df = Ok ds.
Proof.
  unfold connect_parse_data, assert.
  destruct (shape_3_7 df); simpl; [|by left].
  destruct (eq_na _ _); simpl; [|by left].
  repeat case_match; eauto.
Qed.
End JapanFacts.

Section TaiwanFacts.
Import Taiwan.

Lemma _parse_stats_total
    (clean_count : option string → result Z)
    (df : list (list (option string))) (stats : gmap string scalar) :
  _parse_stats clean_count df = Ok stats →
  ∃ num_dose1 num_dose2,
    (last_value df "第 1劑" ≫= clean_count) = Ok num_dose1
    ∧ (last_value df "第 2劑" ≫= clean_count) = Ok num_dose2
    ∧ stats !! "people_vaccinated" = Some (Int num_dose1)
    ∧ stats !! "total_vaccinations" = Some (Int (num_dose1 + num_dose2)).
Proof.
  unfold _parse_stats.
  destruct (format_has_changed df) as [[|]|]; simpl; try done.
  destruct (last_value df "第 1劑") as [c1|]; simpl; [|done].
  destruct (clean_count c1) as [n1|]; simpl; [|done].
  destruct (last_value df "第 2劑") as [c2|]; simpl; [|done].
  destruct (clean_count c2) as [n2|]; simpl; [|done].
  intros [= <-]. by exists n1, n2.
Qed.
End TaiwanFacts.

(** ** C3: unknown vaccines *)

Lemma peru_pipe_checks_unknown (df : list Peru.row) (U : gset string) :
  Peru.pipe_checks df = Raise (ValueError (UnknownVaccines U))
  ↔ U = list_to_set (unique (Peru.vaccine <$> df)) ∖ dom Peru.vaccine_mapping
    ∧ U ≠ ∅.
Proof.
  unfold Peru.pipe_checks. case_bool_decide as Hu; simpl.
  - case_bool_decide; simpl; (split; [done|]); by intros [-> ?].
  - split.
    + by intros [= <-].
    + by intros [-> _].
Qed.

Lemma elem_of_concat {A : Type} (x : A) (ls : list (list A)) :
  x ∈ concat ls ↔ ∃ l, l ∈ ls ∧ x ∈ l.
Proof.
  induction ls as [|l ls IH]; simpl.
  - split; [by intros ?%elem_of_nil|]. by intros (? & ?%elem_of_nil & _).
  - rewrite elem_of_app, IH. split.
    + intros [?|(l' & ? & ?)]; [exists l|exists l']; split; try done;
        [by left|by right].
    + intros (l' & [->|?]%elem_of_cons & ?); [by left|right; eauto].
Qed.

(** The feed has no token at all exactly when no row lists vaccines. *)
Lemma vaccine_lists_nil (df : list Who.row) :
  Who.vaccine_lists df = [] ↔ ∀ r, r ∈ df → Who.VACCINES_USED r = None.
Proof.
  unfold Who.vaccine_lists. split.
  - intros H%fmap_nil_inv r Hr.
    destruct (Who.VACCINES_USED r) as [u|] eqn:E; [|done].
    assert (u ∈ omap Who.VACCINES_USED df) as Hu
      by (apply list_elem_of_omap; eauto).
    rewrite H in Hu. by apply elem_of_nil in Hu.
  - intros H. induction df as [|r l IH]; [done|]. simpl.
    rewrite (H r) by left. apply IH. intros x Hx. apply H. by right.
Qed.

(** The tokens of the feed are the pieces, stripped, of the lists of its
    rows. *)
Lemma elem_of_vaccines_used (df : list Who.row) (t : string) :
  t ∈ Who.vaccines_used df
  ↔ ∃ r used x, r ∈ df ∧ Who.VACCINES_USED r = Some used
        ∧ x ∈ split "," used ∧ t = strip x.
Proof.
  unfold Who.vaccines_used, Who.vaccine_lists.
  rewrite elem_of_list_to_set, elem_of_concat. split.
  - intros (l & (used & -> & (r & Hr & Hu)%list_elem_of_omap)%list_elem_of_fmap
              & (x & -> & Hx)%list_elem_of_fmap).
    by exists r, used, x.
  - intros (r & used & x & Hr & Hu & Hx & ->).
    exists (strip <$> split "," used). split.
    + apply list_elem_of_fmap. exists used. split; [done|].
      apply list_elem_of_omap. eauto.
    + apply list_elem_of_fmap. eauto.
Qed.

(** The WHO check passes exactly when some row lists vaccines and every
    token has an entry in the mapping, and raises [TypeError] exactly
    when no row lists vaccines. *)
Lemma pipe_vaccine_checks_Ok_iff
    (WHO_VACCINES : gmap string string) (df df' : list Who.row) :
  Who.pipe_vaccine_checks WHO_VACCINES df = Ok df'
  ↔ df' = df
    ∧ (∃ r, r ∈ df ∧ is_Some (Who.VACCINES_USED r))
    ∧ ∀ t, t ∈ Who.vaccines_used df → is_Some (WHO_VACCINES !! t).
Proof.
  split.
  - intros H. pose proof (pipe_vaccine_checks_Ok _ _ _ H) as [-> Hknown].
    split; [done|]. split; [|done].
    unfold Who.pipe_vaccine_checks in H.
    destruct (Who.vaccine_lists df) as [|l ls] eqn:Hl; [done|].
    assert (¬ ∀ r, r ∈ df → Who.VACCINES_USED r = None) as Hsome.
    { intros Hnone%vaccine_lists_nil. congruence. }
    destruct (decide (Exists (λ r, is_Some (Who.VACCINES_USED r)) df))
      as [(r & Hr & Hs)%Exists_exists|Hno]; [by eauto|].
    exfalso. apply Hsome. intros r Hr.
    destruct (Who.VACCINES_USED r) eqn:E; [|done].
    exfalso. apply Hno, Exists_exists. exists r. rewrite E. eauto.
  - intros (-> & (r & Hr & Hs) & Hknown). unfold Who.pipe_vaccine_checks.
    destruct (Who.vaccine_lists df) as [|l ls] eqn:Hl.
    { rewrite (proj1 (vaccine_lists_nil df) Hl r Hr) in Hs. by destruct Hs. }
    simpl. rewrite bool_decide_eq_true_2; [done|].
    apply set_eq. intros t. split; [|by intros ?%not_elem_of_empty].
    intros [Ht Hn%not_elem_of_dom]%elem_of_difference.
    destruct (Hknown t Ht) as [? ?]. congruence.
Qed.

Lemma pipe_vaccine_checks_TypeError
    (WHO_VACCINES : gmap string string) (df : list Who.row) :
  Who.pipe_vaccine_checks WHO_VACCINES df = Raise TypeError
  ↔ ∀ r, r ∈ df → Who.VACCINES_USED r = None.
Proof.
  rewrite <- vaccine_lists_nil. unfold Who.pipe_vaccine_checks.
  destruct (Who.vaccine_lists df) as [|l ls]; [done|]. simpl.
  case_bool_decide; by split.
Qed.

(** The two sets that the Peru check looks at. *)
Lemma peru_elem_of_unknown_vaccines (df : list Peru.row) (t : string) :
  t ∈ (list_to_set (unique (Peru.vaccine <$> df)) : gset string)
        ∖ dom Peru.vaccine_mapping
  ↔ (∃ r, r ∈ df ∧ Peru.vaccine r = t) ∧ Peru.vaccine_mapping !! t = None.
Proof.
  rewrite elem_of_difference, not_elem_of_dom, elem_of_list_to_set,
    elem_of_unique, list_elem_of_fmap.
  split; intros [(r & Hr & Ht) Hn]; (split; [|done]); by exists r.
Qed.

Lemma peru_elem_of_dose_num_wrong (df : list Peru.row) (d : Z) :
  d ∈ (list_to_set (Peru.dosis <$> df) : gset Z) ∖ {[ 1; 2; 3 ]}
  ↔ (∃ r, r ∈ df ∧ Peru.dosis r = d) ∧ d ≠ 1 ∧ d ≠ 2 ∧ d ≠ 3.
Proof.
  rewrite elem_of_difference, elem_of_list_to_set, list_elem_of_fmap,
    !elem_of_union, !elem_of_singleton.
  split.
  - intros [(r & -> & Hr) Hn]. split; [by exists r|]. lia.
  - intros [(r & Hr & <-) Hn]. split; [by exists r|]. lia.
Qed.

Lemma peru_unknown_vaccines_empty (df : list Peru.row) :
  (list_to_set (unique (Peru.vaccine <$> df)) : gset string)
    ∖ dom Peru.vaccine_mapping = ∅
  ↔ ∀ r, r ∈ df → is_Some (Peru.vaccine_mapping !! Peru.vaccine r).
Proof.
  split.
  - intros Hempty r Hr.
    destruct (Peru.vaccine_mapping !! Peru.vaccine r) eqn:E; [by eauto|].
    assert (Peru.vaccine r
            ∈ (list_to_set (unique (Peru.vaccine <$> df)) : gset string)
                ∖ dom Peru.vaccine_mapping) as Hin
      by (apply peru_elem_of_unknown_vaccines; eauto).
    rewrite Hempty in Hin. by apply not_elem_of_empty in Hin.
  - intros Hall. apply set_eq. intros t.
    split; [|by intros ?%not_elem_of_empty].
    intros [(r & Hr & <-) Hn]%peru_elem_of_unknown_vaccines.
    destruct (Hall r Hr) as [? ?]. congruence.
Qed.

Lemma peru_dose_num_wrong_empty (df : list Peru.row) :
  (list_to_set (Peru.dosis <$> df) : gset Z) ∖ {[ 1; 2; 3 ]} = ∅
  ↔ ∀ r, r ∈ df → Peru.dosis r = 1 ∨ Peru.dosis r = 2 ∨ Peru.dosis r = 3.
Proof.
  split.
  - intros Hempty r Hr.
    destruct (decide (Peru.dosis r = 1)) as [|H1]; [tauto|].
    destruct (decide (Peru.dosis r = 2)) as [|H2]; [tauto|].
    destruct (decide (Peru.dosis r = 3)) as [|H3]; [tauto|].
    assert (Peru.dosis r
            ∈ (list_to_set (Peru.dosis <$> df) : gset Z) ∖ {[ 1; 2; 3 ]})
      as Hin by (apply peru_elem_of_dose_num_wrong; split; [by eauto|done]).
    rewrite Hempty in Hin. by apply not_elem_of_empty in Hin.
  - intros Hall. apply set_eq. intros d.
    split; [|by intros ?%not_elem_of_empty].
    intros [(r & Hr & <-) Hn]%peru_elem_of_dose_num_wrong.
    destruct (Hall r Hr) as [?|[?|?]]; lia.
Qed.

(** The Peru check passes exactly when every vaccine has an entry in the
    mapping and every dose number is 1, 2 or 3; with the vaccines known,
    it raises for the dose numbers that are none of these. *)
Lemma peru_pipe_checks_passes (df df' : list Peru.row) :
  Peru.pipe_checks df = Ok df'
  ↔ df' = df
    ∧ (∀ r, r ∈ df → is_Some (Peru.vaccine_mapping !! Peru.vaccine r))
    ∧ ∀ r, r ∈ df →
        Peru.dosis r = 1 ∨ Peru.dosis r = 2 ∨ Peru.dosis r = 3.
Proof.
  rewrite <- peru_unknown_vaccines_empty, <- peru_dose_num_wrong_empty.
  unfold Peru.pipe_checks.
  case_bool_decide as Hv; simpl; [|by split; [|intros (_ & ? & _)]].
  case_bool_decide as Hd; simpl; [|by split; [|intros (_ & _ & ?)]].
  split; [by intros [= <-]|by intros (-> & _)].
Qed.

Lemma peru_pipe_checks_dose (df : list Peru.row) (D : gset Z) :
  Peru.pipe_checks df = Raise (ValueError (InvalidDoseNumber D))
  ↔ (∀ r, r ∈ df → is_Some (Peru.vaccine_mapping !! Peru.vaccine r))
    ∧ D = list_to_set (Peru.dosis <$> df) ∖ {[ 1; 2; 3 ]}
    ∧ D ≠ ∅.
Proof.
  rewrite <- peru_unknown_vaccines_empty.
  unfold Peru.pipe_checks.
  case_bool_decide as Hv; simpl; [|by split; [|intros (? & _)]].
  case_bool_decide as Hd; simpl.
  - split; [done|]. by intros (_ & -> & ?).
  - split; [by intros [= <-]|by intros (_ & -> & _)].
Qed.

(** The example of the resolver: with the mapping of PFIZER alone, the
    input PFIZER, MODERNA fails and names MODERNA. *)
Lemma pipe_vaccine_checks_example :
  Who.pipe_vaccine_checks Samples.pfizer_only [Samples.pfizer_and_moderna]
  = Raise (ValueError (UnknownVaccines {[ "MODERNA" ]})).
Proof.
  by vm_compute.
Qed.

(** The French source of one day with a fifth vaccine: nothing is raised,
    and the 7 first doses of the vaccine that the mapping does not know
    are in neither file. *)
Lemma france_drops_unknown_vaccine :
  (∃ r, r ∈ Samples.france_source
        ∧ France.vaccine_mapping !! France.Csv.vaccin r = None
        ∧ France.Csv.n_cum_dose1 r = Some 7)
  ∧ ∃ files, France.main Samples.france_source = Ok files
      ∧ France.m_vaccine <$> files.1
        = ["Pfizer/BioNTech"; "Moderna"; "Oxford/AstraZeneca";
           "Johnson&Johnson"]
      ∧ France.s_people_vaccinated <$> files.2 = [280].
Proof.
  split.
  - exists (Samples.france_row 5 (Some 7) (Some 2) (Some 0)).
    split; [|by vm_compute].
    unfold Samples.france_source. rewrite !elem_of_cons. tauto.
  - eexists. split; [by vm_compute|]. by vm_compute.
Qed.

(** C3 (amended). In the WHO feed and in the Peru batch, vaccine taxonomy
    resolution fails with the unknown-vaccines [ValueError], carrying
    exactly the tokens that have no entry in the mapping, if and only if
    at least one token of the input is absent from the mapping. When no
    token is absent, the WHO check passes the data on unchanged if some
    row lists vaccines and raises [TypeError] if no row does; the Peru
    check passes the data on unchanged if every dose number is 1, 2 or 3
    and otherwise raises the [ValueError] of the dose numbers, carrying
    the dose numbers that are none of these. The France batch raises no
    such error: the rows whose vaccine code is not a key of its mapping
    are left out of both files, and [main] fails, by its assertion, only
    when the codes left are not all the codes of the mapping. *)
Theorem unknown_vaccines_rejected :
  (∀ (WHO_VACCINES : gmap string string) (df : list Who.row),
     (∀ U, Who.pipe_vaccine_checks WHO_VACCINES df
             = Raise (ValueError (UnknownVaccines U))
           ↔ U = Who.vaccines_used df ∖ dom WHO_VACCINES ∧ U ≠ ∅)
     ∧ (∀ t, t ∈ Who.vaccines_used df ∖ dom WHO_VACCINES
             ↔ t ∈ Who.vaccines_used df ∧ WHO_VACCINES !! t = None)
     ∧ (∀ t, t ∈ Who.vaccines_used df
             ↔ ∃ r used x, r ∈ df ∧ Who.VACCINES_USED r = Some used
                   ∧ x ∈ split "," used ∧ t = strip x)
     ∧ ((∃ U, Who.pipe_vaccine_checks WHO_VACCINES df
                = Raise (ValueError (UnknownVaccines U)))
        ↔ ∃ t, t ∈ Who.vaccines_used df ∧ WHO_VACCINES !! t = None)
     ∧ (∀ df', Who.pipe_vaccine_checks WHO_VACCINES df = Ok df'
               ↔ df' = df
                 ∧ (∃ r, r ∈ df ∧ is_Some (Who.VACCINES_USED r))
                 ∧ ∀ t, t ∈ Who.vaccines_used df →
                        is_Some (WHO_VACCINES !! t))
     ∧ (Who.pipe_vaccine_checks WHO_VACCINES df = Raise TypeError
        ↔ ∀ r, r ∈ df → Who.VACCINES_USED r = None))
  ∧ (∀ (df : list Peru.row),
       (∀ U, Peru.pipe_checks df = Raise (ValueError (UnknownVaccines U))
             ↔ U = list_to_set (unique (Peru.vaccine <$> df))
                     ∖ dom Peru.vaccine_mapping
               ∧ U ≠ ∅)
       ∧ (∀ t, t ∈ (list_to_set (unique (Peru.vaccine <$> df)) : gset string)
                     ∖ dom Peru.vaccine_mapping
               ↔ (∃ r, r ∈ df ∧ Peru.vaccine r = t)
                 ∧ Peru.vaccine_mapping !! t = None)
       ∧ ((∃ U, Peru.pipe_checks df = Raise (ValueError (UnknownVaccines U)))
          ↔ ∃ r, r ∈ df ∧ Peru.vaccine_mapping !! Peru.vaccine r = None)
       ∧ (∀ df', Peru.pipe_checks df = Ok df'
                 ↔ df' = df
                   ∧ (∀ r, r ∈ df →
                        is_Some (Peru.vaccine_mapping !! Peru.vaccine r))
                   ∧ ∀ r, r ∈ df →
                       Peru.dosis r = 1 ∨ Peru.dosis r = 2 ∨ Peru.dosis r = 3)
       ∧ (∀ D, Peru.pipe_checks df = Raise (ValueError (InvalidDoseNumber D))
               ↔ (∀ r, r ∈ df →
                    is_Some (Peru.vaccine_mapping !! Peru.vaccine r))
                 ∧ D = list_to_set (Peru.dosis <$> df) ∖ {[ 1; 2; 3 ]}
                 ∧ D ≠ ∅)
       ∧ (∀ d, d ∈ (list_to_set (Peru.dosis <$> df) : gset Z) ∖ {[ 1; 2; 3 ]}
               ↔ (∃ r, r ∈ df ∧ Peru.dosis r = d)
                 ∧ d ≠ 1 ∧ d ≠ 2 ∧ d ≠ 3))
  ∧ (∀ (source : list France.Csv.row),
       France.main
         (filter (λ r, France.Csv.vaccin r ∈ dom France.vaccine_mapping)
                 source)
       = France.main source
       ∧ ((∃ files, France.main source = Ok files)
          ∨ France.main source = Raise AssertionError)
       ∧ (France.main source = Raise AssertionError
          ↔ (list_to_set
               (unique (France.Csv.vaccin <$> France.known_and_started source))
             : gset Z) ≠ dom France.vaccine_mapping)).
Proof.
  split; [|split].
  - intros WHO_VACCINES df. split; [|split; [|split; [|split; [|split]]]].
    + intros U. apply pipe_vaccine_checks_unknown.
    + intros t. apply elem_of_vaccines_unknown.
    + intros t. apply elem_of_vaccines_used.
    + rewrite <- vaccines_unknown_nonempty. split.
      * intros [U [-> HU]%pipe_vaccine_checks_unknown]. done.
      * intros Hne. eexists. by apply pipe_vaccine_checks_unknown.
    + intros df'. apply pipe_vaccine_checks_Ok_iff.
    + apply pipe_vaccine_checks_TypeError.
  - intros df. split; [|split; [|split; [|split; [|split]]]].
    + intros U. apply peru_pipe_checks_unknown.
    + intros t. apply peru_elem_of_unknown_vaccines.
    + split.
      * intros [U [-> HU]%peru_pipe_checks_unknown].
        apply set_choose_L in HU as [t Ht].
        apply peru_elem_of_unknown_vaccines in Ht as [(r & Hr & <-) Hn].
        by exists r.
      * intros (r & Hr & Hn). eexists. apply peru_pipe_checks_unknown.
        split; [done|]. intros Hempty.
        destruct (proj1 (peru_unknown_vaccines_empty df) Hempty r Hr)
          as [? ?].
        congruence.
    + intros df'. apply peru_pipe_checks_passes.
    + intros D. apply peru_pipe_checks_dose.
    + intros d. apply peru_elem_of_dose_num_wrong.
  - intros source. split; [apply main_drops_unknown|].
    pose proof (main_cases source) as H. simpl in H.
    case_bool_decide as Hd.
    + split; [left; eauto|]. rewrite H. split; [done|]. by intros ?.
    + split; [by right|]. by split.
Qed.

(** ** C4: the masks on unknown counts *)

(** The total of the row is unknown and its first doses are known: the
    first mask is false, and the row is dropped. *)
Lemma mask_1_false_when_total_unknown :
  Who.TOTAL_VACCINATIONS Samples.unknown_total = None
  ∧ Who.mask_1 Samples.unknown_total = false
  ∧ Who.mask_2 Samples.unknown_total = true
  ∧ Who.mask_3 Samples.unknown_total = true
  ∧ Who.pipe_filter_entries Samples.who_countries [Samples.unknown_total] = [].
Proof. repeat split; by vm_compute. Qed.

(** The mask example: 50 doses in total for 80 first doses; the other two
    masks pass and the row is dropped. *)
Lemma more_people_than_doses_dropped :
  Who.mask_1 Samples.more_people_than_doses = false
  ∧ Who.mask_2 Samples.more_people_than_doses = true
  ∧ Who.mask_3 Samples.more_people_than_doses = true
  ∧ Who.pipe_filter_entries Samples.who_countries
      [Samples.more_people_than_doses] = [].
Proof. repeat split; by vm_compute. Qed.

(** ** C5: the flag [only_2doses] and the additional vaccines *)

(** C5. For the row of Gambia, whose feed lists Covishield only,
    [_map_vaccines_func] returns the vaccines with Johnson&Johnson added,
    and the flag [only_2doses] set, although Johnson&Johnson is a one-dose
    vaccine: the flag is computed before the additional vaccines are
    added, from the list of the feed. *)
Theorem only_2doses_ignores_additional_vaccines :
  Who._map_vaccines_func Samples.who_vaccines Samples.vaccines_one_dose
    Samples.gambia
  = Ok ("Johnson&Johnson, Oxford/AstraZeneca", true)
  ∧ Who.ADDITIONAL_VACCINES_USED !! "Gambia" = Some ["Johnson&Johnson"]
  ∧ "Johnson&Johnson" ∈ Samples.vaccines_one_dose.
Proof.
  split; [by vm_compute|]. split; [by vm_compute|].
  unfold Samples.vaccines_one_dose. by left.
Qed.

(** ** C8: the shape of the feed *)

(** A feed without any row, and a feed of one row whose date of update is
    blank, are rejected, although neither is too long and no country has
    two dates. *)
Lemma feed_without_date_rejected :
  Who.pipe_checks [] = Raise (ValueError SeveralDateUpdates)
  ∧ Who.pipe_checks [Samples.undated] = Raise (ValueError SeveralDateUpdates)
  ∧ ¬ (300 < length [Samples.undated])%nat
  ∧ ¬ ∃ c, (1 < length (Who.reporting_dates [Samples.undated] c))%nat.
Proof.
  split; [by vm_compute|]. split; [by vm_compute|]. split; [simpl; lia|].
  intros [c Hc]. unfold Who.reporting_dates in Hc.
  rewrite filter_cons, filter_nil in Hc.
  destruct (decide _); simpl in Hc; lia.
Qed.

(** ** C6: the manufacturer file of Hong Kong *)

(** The row of 100 doses of one vaccine and 0 of the other gives two
    records, one of them for the 0. *)
Lemma zero_is_emitted :
  HongKong.manufacturer_pipeline (HongKong.pipeline [Samples.hong_kong_day])
  = [ {| HongKong.m_location := "Hong Kong";
         HongKong.m_date := "2021-03-01";
         HongKong.m_vaccine := "Pfizer/BioNTech";
         HongKong.m_total_vaccinations := 100 |};
      {| HongKong.m_location := "Hong Kong";
         HongKong.m_date := "2021-03-01";
         HongKong.m_vaccine := "Sinovac";
         HongKong.m_total_vaccinations := 0 |} ].
Proof. by vm_compute. Qed.

(** C6 (amended). The manufacturer breakdown of Hong Kong emits no record
    for a (manufacturer, date) cell whose value is missing: for every row
    of the wide table the output has exactly one record per manufacturer
    whose value is present, carrying the location, the date and that
    value, be it zero. *)
Theorem manufacturer_records_of_present_values
    (df : list HongKong.row) (m : HongKong.manufacturer_row) :
  (m ∈ HongKong.manufacturer_pipeline df
   ↔ ∃ r, r ∈ df
       ∧ HongKong.m_location m = HongKong.location r
       ∧ HongKong.m_date m = HongKong.date r
       ∧ (HongKong.m_vaccine m = "Pfizer/BioNTech"
            ∧ HongKong.total_pfizer r = Some (HongKong.m_total_vaccinations m)
          ∨ HongKong.m_vaccine m = "Sinovac"
            ∧ HongKong.total_sinovac r
              = Some (HongKong.m_total_vaccinations m)))
  ∧ length (HongKong.manufacturer_pipeline df)
    = length (filter (λ c, c ≠ None)
                (df ≫= λ r, [HongKong.total_pfizer r; HongKong.total_sinovac r])).
Proof.
  split.
  - unfold HongKong.manufacturer_pipeline. rewrite list_elem_of_bind. split.
    + intros (r & Hm%elem_of_stack & Hr). eauto.
    + intros (r & Hr & Hm). exists r. split; [|done]. by apply elem_of_stack.
  - unfold HongKong.manufacturer_pipeline.
    induction df as [|r l IH]; [done|].
    rewrite !bind_cons, filter_app, !length_app, IH. f_equal.
    apply length_stack.
Qed.

(** ** C7: what is inferred for one-dose vaccines *)

(** What [pipe_map_vaccines] returns is what [apply] gives on the rows. *)
Lemma pipe_map_vaccines_Ok
    (WHO_VACCINES : gmap string string) (VACCINES_ONE_DOSE : list string)
    (df df' : list Who.row) :
  Who.pipe_map_vaccines WHO_VACCINES VACCINES_ONE_DOSE df = Ok df' →
  Who.apply_map_vaccines WHO_VACCINES VACCINES_ONE_DOSE df = Ok df'.
Proof. by destruct df. Qed.

(** [pipe_map_vaccines] writes the vaccines and the flag, and leaves the
    counts of every row as they are. *)
Lemma pipe_map_vaccines_counts
    (WHO_VACCINES : gmap string string) (VACCINES_ONE_DOSE : list string)
    (df df' : list Who.row) :
  Who.pipe_map_vaccines WHO_VACCINES VACCINES_ONE_DOSE df = Ok df' →
  Forall2 (λ r r',
             Who.TOTAL_VACCINATIONS r' = Who.TOTAL_VACCINATIONS r
             ∧ Who.PERSONS_VACCINATED_1PLUS_DOSE r'
               = Who.PERSONS_VACCINATED_1PLUS_DOSE r
             ∧ Who.PERSONS_FULLY_VACCINATED r'
               = Who.PERSONS_FULLY_VACCINATED r) df df'.
Proof.
  intros H%pipe_map_vaccines_Ok. revert df' H.
  unfold Who.apply_map_vaccines.
  induction df as [|r l IH]; intros df'; simpl.
  - intros [= <-]. constructor.
  - destruct (Who._map_vaccines_func _ _ r) as [[v flag]|]; simpl; [|done].
    destruct (mapM _ l) as [l'|]; simpl; [|done].
    intros [= <-]. constructor; [done|]. by apply IH.
Qed.

(** With no booster reported for any vaccine, and no second dose for the
    one-dose vaccine, the file of the country has 0 boosters and 0 doses
    in total for the day, next to 280 people vaccinated. *)
Lemma france_absent_becomes_zero :
  Forall (λ r, France.Csv.n_cum_dose3 r = None) Samples.france_without_boosters
  ∧ ∃ files, France.main Samples.france_without_boosters = Ok files
      ∧ France.s_total_boosters <$> files.2 = [0]
      ∧ France.s_total_vaccinations <$> files.2 = [0]
      ∧ France.s_people_vaccinated <$> files.2 = [280]
      ∧ France.s_people_fully_vaccinated <$> files.2 = [190].
Proof.
  split; [by repeat constructor|].
  eexists. split; [by vm_compute|]. by vm_compute.
Qed.

(** C7 (amended). In the France batch, for every row of a one-dose
    vaccine, and so for every such row whose [people_fully_vaccinated] is
    absent, the inference sets [people_fully_vaccinated] equal to
    [people_vaccinated] (100 people vaccinated give 100 fully vaccinated);
    it changes no other field of the row and no row of another vaccine.
    The WHO feed computes the flag only and infers no count: the counts of
    its rows stay as they are, absent when they are absent. *)
Theorem one_dose_inference :
  (∀ r : France.row,
     France.vaccine r ∈ France.one_dose_vaccines →
     France.people_fully_vaccinated r = None →
     France.people_fully_vaccinated (France.infer_fully_vaccinated r)
     = France.people_vaccinated r)
  ∧ (∀ r : France.row,
       France.vaccine (France.infer_fully_vaccinated r) = France.vaccine r
       ∧ France.date (France.infer_fully_vaccinated r) = France.date r
       ∧ France.people_vaccinated (France.infer_fully_vaccinated r)
         = France.people_vaccinated r
       ∧ France.total_boosters (France.infer_fully_vaccinated r)
         = France.total_boosters r
       ∧ France.total_vaccinations (France.infer_fully_vaccinated r)
         = France.total_vaccinations r)
  ∧ (∀ r : France.row,
       France.vaccine r ∉ France.one_dose_vaccines →
       France.infer_fully_vaccinated r = r)
  ∧ (∀ (WHO_VACCINES : gmap string string) (VACCINES_ONE_DOSE : list string)
       (df df' : list Who.row),
       Who.pipe_map_vaccines WHO_VACCINES VACCINES_ONE_DOSE df = Ok df' →
       Forall2 (λ r r',
                  Who.TOTAL_VACCINATIONS r' = Who.TOTAL_VACCINATIONS r
                  ∧ Who.PERSONS_VACCINATED_1PLUS_DOSE r'
                    = Who.PERSONS_VACCINATED_1PLUS_DOSE r
                  ∧ Who.PERSONS_FULLY_VACCINATED r'
                    = Who.PERSONS_FULLY_VACCINATED r) df df').
Proof.
  split; [|split; [|split]].
  - intros r Hone _. by apply infer_fully_vaccinated_one_dose.
  - apply infer_fully_vaccinated_others.
  - apply infer_fully_vaccinated_two_doses.
  - apply pipe_map_vaccines_counts.
Qed.

Lemma one_dose_inference_witness :
  let r := {| France.vaccine := "Johnson&Johnson";
              France.date := "2021-05-01";
              France.people_vaccinated := Some 100;
              France.people_fully_vaccinated := None;
              France.total_boosters := None;
              France.total_vaccinations := None |} in
  France.vaccine r ∈ France.one_dose_vaccines
  ∧ France.people_fully_vaccinated r = None
  ∧ France.people_fully_vaccinated (France.infer_fully_vaccinated r)
    = Some 100.
Proof.
  intros r. split; [by left|]. split; [done|].
  apply (proj1 one_dose_inference r); [by left|done].
Defined.

(** ** C9: percentages above 100 *)

(** No percentage of the week is above 100, and the checks raise all the
    same: the week is before 2021-02-08. *)
Lemma early_week_rejected :
  Peru.above_100 (Peru.Age.people_vaccinated_per_hundred Samples.early_week)
  = false
  ∧ Peru.above_100
      (Peru.Age.people_fully_vaccinated_per_hundred Samples.early_week)
    = false
  ∧ Peru.pipe_age_checks "2021-12-31" [Samples.early_week]
    = Raise (ValueError DatesOutOfRange).
Proof. repeat split; by vm_compute. Qed.

(** C9 (amended). The checks of the Peruvian age table fail with the
    [ValueError] of the percentages if and only if some
    [people_vaccinated_per_hundred] or
    [people_fully_vaccinated_per_hundred] is above 100. They pass the data
    through unchanged if and only if, besides, the table has a row, its
    Sundays lie between 2021-02-08 and today, and every location is
    Peru. *)
Theorem per_hundred_above_100_rejected
    (today : string) (df : list Peru.Age.row) :
  ((∃ field, Peru.pipe_age_checks today df
             = Raise (ValueError (PerHundredAbove100 field)))
   ↔ ∃ r, r ∈ df
       ∧ ((∃ q, Peru.Age.people_vaccinated_per_hundred r = Some q
                ∧ (100 # 1 < q)%Q)
          ∨ (∃ q, Peru.Age.people_fully_vaccinated_per_hundred r = Some q
                  ∧ (100 # 1 < q)%Q)))
  ∧ (∀ df', Peru.pipe_age_checks today df = Ok df'
       ↔ df' = df
         ∧ Forall (λ r,
             Peru.above_100 (Peru.Age.people_vaccinated_per_hundred r) = false
             ∧ Peru.above_100 (Peru.Age.people_fully_vaccinated_per_hundred r)
               = false) df
         ∧ (∃ first last,
              str_min (Peru.Age.sunday <$> df) = Some first
              ∧ str_max (Peru.Age.sunday <$> df) = Some last
              ∧ str_lt first "2021-02-08" = false
              ∧ str_gt last today = false)
         ∧ ∀ r, r ∈ df → Peru.Age.location r = "Peru").
Proof.
  split.
  - rewrite pipe_age_checks_above_100.
    split; intros (r & Hr & H); exists r; (split; [done|]).
    + by rewrite <- !above_100_iff.
    + by rewrite !above_100_iff.
  - intros df'. apply pipe_age_checks_Ok_iff.
Qed.

(** ** C10: the total derived from the doses *)

Section FranceTotals.
Import France.

(** The sum of the three dose counts of a row of the source. *)
Lemma totals_of_date (d : string) (df : list Csv.row) (xs : list row) :
  Forall2 (λ r x, name_and_total r = Some x) df xs →
  total_vaccinations <$> filter (λ x, date x = d) xs
  = (λ r, add_na (add_na (Csv.n_cum_dose1 r) (Csv.n_cum_dose2 r))
                 (Csv.n_cum_dose3 r))
      <$> filter (λ r, Csv.jour r = d) df.
Proof.
  induction 1 as [|r x l xs Hx Hl IH]; [done|].
  apply name_and_total_total in Hx as (Ht & _ & _ & _ & Hd & _).
  rewrite !filter_cons, Hd.
  destruct (decide (Csv.jour r = d)); [|done].
  by rewrite !fmap_cons, IH, Ht.
Qed.

Lemma main_totals (source : list Csv.row)
    (ms : list manufacturer_row) (ss : list series_row) :
  main source = Ok (ms, ss) →
  Forall2 (λ r m,
             m_total_vaccinations m
             = add_na (add_na (Csv.n_cum_dose1 r) (Csv.n_cum_dose2 r))
                      (Csv.n_cum_dose3 r)
             ∧ m_date m = Csv.jour r
             ∧ vaccine_mapping !! Csv.vaccin r = Some (m_vaccine m))
          (known_and_started source) ms
  ∧ ∀ s, s ∈ ss →
      s_total_vaccinations s
      = sum_skipna
          ((λ r, add_na (add_na (Csv.n_cum_dose1 r) (Csv.n_cum_dose2 r))
                        (Csv.n_cum_dose3 r))
             <$> filter (λ r, Csv.jour r = s_date s)
                        (known_and_started source)).
Proof.
  pose proof (main_cases source) as H. simpl in H.
  case_bool_decide; rewrite H; [|done]. intros [= <- <-].
  pose proof (name_and_total_known _ (known_and_started_Forall source)) as Hk.
  split.
  - unfold manufacturer. apply Forall2_fmap_r.
    eapply Forall2_impl; [exact Hk|]. simpl. intros r x Hx.
    by apply name_and_total_total in Hx as (-> & _ & _ & _ & -> & ->).
  - intros s Hs. rewrite (aggregate_total _ _ Hs). f_equal.
    by apply totals_of_date.
Qed.

End FranceTotals.

(** C10. Whenever a source pipeline derives [total_vaccinations], the
    total is exactly the sum of the per-dose cumulative counts: Jordan
    adds [people_vaccinated] and [people_fully_vaccinated]; Peru adds, on
    every date, its three dose columns; France adds, on every row, its
    three dose counts (and sums these totals per date); Taiwan adds its
    first and second doses; and the reader of Japan fails with an
    assertion error unless the total it reads equals [people_vaccinated]
    plus [people_fully_vaccinated]. *)
Theorem total_vaccinations_is_sum_of_doses
    (enrich_data : gmap string scalar → string → scalar → gmap string scalar) :
  (∀ ds k v, ds !! k = None → enrich_data ds k v = <[k:=v]> ds) →
  (∀ (ds : gmap string scalar) (a b : Z),
     ds !! "people_vaccinated" = Some (Int a) →
     ds !! "people_fully_vaccinated" = Some (Int b) →
     ds !! "total_vaccinations" = None →
     ∃ ds', Jordan.pipe_vaccinations enrich_data ds = Ok ds'
       ∧ ds' !! "total_vaccinations" = Some (Int (a + b))
       ∧ ds' !! "people_vaccinated" = Some (Int a)
       ∧ ds' !! "people_fully_vaccinated" = Some (Int b))
  ∧ (∀ f f' : Peru.frame,
       Peru.pipe_total_vaccinations f = Ok f' →
       ∃ a b c tot,
         Peru.people_vaccinated f' = Some a
         ∧ Peru.people_fully_vaccinated f' = Some b
         ∧ Peru.total_boosters f' = Some c
         ∧ Peru.total_vaccinations f' = Some tot
         ∧ Peru.f_doses f' = Peru.f_doses f
         ∧ Peru.f_date f' = Peru.f_date f
         ∧ ∀ i t, tot !! i = Some t
             ↔ ∃ x y z, a !! i = Some x ∧ b !! i = Some y ∧ c !! i = Some z
                        ∧ t = x + y + z)
  ∧ (∀ (source : list France.Csv.row)
       (ms : list France.manufacturer_row) (ss : list France.series_row),
       France.main source = Ok (ms, ss) →
       Forall2 (λ r m,
                  France.m_total_vaccinations m
                  = add_na (add_na (France.Csv.n_cum_dose1 r)
                                   (France.Csv.n_cum_dose2 r))
                           (France.Csv.n_cum_dose3 r)
                  ∧ France.m_date m = France.Csv.jour r
                  ∧ France.vaccine_mapping !! France.Csv.vaccin r
                    = Some (France.m_vaccine m))
               (France.known_and_started source) ms
       ∧ ∀ s, s ∈ ss →
           France.s_total_vaccinations s
           = sum_skipna
               ((λ r, add_na (add_na (France.Csv.n_cum_dose1 r)
                                     (France.Csv.n_cum_dose2 r))
                             (France.Csv.n_cum_dose3 r))
                  <$> filter (λ r, France.Csv.jour r = France.s_date s)
                             (France.known_and_started source)))
  ∧ (∀ (today : string) (df : list (list (option Z))),
       (Japan.connect_parse_data today df = Raise AssertionError
        ∨ ∃ ds, Japan.connect_parse_data today df = Ok ds)
       ∧ ∀ ds, Japan.connect_parse_data today df = Ok ds
           ↔ Japan.shape_3_7 df = true
             ∧ ∃ t p f, Japan.value df 0 = Some t ∧ Japan.value df 1 = Some p
                 ∧ Japan.value df 2 = Some f ∧ t = p + f
                 ∧ ds = {[ "total_vaccinations" := Int t;
                           "people_vaccinated" := Int p;
                           "people_fully_vaccinated" := Int f;
                           "date" := Str today ]})
  ∧ (∀ (clean_count : option string → result Z)
       (df : list (list (option string))) (stats : gmap string scalar),
       Taiwan._parse_stats clean_count df = Ok stats →
       ∃ num_dose1 num_dose2,
         (Taiwan.last_value df "第 1劑" ≫= clean_count) = Ok num_dose1
         ∧ (Taiwan.last_value df "第 2劑" ≫= clean_count) = Ok num_dose2
         ∧ stats !! "people_vaccinated" = Some (Int num_dose1)
         ∧ stats !! "total_vaccinations" = Some (Int (num_dose1 + num_dose2))).
Proof.
  intros Henrich. split; [|split; [|split; [|split]]].
  - intros ds a b. by apply jordan_total.
  - apply peru_total.
  - apply main_totals.
  - intros today df. split.
    + apply connect_parse_data_cases.
    + intros ds. apply connect_parse_data_Ok_iff.
  - apply _parse_stats_total.
Qed.

Lemma total_vaccinations_is_sum_of_doses_witness :
  (∀ (ds : gmap string scalar) k v,
     ds !! k = None → <[k:=v]> ds = <[k:=v]> ds)
  ∧ ∃ ds', Jordan.pipe_vaccinations (λ ds k v, <[k:=v]> ds)
             Samples.jordan_reading = Ok ds'
      ∧ ds' !! "total_vaccinations" = Some (Int (700 + 300)).
Proof.
  split; [done|].
  destruct (proj1 (total_vaccinations_is_sum_of_doses
                     (λ ds k v, <[k:=v]> ds) (λ _ _ _ _, eq_refl))
                  Samples.jordan_reading 700 300)
    as (ds' & Hds & Ht & _); [by vm_compute..|].
  by exists ds'.
Defined.


(** * Further properties of the pipelines *)

(** ** Sorting and distinct values, continued *)

Lemma insert_sorted_Permutation (x : string) (l : list string) :
  insert_sorted x l ≡ₚ x :: l.
Proof.
  induction l as [|y r IH]; simpl; [done|].
  destruct (str_lt y x); [|done].
  rewrite IH. apply Permutation_swap.
Qed.

Lemma sorted_Permutation (l : list string) : sorted l ≡ₚ l.
Proof.
  induction l as [|x r IH]; simpl; [done|].
  by rewrite insert_sorted_Permutation, IH.
Qed.

Lemma insert_sorted_Sorted (x : string) (l : list string) :
  Sorted str_le l → Sorted str_le (insert_sorted x l).
Proof.
  induction 1 as [|y r Hr IH Hhd]; simpl.
  - by repeat constructor.
  - destruct (str_lt y x) eqn:Hyx.
    + constructor; [done|].
      destruct r as [|z r']; simpl.
      * constructor. by apply str_lt_asym.
      * inversion_clear Hhd.
        destruct (str_lt z x); constructor; [done|by apply str_lt_asym].
    + constructor; [by constructor|]. by constructor.
Qed.

Lemma sorted_Sorted (l : list string) : Sorted str_le (sorted l).
Proof.
  induction l as [|x r IH]; simpl; [constructor|].
  by apply insert_sorted_Sorted.
Qed.

Lemma NoDup_unique {A : Type} `{EqDecision A} (l : list A) : NoDup (unique l).
Proof.
  induction l as [|x r IH]; simpl; [constructor|].
  constructor.
  - rewrite list_elem_of_filter. tauto.
  - by apply NoDup_filter.
Qed.

(** Keys that ascend along a list. *)
Lemma ascending_key_head {A : Type} (key : A → string) (x : A) (r : list A) :
  ascending (key <$> x :: r) →
  ∀ y, y ∈ r → str_lt (key x) (key y) = true.
Proof.
  unfold ascending. revert x. induction r as [|z r IH]; intros x Hs y Hy.
  - by apply elem_of_nil in Hy.
  - simpl in Hs. inversion_clear Hs as [|? ? Hr Hhd].
    inversion_clear Hhd as [|? ? Hxz].
    apply elem_of_cons in Hy as [->|Hy]; [done|].
    apply (str_lt_trans _ (key z)); [done|]. by apply IH.
Qed.

Lemma ascending_tail {A : Type} (key : A → string) (x : A) (r : list A) :
  ascending (key <$> x :: r) → ascending (key <$> r).
Proof. unfold ascending. simpl. by inversion_clear 1. Qed.

Lemma ascending_key_cons {A : Type} (key : A → string) (x : A) (r : list A) :
  ascending (key <$> r) →
  (∀ y, y ∈ r → str_lt (key x) (key y) = true) →
  ascending (key <$> x :: r).
Proof.
  unfold ascending. intros Hr Hx. simpl. constructor; [done|].
  destruct r as [|y r']; simpl; constructor. apply Hx. by left.
Qed.

Lemma ascending_filter {A : Type} (key : A → string) (P : A → Prop)
    `{∀ x, Decision (P x)} (l : list A) :
  ascending (key <$> l) → ascending (key <$> filter P l).
Proof.
  induction l as [|x r IH]; intros Hs; [done|].
  pose proof (ascending_key_head key x r Hs) as Hhd.
  apply ascending_tail in Hs. rewrite filter_cons.
  destruct (decide (P x)); [|by apply IH].
  apply ascending_key_cons; [by apply IH|].
  intros y [_ Hy]%list_elem_of_filter. by apply Hhd.
Qed.

Lemma sort_values_ascending {A : Type} (key : A → string) (l : list A) :
  ascending (key <$> l) → sort_values key l = l.
Proof.
  induction l as [|x r IH]; intros Hs; [done|].
  simpl. rewrite IH by (by eapply ascending_tail).
  destruct r as [|y r']; [done|]. simpl.
  by rewrite (ascending_key_head key x (y :: r') Hs y) by left.
Qed.

Lemma ascending_NoDup (l : list string) : ascending l → NoDup l.
Proof.
  induction l as [|x r IH]; intros Hs; [constructor|].
  constructor.
  - intros Hx. 
    pose proof (ascending_key_head id x r) as H. rewrite list_fmap_id in H.
    specialize (H Hs x Hx). simpl in H. by rewrite str_lt_irrefl in H.
  - apply IH. unfold ascending in *. by inversion_clear Hs.
Qed.

(** ** Saudi Arabia: the rows of the file *)

Section SaudiArabiaFile.
Import SaudiArabia.

Lemma daily_max_dates (features : list attributes) :
  date <$> daily_max features
  = group_keys ((λ a, date_of_ms (Reportdt a)) <$> features).
Proof.
  unfold daily_max. rewrite <- list_fmap_compose.
  rewrite <- (list_fmap_id (group_keys _)) at 2.
  by apply list_fmap_ext.
Qed.

(** X1. The file of Saudi Arabia has one row per date, the dates
    ascending; every row is for a date of the source, has a positive
    total, is not for 2021-03-03, and names the vaccines by its date:
    Pfizer/BioNTech alone before 2021-02-18, with Oxford/AstraZeneca from
    then on. *)
Theorem saudi_arabia_rows (features : list attributes) :
  ascending (date <$> main features)
  ∧ NoDup (date <$> main features)
  ∧ ∀ r, r ∈ main features →
      (∃ a, a ∈ features ∧ date_of_ms (Reportdt a) = date r)
      ∧ (∃ t, total_vaccinations r = Some t ∧ 0 < t)
      ∧ date r ≠ "2021-03-03"
      ∧ location r = "Saudi Arabia"
      ∧ vaccine r = (if str_lt (date r) "2021-02-18" then "Pfizer/BioNTech"
                     else "Oxford/AstraZeneca, Pfizer/BioNTech").
Proof.
  assert (ascending (date <$> main features)) as Hasc.
  { unfold main. apply ascending_filter.
    assert (ascending
              (date <$> filter (λ r, gt_na (total_vaccinations r) (Some 0)
                                     = true) (daily_max features))) as H.
    { apply ascending_filter. rewrite daily_max_dates.
      apply group_keys_ascending. }
    by rewrite sort_values_ascending. }
  split; [done|]. split; [by apply ascending_NoDup|].
  intros r Hr. unfold main in Hr.
  apply list_elem_of_filter in Hr as [Hd Hr].
  apply elem_of_sort_values in Hr.
  apply list_elem_of_filter in Hr as [Hpos Hr].
  unfold daily_max in Hr. apply list_elem_of_fmap in Hr as (d & -> & Hk).
  simpl in *. split; [|split; [|split; [done|split; [done|]]]].
  - apply (proj1 (elem_of_group_keys _ _)) in Hk.
    apply list_elem_of_fmap in Hk as (a & Hda & Ha). exists a. by split.
  - destruct (max_skipna _) as [t|]; simpl in Hpos; [|done].
    exists t. split; [done|]. lia.
  - unfold str_ge, str_lt. by destruct (String.ltb d "2021-02-18").
Qed.

End SaudiArabiaFile.

(** ** The WHO feed: from the rows kept to the calls of [increment] *)

Section WhoExport.
Import Who.

Variable WHO_VACCINES : gmap string string.
Variable WHO_COUNTRIES : gmap string string.
Variable VACCINES_ONE_DOSE : list string.

Lemma _map_vaccines_func_cases (r : row) :
  (VACCINES_USED r = None
   ∧ _map_vaccines_func WHO_VACCINES VACCINES_ONE_DOSE r
     = Raise (ValueError VaccineFieldNaN))
  ∨ (is_Some (VACCINES_USED r)
     ∧ ∃ v flag, _map_vaccines_func WHO_VACCINES VACCINES_ONE_DOSE r
                 = Ok (v, flag)).
Proof.
  unfold _map_vaccines_func. destruct (VACCINES_USED r); [right|left]; eauto.
Qed.

Lemma pipe_map_vaccines_rows (df df' : list row) :
  pipe_map_vaccines WHO_VACCINES VACCINES_ONE_DOSE df = Ok df' →
  Forall2 (λ r r', ∃ v flag,
             _map_vaccines_func WHO_VACCINES VACCINES_ONE_DOSE r = Ok (v, flag)
             ∧ r' = with_vaccines v flag r) df df'.
Proof.
  intros H%pipe_map_vaccines_Ok. revert df' H.
  unfold apply_map_vaccines.
  induction df as [|r l IH]; intros df'; simpl.
  - intros [= <-]. constructor.
  - destruct (_map_vaccines_func _ _ r) as [[v flag]|] eqn:Hr; simpl; [|done].
    destruct (mapM _ l) as [l'|]; simpl; [|done].
    intros [= <-]. constructor; [by eauto|]. by apply IH.
Qed.

Lemma apply_map_vaccines_all_listed (df : list row) :
  (∀ r, r ∈ df → is_Some (VACCINES_USED r)) →
  ∃ df', apply_map_vaccines WHO_VACCINES VACCINES_ONE_DOSE df = Ok df'
         ∧ length df' = length df.
Proof.
  unfold apply_map_vaccines. induction df as [|r l IH]; intros Hall; simpl.
  - by exists [].
  - destruct (_map_vaccines_func_cases r) as [[Hn _]|[_ (v & flag & ->)]].
    + specialize (Hall r (list_elem_of_here _ _)).
      rewrite Hn in Hall. by destruct Hall.
    + destruct IH as (l' & -> & Hlen).
      { intros x Hx. apply Hall. by right. }
      simpl. eexists. split; [done|]. simpl. by rewrite Hlen.
Qed.

Lemma pipe_map_vaccines_unlisted (df : list row) :
  (∃ r, r ∈ df ∧ VACCINES_USED r = None) →
  pipe_map_vaccines WHO_VACCINES VACCINES_ONE_DOSE df
  = Raise (ValueError VaccineFieldNaN).
Proof.
  intros Hex.
  assert (pipe_map_vaccines WHO_VACCINES VACCINES_ONE_DOSE df
          = apply_map_vaccines WHO_VACCINES VACCINES_ONE_DOSE df) as ->.
  { destruct df; [|done]. destruct Hex as (x & Hx & _).
    by apply elem_of_nil in Hx. }
  revert Hex. unfold apply_map_vaccines.
  induction df as [|r l IH]; intros (x & Hx & Hn).
  - by apply elem_of_nil in Hx.
  - simpl.
    destruct (_map_vaccines_func_cases r) as [[_ ->]|[Hs (v & flag & ->)]];
      [done|].
    apply elem_of_cons in Hx as [->|Hx].
    + rewrite Hn in Hs. by destruct Hs.
    + simpl. rewrite IH by eauto. done.
Qed.

(** X2. [pipe_map_vaccines] fails with "Vaccine field is NaN" exactly
    when some row of the frame has no list of vaccines, and with "Columns
    must be same length as key" exactly when the frame has no row; it
    returns exactly when the frame has a row and every row has a list of
    vaccines, and then returns as many rows as it is given. *)
Theorem pipe_map_vaccines_fails_iff (df : list row) :
  (pipe_map_vaccines WHO_VACCINES VACCINES_ONE_DOSE df
   = Raise (ValueError VaccineFieldNaN)
   ↔ ∃ r, r ∈ df ∧ VACCINES_USED r = None)
  ∧ (pipe_map_vaccines WHO_VACCINES VACCINES_ONE_DOSE df
     = Raise (ValueError ColumnsNotSameLengthAsKey)
     ↔ df = [])
  ∧ ((∃ df', pipe_map_vaccines WHO_VACCINES VACCINES_ONE_DOSE df = Ok df')
     ↔ df ≠ [] ∧ ∀ r, r ∈ df → is_Some (VACCINES_USED r))
  ∧ (∀ df', pipe_map_vaccines WHO_VACCINES VACCINES_ONE_DOSE df = Ok df' →
            length df' = length df).
Proof.
  assert (∀ df', pipe_map_vaccines WHO_VACCINES VACCINES_ONE_DOSE df = Ok df' →
                 length df' = length df) as Hlength.
  { intros df' H%pipe_map_vaccines_rows. symmetry.
    by eapply Forall2_length. }
  assert (df = [] ∨ df ≠ []) as [->|Hne] by (destruct df; [by left|by right]).
  { split; [|split; [|split]]; [| | |done].
    - split; [done|]. intros (r & Hr & _). by apply elem_of_nil in Hr.
    - done.
    - split; [by intros [? ?]|]. by intros [? _]. }
  assert (pipe_map_vaccines WHO_VACCINES VACCINES_ONE_DOSE df
          = apply_map_vaccines WHO_VACCINES VACCINES_ONE_DOSE df) as Heq
    by (by destruct df).
  destruct (decide (Forall (λ r, is_Some (VACCINES_USED r)) df)) as [Hall|Hex].
  - rewrite Forall_forall in Hall.
    destruct (apply_map_vaccines_all_listed df Hall) as (df' & Hdf & Hlen).
    rewrite <- Heq in Hdf.
    split; [|split; [|split]]; [| | |done].
    + rewrite Hdf. split; [done|]. intros (r & Hr & Hn).
      specialize (Hall r Hr). rewrite Hn in Hall. by destruct Hall.
    + rewrite Hdf. by split.
    + split; [done|]. intros _. eauto.
  - apply not_Forall_Exists in Hex; [|apply _].
    apply Exists_exists in Hex as (r & Hr & Hn). simpl in Hn.
    assert (VACCINES_USED r = None) as Hnone.
    { destruct (VACCINES_USED r); [|done]. destruct Hn. eauto. }
    assert (∃ r, r ∈ df ∧ VACCINES_USED r = None) as Hex by eauto.
    pose proof (pipe_map_vaccines_unlisted df Hex) as Hraise.
    split; [|split; [|split]]; [| | |done].
    + by rewrite Hraise.
    + rewrite Hraise. by split.
    + rewrite Hraise. split; [by intros [? ?]|].
      intros [_ Hall]. specialize (Hall r Hr). rewrite Hnone in Hall.
      by destruct Hall.
Qed.

Lemma elem_of_insert_by_country (x y : row) (l : list row) :
  y ∈ insert_by_country x l ↔ y = x ∨ y ∈ l.
Proof.
  induction l as [|z r IH]; simpl.
  - rewrite list_elem_of_singleton, elem_of_nil. tauto.
  - destruct (country_lt x z).
    + by rewrite elem_of_cons.
    + rewrite !elem_of_cons, IH. tauto.
Qed.

Lemma elem_of_sort_by_country (y : row) (df : list row) :
  y ∈ sort_by_country df ↔ y ∈ df.
Proof.
  induction df as [|x r IH]; simpl; [done|].
  by rewrite elem_of_insert_by_country, elem_of_cons, IH.
Qed.

(** Every row that the pipeline returns is a row kept by the filter, with
    its vaccines rewritten and its flag. *)
Lemma pipeline_rows (df out : list row) :
  pipeline WHO_VACCINES WHO_COUNTRIES VACCINES_ONE_DOSE df = Ok out →
  ∀ r', r' ∈ out →
    ∃ r v flag,
      r ∈ pipe_filter_entries WHO_COUNTRIES
            (pipe_rename_countries WHO_COUNTRIES df)
      ∧ _map_vaccines_func WHO_VACCINES VACCINES_ONE_DOSE r = Ok (v, flag)
      ∧ r' = with_vaccines v flag r.
Proof.
  unfold pipeline.
  destruct (pipe_checks_cases df) as [-> | [-> | ->]]; simpl; [|done..].
  destruct (pipe_vaccine_checks _ _) as [df2|] eqn:H2; simpl; [|done].
  apply pipe_vaccine_checks_Ok in H2 as [-> _].
  destruct (pipe_map_vaccines _ _ _) as [df3|] eqn:H3; simpl; [|done].
  intros [= <-] r' Hr'. apply pipe_map_vaccines_rows in H3.
  apply list_elem_of_lookup in Hr' as [i Hi].
  destruct (Forall2_lookup_r _ _ _ _ _ H3 Hi) as (r & Hr & v & flag & Hf & ->).
  exists r, v, flag. split; [|done]. apply list_elem_of_lookup. eauto.
Qed.

(** X3. Every call of [increment] that the export of the WHO feed makes
    carries a total: a row without a total is either dropped by the masks
    or has no count at all and is skipped. The counts of the call that are
    present are ordered, total ≥ people vaccinated ≥ people fully
    vaccinated, its location is one of the countries of the table, and its
    vaccines are listed. *)
Theorem export_calls_have_totals (df : list row) (calls : list increment_call) :
  export WHO_VACCINES WHO_COUNTRIES VACCINES_ONE_DOSE df = Ok calls →
  ∀ c, c ∈ calls →
    (∃ t, total_vaccinations c = Some t
          ∧ (∀ p, people_vaccinated c = Some p → p ≤ t)
          ∧ (∀ f, people_fully_vaccinated c = Some f → f ≤ t))
    ∧ (∀ p f, people_vaccinated c = Some p →
              people_fully_vaccinated c = Some f → f ≤ p)
    ∧ (∃ name k, location c = Some name ∧ WHO_COUNTRIES !! k = Some name)
    ∧ is_Some (vaccine c)
    ∧ source_url c = "https://covid19.who.int/".
Proof.
  unfold export.
  destruct (pipeline _ _ _ df) as [out|] eqn:Hp; simpl; [|done].
  intros [= <-] c Hc. unfold increment_countries in Hc.
  apply list_elem_of_omap in Hc as (r' & Hr' & Hc).
  apply (proj1 (elem_of_sort_by_country _ _)) in Hr'.
  destruct (pipeline_rows df out Hp r' Hr') as (r & v & flag & Hr & _ & ->).
  apply (proj1 (elem_of_pipe_filter_entries _ _ _)) in Hr
    as (_ & _ & H1 & H2 & H3 & name & k & Hname & Hk).
  apply (proj1 (mask_1_true_iff _)) in H1.
  apply (proj1 (mask_2_true_iff _)) in H2.
  apply (proj1 (mask_3_true_iff _)) in H3. simpl in Hc.
  destruct (PERSONS_VACCINATED_1PLUS_DOSE r) as [p|] eqn:Hp1,
    (PERSONS_FULLY_VACCINATED r) as [f|] eqn:Hpf,
    (TOTAL_VACCINATIONS r) as [t|] eqn:Ht; simpl in Hc; simplify_eq/=;
    (split; [|split; [|split; [by eauto|split; [by eauto|done]]]]).
  all: try (exists t; split; [done|split]).
  all: try (intros ? [= <-]).
  all: try (intros ? ? [= <-] [= <-]).
  all: try done.
  all: try (destruct H1 as [?|(? & ? & ? & ? & ?)]; simplify_eq; done).
  all: try (destruct H2 as [?|(? & ? & ? & ? & ?)]; simplify_eq; done).
  all: try (destruct H3 as [?|[?|(? & ? & ? & ? & ?)]]; simplify_eq; done).
Qed.

(** X4. The vaccines that [_map_vaccines_func] writes for a row are a
    comma-separated list in ascending order and without duplicates; it
    holds the name of every vaccine of the feed, replaced by the mapping
    when the mapping knows it, and every additional vaccine of the country
    of the row, and nothing else. *)
Theorem _map_vaccines_func_vaccines (r : row) (v : string) (flag : bool) :
  _map_vaccines_func WHO_VACCINES VACCINES_ONE_DOSE r = Ok (v, flag) →
  ∃ used l,
    VACCINES_USED r = Some used
    ∧ v = join ", " l
    ∧ Sorted str_le l
    ∧ NoDup l
    ∧ ∀ x, x ∈ l
        ↔ x ∈ replace WHO_VACCINES <$> split "," used
          ∨ ∃ c extra, COUNTRY r = Some c
              ∧ ADDITIONAL_VACCINES_USED !! c = Some extra ∧ x ∈ extra.
Proof.
  unfold _map_vaccines_func.
  destruct (VACCINES_USED r) as [used|]; [|done].
  intros [= <- _]. exists used. eexists.
  split; [done|]. split; [done|]. split; [apply sorted_Sorted|].
  split; [rewrite sorted_Permutation; apply NoDup_unique|].
  intros x. rewrite sorted_Permutation, elem_of_unique.
  destruct (COUNTRY r) as [c|]; simpl.
  - destruct (ADDITIONAL_VACCINES_USED !! c) as [extra|] eqn:He.
    + rewrite elem_of_app. split.
      * intros [?|?]; [by left|]. right. by exists c, extra.
      * intros [?|(? & ? & [= <-] & ? & ?)]; [by left|]. right. congruence.
    + split; [by left|]. intros [?|(? & ? & [= <-] & ? & _)]; [done|].
      congruence.
  - split; [by left|]. by intros [?|(? & ? & ? & _)].
Qed.

(** X5. Once [pipe_vaccine_checks] has passed, every token of every row
    has, stripped of the white space around it, an entry in the mapping;
    [_map_vaccines_func] does not strip, and replaces the token by its
    canonical name when the token carries no such white space. *)
Theorem checked_tokens_are_known (df : list row) (r : row) (used t : string) :
  pipe_vaccine_checks WHO_VACCINES df = Ok df →
  r ∈ df → VACCINES_USED r = Some used → t ∈ split "," used →
  is_Some (WHO_VACCINES !! strip t)
  ∧ (strip t = t →
     ∃ name, WHO_VACCINES !! t = Some name ∧ replace WHO_VACCINES t = name).
Proof.
  intros [_ Hknown]%pipe_vaccine_checks_Ok Hr Hused Ht.
  assert (is_Some (WHO_VACCINES !! strip t)) as Hs.
  { apply Hknown. unfold vaccines_used, vaccine_lists.
    apply elem_of_list_to_set, elem_of_concat.
    exists (strip <$> split "," used). split.
    - apply list_elem_of_fmap. exists used. split; [done|].
      apply list_elem_of_omap. eauto.
    - apply list_elem_of_fmap. eauto. }
  split; [done|]. intros Heq. rewrite Heq in Hs. destruct Hs as [name Hn].
  exists name. split; [done|]. unfold replace. by rewrite Hn.
Qed.

End WhoExport.

Lemma export_calls_have_totals_witness :
  ∃ calls,
    Who.export Samples.who_vaccines Samples.who_countries
      Samples.vaccines_one_dose [Samples.unknown_total; Samples.gambia]
    = Ok calls
    ∧ length calls = 1%nat
    ∧ ∀ c, c ∈ calls →
        (∃ t, Who.total_vaccinations c = Some t
              ∧ (∀ p, Who.people_vaccinated c = Some p → p ≤ t)
              ∧ (∀ f, Who.people_fully_vaccinated c = Some f → f ≤ t))
        ∧ (∀ p f, Who.people_vaccinated c = Some p →
                  Who.people_fully_vaccinated c = Some f → f ≤ p)
        ∧ (∃ name k, Who.location c = Some name
                     ∧ Samples.who_countries !! k = Some name)
        ∧ is_Some (Who.vaccine c)
        ∧ Who.source_url c = "https://covid19.who.int/".
Proof.
  eexists. split; [vm_compute; reflexivity|]. split; [reflexivity|].
  apply (export_calls_have_totals Samples.who_vaccines Samples.who_countries
           Samples.vaccines_one_dose [Samples.unknown_total; Samples.gambia]).
  vm_compute. reflexivity.
Defined.

Lemma _map_vaccines_func_vaccines_witness :
  ∃ v flag,
    Who._map_vaccines_func Samples.who_vaccines Samples.vaccines_one_dose
      Samples.gambia = Ok (v, flag)
    ∧ ∃ used l,
        Who.VACCINES_USED Samples.gambia = Some used
        ∧ v = join ", " l
        ∧ Sorted str_le l
        ∧ NoDup l
        ∧ ∀ x, x ∈ l
            ↔ x ∈ replace Samples.who_vaccines <$> split "," used
              ∨ ∃ c extra, Who.COUNTRY Samples.gambia = Some c
                  ∧ Who.ADDITIONAL_VACCINES_USED !! c = Some extra
                  ∧ x ∈ extra.
Proof.
  eexists. eexists. split; [vm_compute; reflexivity|].
  apply (_map_vaccines_func_vaccines Samples.who_vaccines
           Samples.vaccines_one_dose Samples.gambia _ true).
  vm_compute. reflexivity.
Defined.

Lemma checked_tokens_are_known_witness :
  Who.pipe_vaccine_checks Samples.who_vaccines [Samples.gambia]
  = Ok [Samples.gambia]
  ∧ is_Some (Samples.who_vaccines !! strip "SII - Covishield")
  ∧ (strip "SII - Covishield" = "SII - Covishield" →
     ∃ name, Samples.who_vaccines !! "SII - Covishield" = Some name
             ∧ replace Samples.who_vaccines "SII - Covishield" = name).
Proof.
  split; [vm_compute; reflexivity|].
  apply (checked_tokens_are_known Samples.who_vaccines [Samples.gambia]
           Samples.gambia "SII - Covishield" "SII - Covishield").
  - vm_compute. reflexivity.
  - left.
  - reflexivity.
  - vm_compute. left.
Defined.

(** ** Peru: when the pipeline returns, and what its columns add up to *)

(** Summing group by group gives the sum of the whole. *)
Lemma sum_list_app (l k : list Z) :
  sum_list (l ++ k) = sum_list l + sum_list k.
Proof. induction l as [|x l IH]; simpl; [done|]. rewrite IH. lia. Qed.

Lemma sum_list_cons (x : Z) (l : list Z) :
  sum_list (x :: l) = x + sum_list l.
Proof. done. Qed.

Lemma sum_other_keys {K : Type} `{EqDecision K} (x : K) (v : Z) (ks : list K) :
  x ∉ ks → sum_list ((λ k, if decide (x = k) then v else 0) <$> ks) = 0.
Proof.
  induction ks as [|k ks IH]; intros Hx; [done|].
  apply not_elem_of_cons in Hx as [Hne Hx].
  rewrite fmap_cons, sum_list_cons, IH by done.
  by rewrite decide_False.
Qed.

Lemma sum_single_key {K : Type} `{EqDecision K} (x : K) (v : Z) (ks : list K) :
  NoDup ks → x ∈ ks →
  sum_list ((λ k, if decide (x = k) then v else 0) <$> ks) = v.
Proof.
  induction 1 as [|k ks Hk Hks IH]; intros Hx.
  - by apply elem_of_nil in Hx.
  - rewrite fmap_cons, sum_list_cons.
    destruct (decide (x = k)) as [->|Hne].
    + rewrite sum_other_keys by done. lia.
    + apply elem_of_cons in Hx as [?|Hx]; [done|]. rewrite IH by done. lia.
Qed.

Lemma sum_by_key {R K : Type} `{EqDecision K}
    (key : R → K) (g : R → Z) (ks : list K) (df : list R) :
  NoDup ks → (∀ r, r ∈ df → key r ∈ ks) →
  sum_list ((λ k, sum_list (g <$> filter (λ r, key r = k) df)) <$> ks)
  = sum_list (g <$> df).
Proof.
  intros Hnd. induction df as [|r l IH]; intros Hin.
  - clear. induction ks as [|k ks IHk]; [done|].
    by rewrite fmap_cons, sum_list_cons, IHk.
  - rewrite fmap_cons, sum_list_cons.
    rewrite <- IH by (intros x Hx; apply Hin; by right).
    rewrite <- (sum_single_key (key r) (g r) ks Hnd) at 1
      by (apply Hin; by left).
    clear. induction ks as [|k ks IHk]; [done|].
    rewrite !fmap_cons, !sum_list_cons, IHk, filter_cons.
    destruct (decide (key r = k)); [rewrite fmap_cons, sum_list_cons|]; lia.
Qed.

Lemma last_cumsum_from (acc : Z) (l : list Z) :
  l ≠ [] → last (cumsum_from acc l) = Some (acc + sum_list l).
Proof.
  revert acc. induction l as [|x r IH]; intros acc Hne; [done|].
  destruct r as [|y r'].
  - simpl. f_equal. lia.
  - change (cumsum_from acc (x :: y :: r'))
      with ((acc + x) :: cumsum_from (acc + x) (y :: r')).
    rewrite last_cons, IH by done. simpl. f_equal. lia.
Qed.

Section PeruPipeline.
Import Peru.

Lemma elem_of_pipe_rename_columns (df : list Csv.row) (r : row) :
  r ∈ pipe_rename_columns df
  ↔ ∃ s, s ∈ df ∧ Csv.fabricante s = Some (vaccine r)
      ∧ Csv.fecha_vacunacion s = date r
      ∧ Csv.dosis s = dosis r ∧ Csv.n_reg s = n_reg r.
Proof.
  unfold pipe_rename_columns. rewrite list_elem_of_omap. split.
  - intros (s & Hs & Hr). exists s. split; [done|].
    destruct (Csv.fabricante s); simplify_eq/=. done.
  - intros (s & Hs & Hv & Hd & Hk & Hn). exists s. split; [done|].
    rewrite Hv. simpl. destruct r. simpl in *. by subst.
Qed.

Lemma peru_pipe_checks_Ok_iff (df : list row) :
  (∃ df', pipe_checks df = Ok df')
  ↔ ∀ r, r ∈ df →
      is_Some (vaccine_mapping !! vaccine r)
      ∧ (dosis r = 1 ∨ dosis r = 2 ∨ dosis r = 3).
Proof.
  unfold pipe_checks. split.
  - case_bool_decide as Hv; simpl; [|by intros [? ?]].
    case_bool_decide as Hd; simpl; [|by intros [? ?]].
    intros _ r Hr. split.
    + apply elem_of_dom.
      destruct (decide (vaccine r ∈ dom vaccine_mapping)) as [|Hn]; [done|].
      assert (vaccine r ∈ (list_to_set (unique (vaccine <$> df)) : gset string)
                            ∖ dom vaccine_mapping) as Hin.
      { apply elem_of_difference. split; [|done].
        apply elem_of_list_to_set, elem_of_unique, list_elem_of_fmap. eauto. }
      rewrite Hv in Hin. by apply not_elem_of_empty in Hin.
    + destruct (decide (dosis r ∈ ({[1; 2; 3]} : gset Z))) as [Hin|Hn].
      { rewrite !elem_of_union, !elem_of_singleton in Hin. tauto. }
      assert (dosis r ∈ (list_to_set (dosis <$> df) : gset Z) ∖ {[1; 2; 3]})
        as Hin.
      { apply elem_of_difference. split; [|done].
        apply elem_of_list_to_set, list_elem_of_fmap. eauto. }
      rewrite Hd in Hin. by apply not_elem_of_empty in Hin.
  - intros Hall.
    rewrite bool_decide_eq_true_2; simpl.
    + rewrite bool_decide_eq_true_2; simpl; [by eauto|].
      apply set_eq. intros k. rewrite elem_of_difference, elem_of_list_to_set.
      split; [|by intros ?%not_elem_of_empty].
      intros [(r & -> & Hr)%list_elem_of_fmap Hn]. exfalso. apply Hn.
      rewrite !elem_of_union, !elem_of_singleton.
      destruct (Hall r Hr) as [_ ?]. tauto.
    + apply set_eq. intros v. rewrite elem_of_difference, elem_of_list_to_set.
      split; [|by intros ?%not_elem_of_empty].
      intros [Hv Hn]. exfalso. apply Hn.
      apply (proj1 (elem_of_unique _ _)) in Hv.
      apply list_elem_of_fmap in Hv as (r & -> & Hr).
      apply elem_of_dom. by destruct (Hall r Hr).
Qed.

Lemma pipe_format_has_column (df : list row) (k : Z) :
  is_Some (f_doses (pipe_format df) !! k) ↔ ∃ r, r ∈ df ∧ dosis r = k.
Proof.
  unfold pipe_format; simpl. split.
  - intros [col H]. apply lookup_set_to_map in H as (y & Hy & [= -> _]).
    + apply elem_of_list_to_set, list_elem_of_fmap in Hy as (r & -> & Hr). eauto.
    + by intros y y' _ _ [=].
  - intros (r & Hr & <-). eexists. apply lookup_set_to_map.
    + by intros y y' _ _ [=].
    + exists (dosis r). split; [|done].
      apply elem_of_list_to_set, list_elem_of_fmap. eauto.
Qed.

Lemma pipe_rename_vaccines_doses (df : list row) (k : Z) :
  (∃ r, r ∈ pipe_rename_vaccines df ∧ dosis r = k)
  ↔ ∃ r, r ∈ df ∧ dosis r = k.
Proof.
  unfold pipe_rename_vaccines. split.
  - intros (r & (r0 & -> & Hr0)%list_elem_of_fmap & Hk). eauto.
  - intros (r & Hr & Hk). eexists. split.
    + apply list_elem_of_fmap. eauto.
    + done.
Qed.

(** The pipeline from the rows that name a vaccine, step by step. *)
Lemma pipeline_unfold (df : list Csv.row) :
  pipeline df
  = (_ ← pipe_checks (pipe_rename_columns df);
     f ← pipe_total_vaccinations
           (pipe_format (pipe_rename_vaccines (pipe_rename_columns df)));
     Ok (pipe_metadata f)).
Proof.
  unfold pipeline.
  destruct (pipe_checks (pipe_rename_columns df)) as [df'|] eqn:H; [|done].
  by apply pipe_checks_Ok in H as ->.
Qed.

Lemma has_dose_column (df : list Csv.row) (k : Z) :
  is_Some (f_doses (pipe_format (pipe_rename_vaccines (pipe_rename_columns df)))
           !! k)
  ↔ ∃ s, s ∈ df ∧ is_Some (Csv.fabricante s) ∧ Csv.dosis s = k.
Proof.
  rewrite pipe_format_has_column, pipe_rename_vaccines_doses. split.
  - intros (r & (s & Hs & Hv & _ & Hk & _)%elem_of_pipe_rename_columns & <-).
    exists s. rewrite Hv. eauto.
  - intros (s & Hs & [v Hv] & Hk).
    exists {| date := Csv.fecha_vacunacion s; vaccine := v;
              dosis := Csv.dosis s; n_reg := Csv.n_reg s |}.
    split; [|done]. apply elem_of_pipe_rename_columns. by exists s.
Qed.

(** X6. The Peru pipeline returns a series exactly when every row that
    names a vaccine names one of the mapping and has dose number 1, 2 or
    3, and each of the three dose numbers is the dose of some row that
    names a vaccine. *)
Theorem peru_pipeline_returns_iff (df : list Csv.row) :
  (∃ out, pipeline df = Ok out)
  ↔ checks_pass df ∧ has_dose df 1 ∧ has_dose df 2 ∧ has_dose df 3.
Proof.
  assert (has_dose df 1 ∧ has_dose df 2 ∧ has_dose df 3
          ↔ ∀ k, k = 1 ∨ k = 2 ∨ k = 3 → has_dose df k) as ->.
  { split.
    - intros (H1 & H2 & H3) k [-> | [-> | ->]]; done.
    - intros H. repeat split; apply H; tauto. }
  unfold checks_pass, has_dose. rewrite pipeline_unfold. split.
  - intros [out H].
    destruct (pipe_checks (pipe_rename_columns df)) as [df'|] eqn:Hc; [|done].
    simpl in H. split.
    + intros s v Hs Hv.
      assert (∃ df', pipe_checks (pipe_rename_columns df) = Ok df') as Hok
        by eauto.
      apply peru_pipe_checks_Ok_iff with
        (r := {| date := Csv.fecha_vacunacion s; vaccine := v;
                 dosis := Csv.dosis s; n_reg := Csv.n_reg s |}) in Hok;
        [done|].
      apply elem_of_pipe_rename_columns. by exists s.
    + intros k Hk. apply has_dose_column.
      unfold pipe_total_vaccinations, attribute, people_vaccinated,
        people_fully_vaccinated, total_boosters in H.
      destruct (f_doses _ !! 1) eqn:H1; [|done].
      destruct (f_doses _ !! 2) eqn:H2; [|done].
      destruct (f_doses _ !! 3) eqn:H3; [|done].
      destruct Hk as [-> | [-> | ->]]; eauto.
  - intros [Hrows Hdoses].
    assert (∃ df', pipe_checks (pipe_rename_columns df) = Ok df')
      as [df' ->].
    { apply peru_pipe_checks_Ok_iff.
      intros r (s & Hs & Hv & _ & <- & _)%elem_of_pipe_rename_columns.
      eauto. }
    simpl. unfold pipe_total_vaccinations, attribute, people_vaccinated,
      people_fully_vaccinated, total_boosters.
    destruct (proj2 (has_dose_column df 1) (Hdoses 1 ltac:(tauto))) as [a ->].
    destruct (proj2 (has_dose_column df 2) (Hdoses 2 ltac:(tauto))) as [b ->].
    destruct (proj2 (has_dose_column df 3) (Hdoses 3 ltac:(tauto))) as [c ->].
    simpl. eauto.
Qed.

(** X7. When the checks of the vaccines and of the dose numbers pass and
    some dose number is the dose of no row that names a vaccine, the
    pipeline fails with an [AttributeError] for the column of the first
    such dose: [people_vaccinated], then [people_fully_vaccinated], then
    [total_boosters]. A source without any row fails so, for
    [people_vaccinated]. *)
Theorem peru_pipeline_missing_dose (df : list Csv.row) :
  checks_pass df →
  (¬ has_dose df 1 → pipeline df = Raise (AttributeError "people_vaccinated"))
  ∧ (has_dose df 1 → ¬ has_dose df 2 →
     pipeline df = Raise (AttributeError "people_fully_vaccinated"))
  ∧ (has_dose df 1 → has_dose df 2 → ¬ has_dose df 3 →
     pipeline df = Raise (AttributeError "total_boosters")).
Proof.
  unfold checks_pass, has_dose. intros Hrows. rewrite pipeline_unfold.
  assert (∃ df', pipe_checks (pipe_rename_columns df) = Ok df') as [df' ->].
  { apply peru_pipe_checks_Ok_iff.
    intros r (s & Hs & Hv & _ & <- & _)%elem_of_pipe_rename_columns. eauto. }
  simpl. unfold pipe_total_vaccinations, attribute, people_vaccinated,
    people_fully_vaccinated, total_boosters.
  split; [|split].
  - intros Hn1.
    assert (f_doses (pipe_format (pipe_rename_vaccines
                                    (pipe_rename_columns df))) !! 1 = None)
      as -> by (apply eq_None_not_Some; by rewrite has_dose_column).
    done.
  - intros Hh1 Hn2.
    destruct (proj2 (has_dose_column df 1) Hh1) as [a ->].
    assert (f_doses (pipe_format (pipe_rename_vaccines
                                    (pipe_rename_columns df))) !! 2 = None)
      as -> by (apply eq_None_not_Some; by rewrite has_dose_column).
    done.
  - intros Hh1 Hh2 Hn3.
    destruct (proj2 (has_dose_column df 1) Hh1) as [a ->].
    destruct (proj2 (has_dose_column df 2) Hh2) as [b ->].
    assert (f_doses (pipe_format (pipe_rename_vaccines
                                    (pipe_rename_columns df))) !! 3 = None)
      as -> by (apply eq_None_not_Some; by rewrite has_dose_column).
    done.
Qed.

Lemma fillna_cell (df : list row) (d : string) (k : Z) :
  fillna (cell df d k)
  = sum_list (n_reg <$> filter (λ r, date r = d)
                          (filter (λ r, dosis r = k) df)).
Proof.
  rewrite list_filter_filter. unfold cell.
  by destruct (filter _ df).
Qed.

Lemma pipe_format_column_last (df : list row) (k : Z) (col : list Z) :
  f_doses (pipe_format df) !! k = Some col →
  last col = Some (sum_list (n_reg <$> filter (λ r, dosis r = k) df)).
Proof.
  intros Hcol.
  assert (∃ r, r ∈ df ∧ dosis r = k) as (r & Hr & Hk)
    by (apply pipe_format_has_column; eauto).
  apply pipe_format_column in Hcol as ->. unfold cumsum.
  rewrite last_cumsum_from.
  - f_equal. simpl.
    rewrite (list_fmap_ext _
               (λ d, sum_list (n_reg <$> filter (λ r, date r = d)
                                           (filter (λ r, dosis r = k) df)))
               _ (λ _ d _, fillna_cell df d k)).
    apply (sum_by_key date n_reg).
    + apply ascending_NoDup, group_keys_ascending.
    + intros x [_ Hx]%list_elem_of_filter.
      apply elem_of_group_keys, list_elem_of_fmap. eauto.
  - intros Hnil%fmap_nil_inv.
    assert (date r ∈ group_keys (date <$> df)) as Hin.
    { apply elem_of_group_keys, list_elem_of_fmap. eauto. }
    rewrite Hnil in Hin. by apply elem_of_nil in Hin.
Qed.

Lemma pipe_rename_columns_cons (s : Csv.row) (l : list Csv.row) :
  pipe_rename_columns (s :: l)
  = match Csv.fabricante s with
    | Some v => {| date := Csv.fecha_vacunacion s; vaccine := v;
                   dosis := Csv.dosis s; n_reg := Csv.n_reg s |}
                :: pipe_rename_columns l
    | None => pipe_rename_columns l
    end.
Proof. unfold pipe_rename_columns. simpl. by destruct (Csv.fabricante s). Qed.

Lemma doses_renamed (l : list row) (k : Z) :
  n_reg <$> filter (λ r, dosis r = k) (pipe_rename_vaccines l)
  = n_reg <$> filter (λ r, dosis r = k) l.
Proof.
  unfold pipe_rename_vaccines. induction l as [|r l IH]; [done|].
  rewrite fmap_cons, !filter_cons. simpl.
  destruct (decide (dosis r = k)); [|done].
  by rewrite !fmap_cons, IH.
Qed.

Lemma doses_given_named (df : list Csv.row) (k : Z) :
  sum_list (n_reg <$> filter (λ r, dosis r = k)
                        (pipe_rename_vaccines (pipe_rename_columns df)))
  = doses_given df k.
Proof.
  rewrite doses_renamed. unfold doses_given. f_equal.
  induction df as [|s l IH]; [done|].
  rewrite pipe_rename_columns_cons, (filter_cons _ s).
  destruct (Csv.fabricante s) as [v|] eqn:Hv.
  - rewrite filter_cons. simpl.
    destruct (decide (Csv.dosis s = k)) as [Hk|Hk].
    + rewrite decide_True by eauto. by rewrite !fmap_cons, IH.
    + rewrite decide_False by tauto. done.
  - rewrite decide_False; [done|]. intros [[? ?] _]. done.
Qed.

(** X8. In the series that the Peru pipeline returns, the value of each
    cumulative column on the last date is the number of doses of that
    number that the source counts over all dates, and the last
    [total_vaccinations] is the sum of the three. *)
Theorem peru_last_values (df : list Csv.row) (out : output) :
  pipeline df = Ok out →
  ∃ pv pfv tb tot : list Z,
    people_vaccinated (data out) = Some pv
    ∧ people_fully_vaccinated (data out) = Some pfv
    ∧ total_boosters (data out) = Some tb
    ∧ total_vaccinations (data out) = Some tot
    ∧ last pv = Some (doses_given df 1)
    ∧ last pfv = Some (doses_given df 2)
    ∧ last tb = Some (doses_given df 3)
    ∧ last tot
      = Some (doses_given df 1 + doses_given df 2 + doses_given df 3).
Proof.
  rewrite pipeline_unfold.
  destruct (pipe_checks (pipe_rename_columns df)) as [df'|]; [|done].
  simpl.
  destruct (pipe_total_vaccinations _) as [f|] eqn:Hf; simpl; [|done].
  intros [= <-]. simpl.
  destruct (peru_total _ _ Hf)
    as (a & b & c & tot & Ha & Hb & Hc & Htot & Hdoses & _ & Hsum).
  exists a, b, c, tot. repeat (split; [done|]).
  unfold people_vaccinated, people_fully_vaccinated, total_boosters in *.
  rewrite Hdoses in Ha, Hb, Hc.
  pose proof (pipe_format_column_last _ _ _ Ha) as La.
  pose proof (pipe_format_column_last _ _ _ Hb) as Lb.
  pose proof (pipe_format_column_last _ _ _ Hc) as Lc.
  rewrite doses_given_named in La, Lb, Lc.
  repeat (split; [done|]).
  apply pipe_format_column in Ha, Hb, Hc.
  assert (length a = length b ∧ length b = length c) as [Hab Hbc].
  { subst a b c. unfold cumsum. by rewrite !length_cumsum_from, !length_fmap. }
  rewrite last_lookup in La, Lb, Lc |- *.
  assert (length tot = length a) as Hlen.
  { destruct (decide (length tot = length a)) as [|Hne]; [done|]. exfalso.
    destruct (decide (length tot < length a)%nat).
    - destruct (lookup_lt_is_Some_2 a (length tot)) as [x Hx]; [lia|].
      destruct (lookup_lt_is_Some_2 b (length tot)) as [y Hy]; [lia|].
      destruct (lookup_lt_is_Some_2 c (length tot)) as [z Hz]; [lia|].
      assert (tot !! length tot = Some (x + y + z)) as H
        by (apply Hsum; by exists x, y, z).
      apply lookup_lt_Some in H. lia.
    - destruct (lookup_lt_is_Some_2 tot (length a)) as [t Ht]; [lia|].
      apply Hsum in Ht as (x & y & z & Hx & _).
      apply lookup_lt_Some in Hx. lia. }
  rewrite Hlen. apply Hsum.
  rewrite <- Hab in Lb. rewrite <- Hbc, <- Hab in Lc.
  by exists (doses_given df 1), (doses_given df 2), (doses_given df 3).
Qed.

End PeruPipeline.

Lemma peru_pipeline_missing_dose_witness :
  Peru.checks_pass Samples.peru_without_boosters
  ∧ Peru.has_dose Samples.peru_without_boosters 1
  ∧ Peru.has_dose Samples.peru_without_boosters 2
  ∧ ¬ Peru.has_dose Samples.peru_without_boosters 3
  ∧ Peru.pipeline Samples.peru_without_boosters
    = Raise (AttributeError "total_boosters").
Proof.
  assert (Peru.checks_pass Samples.peru_without_boosters) as Hc.
  { intros s v Hs Hv. unfold Samples.peru_without_boosters in Hs.
    apply elem_of_cons in Hs as [->|Hs];
      [|apply list_elem_of_singleton in Hs as ->];
      injection Hv as <-; (split; [by vm_compute; eexists|simpl; tauto]). }
  assert (Peru.has_dose Samples.peru_without_boosters 1) as H1.
  { eexists. split; [left|]. by split; [eexists|]. }
  assert (Peru.has_dose Samples.peru_without_boosters 2) as H2.
  { eexists. split; [right; left|]. by split; [eexists|]. }
  assert (¬ Peru.has_dose Samples.peru_without_boosters 3) as H3.
  { intros (s & Hs & _ & Hk). unfold Samples.peru_without_boosters in Hs.
    apply elem_of_cons in Hs as [->|Hs];
      [|apply list_elem_of_singleton in Hs as ->]; discriminate Hk. }
  repeat (split; [assumption|]).
  exact (proj2 (proj2 (peru_pipeline_missing_dose
                         Samples.peru_without_boosters Hc)) H1 H2 H3).
Defined.

Lemma peru_last_values_witness :
  ∃ out, Peru.pipeline Samples.peru_source = Ok out
    ∧ Peru.doses_given Samples.peru_source 1 = 15
    ∧ ∃ pv pfv tb tot : list Z,
        Peru.people_vaccinated (Peru.data out) = Some pv
        ∧ Peru.people_fully_vaccinated (Peru.data out) = Some pfv
        ∧ Peru.total_boosters (Peru.data out) = Some tb
        ∧ Peru.total_vaccinations (Peru.data out) = Some tot
        ∧ last pv = Some (Peru.doses_given Samples.peru_source 1)
        ∧ last pfv = Some (Peru.doses_given Samples.peru_source 2)
        ∧ last tb = Some (Peru.doses_given Samples.peru_source 3)
        ∧ last tot
          = Some (Peru.doses_given Samples.peru_source 1
                  + Peru.doses_given Samples.peru_source 2
                  + Peru.doses_given Samples.peru_source 3).
Proof.
  eexists. split; [vm_compute; reflexivity|]. split; [reflexivity|].
  apply (peru_last_values Samples.peru_source). vm_compute. reflexivity.
Defined.

(** ** France: when [main] returns, and the rows of the country file *)

(** The values of a column on a date, read on the rows of the source. *)
Lemma fields_of_date {A B C : Type} (ka : A → string) (kb : B → string)
    (φ : B → C) (ψ : A → C) (d : string) (l : list A) (k : list B) :
  Forall2 (λ a b, kb b = ka a ∧ φ b = ψ a) l k →
  φ <$> filter (λ b, kb b = d) k = ψ <$> filter (λ a, ka a = d) l.
Proof.
  induction 1 as [|a b l k [Hk Hf] Hl IH]; [done|].
  rewrite !filter_cons, Hk.
  destruct (decide (ka a = d)); [|done].
  by rewrite !fmap_cons, IH, Hf.
Qed.

Lemma keys_of_rows {A B : Type} (ka : A → string) (kb : B → string)
    (l : list A) (k : list B) :
  Forall2 (λ a b, kb b = ka a) l k → kb <$> k = ka <$> l.
Proof.
  induction 1 as [|a b l k Hk _ IH]; [done|]. by rewrite !fmap_cons, Hk, IH.
Qed.

Lemma sum_skipna_cons (x : option Z) (l : list (option Z)) :
  sum_skipna (x :: l) = default 0 x + sum_skipna l.
Proof. unfold sum_skipna. by destruct x. Qed.

Lemma sum_skipna_positive (l : list (option Z)) :
  l ≠ [] → Forall (λ x, gt_na x (Some 0) = true) l → 0 < sum_skipna l.
Proof.
  intros Hne Hall.
  assert (∀ k, Forall (λ x, gt_na x (Some 0) = true) k → 0 ≤ sum_skipna k)
    as Hnonneg.
  { induction 1 as [|y k Hy Hk IH]; [done|].
    rewrite sum_skipna_cons. destruct y as [y|]; simpl in *; lia. }
  destruct l as [|x l]; [done|].
  apply Forall_cons in Hall as [Hx Hl]. rewrite sum_skipna_cons.
  specialize (Hnonneg l Hl). destruct x as [x|]; simpl in *; [lia|done].
Qed.

Section FranceFile.
Import France.

(** X9. [main] returns its two files exactly when each vaccine of the
    mapping has, in the source, a row with a positive count of first
    doses; otherwise its assertion fails. *)
Theorem france_main_returns_iff (source : list Csv.row) :
  ((∃ files, main source = Ok files)
   ↔ ∀ code, is_Some (vaccine_mapping !! code) →
       ∃ r n, r ∈ source ∧ Csv.vaccin r = code
              ∧ Csv.n_cum_dose1 r = Some n ∧ 0 < n)
  ∧ ((∃ files, main source = Ok files) ∨ main source = Raise AssertionError).
Proof.
  pose proof (main_cases source) as H. simpl in H.
  assert (∀ code,
            code ∈ (list_to_set (unique (Csv.vaccin <$> known_and_started source))
                    : gset Z)
            ↔ is_Some (vaccine_mapping !! code)
              ∧ ∃ r n, r ∈ source ∧ Csv.vaccin r = code
                       ∧ Csv.n_cum_dose1 r = Some n ∧ 0 < n) as Hset.
  { intros code. rewrite elem_of_list_to_set, elem_of_unique, list_elem_of_fmap.
    unfold known_and_started. split.
    - intros (r & -> & [[Hk Hp] Hr]%list_elem_of_filter).
      split; [by apply elem_of_dom|].
      destruct (Csv.n_cum_dose1 r) as [n|] eqn:Hn; [|done].
      exists r, n. simpl in Hp. repeat split; try done. lia.
    - intros (Hk & r & n & Hr & <- & Hn & Hp). exists r. split; [done|].
      apply list_elem_of_filter. split; [|done].
      split; [by apply elem_of_dom|]. rewrite Hn. simpl. lia. }
  case_bool_decide as Heq.
  - split; [|left; eauto]. split; [|eauto].
    intros _ code Hcode.
    assert (code ∈ (list_to_set
                      (unique (Csv.vaccin <$> known_and_started source))
                    : gset Z)) as Hin
      by (rewrite Heq; by apply elem_of_dom).
    by apply Hset in Hin as [_ ?].
  - split; [|by right]. rewrite H. split; [by intros [? ?]|].
    intros Hall. exfalso. apply Heq, set_eq. intros code.
    rewrite Hset, elem_of_dom. split; [tauto|]. intros Hc. eauto.
Qed.

Lemma aggregate_dates (df : list row) :
  s_date <$> aggregate df = group_keys (date <$> df).
Proof.
  unfold aggregate. rewrite <- list_fmap_compose.
  rewrite <- (list_fmap_id (group_keys _)) at 2.
  by apply list_fmap_ext.
Qed.

Lemma inferred_rows (source : list Csv.row) :
  Forall2 (λ r x,
             date x = Csv.jour r
             ∧ people_vaccinated x = Csv.n_cum_dose1 r
             ∧ people_fully_vaccinated x
               = (if is_one_dose r then Csv.n_cum_dose1 r
                  else Csv.n_cum_dose2 r)
             ∧ total_boosters x = Csv.n_cum_dose3 r)
          (known_and_started source)
          (infer_fully_vaccinated
             <$> omap name_and_total (known_and_started source)).
Proof.
  apply Forall2_fmap_r.
  eapply Forall2_impl;
    [exact (name_and_total_known _ (known_and_started_Forall source))|].
  simpl. intros r x Hx.
  apply name_and_total_total in Hx as (_ & Hpv & Hpfv & Htb & Hd & Hname).
  destruct (infer_fully_vaccinated_others x) as (Hv' & -> & -> & -> & _).
  repeat split; try done.
  unfold is_one_dose. rewrite Hname.
  case_bool_decide as Hone.
  - by rewrite infer_fully_vaccinated_one_dose.
  - by rewrite infer_fully_vaccinated_two_doses.
Qed.

(** X10. The country file of France has one row per date of the rows
    kept, the dates ascending. On each date, the people vaccinated are the
    first doses of the kept rows of that date, and are positive; the
    people fully vaccinated are the second doses of these rows, but the
    first doses for the rows of a one-dose vaccine; the boosters are their
    third doses. A count that is absent adds nothing. *)
Theorem france_series_rows (source : list Csv.row)
    (ms : list manufacturer_row) (ss : list series_row) :
  main source = Ok (ms, ss) →
  ascending (s_date <$> ss)
  ∧ (∀ d, d ∈ s_date <$> ss ↔ d ∈ Csv.jour <$> known_and_started source)
  ∧ ∀ s, s ∈ ss →
      let rows := filter (λ r, Csv.jour r = s_date s)
                         (known_and_started source) in
      s_people_vaccinated s = sum_skipna (Csv.n_cum_dose1 <$> rows)
      ∧ 0 < s_people_vaccinated s
      ∧ s_people_fully_vaccinated s
        = sum_skipna ((λ r, if is_one_dose r then Csv.n_cum_dose1 r
                            else Csv.n_cum_dose2 r) <$> rows)
      ∧ s_total_boosters s = sum_skipna (Csv.n_cum_dose3 <$> rows)
      ∧ s_location s = "France".
Proof.
  pose proof (main_cases source) as H. simpl in H.
  case_bool_decide; rewrite H; [|done]. intros [= <- <-]. clear H.
  pose proof (inferred_rows source) as Hrows.
  set (df := infer_fully_vaccinated
               <$> omap name_and_total (known_and_started source)) in *.
  assert (date <$> df = Csv.jour <$> known_and_started source) as Hdates.
  { apply keys_of_rows. eapply Forall2_impl; [exact Hrows|]. simpl. tauto. }
  split; [rewrite aggregate_dates; apply group_keys_ascending|].
  split.
  { intros d. by rewrite aggregate_dates, elem_of_group_keys, Hdates. }
  intros s Hs. unfold aggregate in Hs.
  apply list_elem_of_fmap in Hs as (d & -> & Hd). simpl.
  assert (people_vaccinated <$> filter (λ x, date x = d) df
          = Csv.n_cum_dose1
              <$> filter (λ r, Csv.jour r = d) (known_and_started source))
    as ->.
  { apply fields_of_date. eapply Forall2_impl; [exact Hrows|].
    simpl. tauto. }
  rewrite (fields_of_date Csv.jour date people_fully_vaccinated
             (λ r, if is_one_dose r then Csv.n_cum_dose1 r
                   else Csv.n_cum_dose2 r) d (known_and_started source) df)
    by (eapply Forall2_impl; [exact Hrows|]; simpl; tauto).
  rewrite (fields_of_date Csv.jour date total_boosters Csv.n_cum_dose3 d
             (known_and_started source) df)
    by (eapply Forall2_impl; [exact Hrows|]; simpl; tauto).
  repeat split; try done.
  apply sum_skipna_positive.
  - apply (proj1 (elem_of_group_keys _ _)) in Hd. rewrite Hdates in Hd.
    apply list_elem_of_fmap in Hd as (r & -> & Hr).
    intros Hnil%fmap_nil_inv.
    assert (r ∈ filter (λ r0, Csv.jour r0 = Csv.jour r)
                  (known_and_started source)) as Hin
      by (by apply list_elem_of_filter).
    rewrite Hnil in Hin. by apply elem_of_nil in Hin.
  - apply Forall_fmap, Forall_forall.
    intros r [_ Hr]%list_elem_of_filter. unfold known_and_started in Hr.
    by apply list_elem_of_filter in Hr as [[_ ?] _].
Qed.

End FranceFile.

Lemma france_series_rows_witness :
  ∃ ms ss,
    France.main Samples.france_without_boosters = Ok (ms, ss)
    ∧ France.s_people_fully_vaccinated <$> ss = [190]
    ∧ ascending (France.s_date <$> ss)
    ∧ (∀ d, d ∈ France.s_date <$> ss
            ↔ d ∈ France.Csv.jour
                  <$> France.known_and_started Samples.france_without_boosters)
    ∧ ∀ s, s ∈ ss →
        let rows := filter (λ r, France.Csv.jour r = France.s_date s)
                      (France.known_and_started
                         Samples.france_without_boosters) in
        France.s_people_vaccinated s
        = sum_skipna (France.Csv.n_cum_dose1 <$> rows)
        ∧ 0 < France.s_people_vaccinated s
        ∧ France.s_people_fully_vaccinated s
          = sum_skipna ((λ r, if France.is_one_dose r
                              then France.Csv.n_cum_dose1 r
                              else France.Csv.n_cum_dose2 r) <$> rows)
        ∧ France.s_total_boosters s
          = sum_skipna (France.Csv.n_cum_dose3 <$> rows)
        ∧ France.s_location s = "France".
Proof.
  eexists. eexists. split; [vm_compute; reflexivity|].
  split; [reflexivity|].
  refine (france_series_rows Samples.france_without_boosters _ _ _).
  vm_compute. reflexivity.
Defined.

(** ** Hong Kong: from the frame read to the manufacturer file *)

(** X11. The manufacturer file of Hong Kong, made from the frame read:
    its records are, for each day of the frame and each of the two
    vaccines whose total of that day is present, the record of that day,
    vaccine and total, with Hong Kong as location. *)
Theorem hong_kong_manufacturer_file
    (df : list HongKong.Read.row) (m : HongKong.manufacturer_row) :
  m ∈ HongKong.manufacturer_pipeline (HongKong.pipeline df)
  ↔ HongKong.m_location m = "Hong Kong"
    ∧ ∃ r, r ∈ df
        ∧ HongKong.m_date m = HongKong.Read.date r
        ∧ (HongKong.m_vaccine m = "Pfizer/BioNTech"
             ∧ HongKong.Read.total_pfizer r
               = Some (HongKong.m_total_vaccinations m)
           ∨ HongKong.m_vaccine m = "Sinovac"
             ∧ HongKong.Read.total_sinovac r
               = Some (HongKong.m_total_vaccinations m)).
Proof.
  unfold HongKong.manufacturer_pipeline, HongKong.pipeline.
  rewrite list_elem_of_bind. split.
  - intros (r' & Hm & (r & -> & Hr)%list_elem_of_fmap).
    apply (proj1 (elem_of_stack _ _)) in Hm as (Hl & Hd & Hv).
    simpl in *. split; [done|]. by exists r.
  - intros (Hl & r & Hr & Hd & Hv).
    eexists. split; [|apply list_elem_of_fmap; by exists r].
    by apply (proj2 (elem_of_stack _ _)).
Qed.

(** ** Jordan: the series that the pipeline hands to [increment] *)

(** X12. Given the two counts that Jordan's reader returns, the pipeline
    returns them with their sum as total, today's date, the location, the
    vaccines and the source; without one of the counts it raises an
    [AttributeError] that names the count. *)
Theorem jordan_pipeline
    (enrich_data : gmap string scalar → string → scalar → gmap string scalar)
    (today : string) (ds : gmap string scalar) :
  (∀ ds k v, ds !! k = None → enrich_data ds k v = <[k:=v]> ds) →
  (∀ a b,
     ds = {[ "people_vaccinated" := Int a;
             "people_fully_vaccinated" := Int b ]} →
     Jordan.pipeline enrich_data today ds
     = Ok {[ "people_vaccinated" := Int a;
             "people_fully_vaccinated" := Int b;
             "total_vaccinations" := Int (a + b);
             "date" := Str today;
             "location" := Str "Jordan";
             "vaccine" :=
               Str "Pfizer/BioNTech, Sinopharm/Beijing, Sputnik V, Oxford/AstraZeneca";
             "source_url" := Str "https://corona.moh.gov.jo/ar" ]})
  ∧ (ds !! "people_vaccinated" = None →
     Jordan.pipeline enrich_data today ds
     = Raise (AttributeError "people_vaccinated"))
  ∧ (is_Some (ds !! "people_vaccinated") →
     ds !! "people_fully_vaccinated" = None →
     Jordan.pipeline enrich_data today ds
     = Raise (AttributeError "people_fully_vaccinated")).
Proof.
  intros Henrich. split; [|split].
  - intros a b ->.
    unfold Jordan.pipeline, Jordan.pipe_vaccinations, getattr.
    change (({[ "people_vaccinated" := Int a;
                "people_fully_vaccinated" := Int b ]} : gmap string scalar)
            !! "people_vaccinated") with (Some (Int a)).
    change (({[ "people_vaccinated" := Int a;
                "people_fully_vaccinated" := Int b ]} : gmap string scalar)
            !! "people_fully_vaccinated") with (Some (Int b)).
    simpl.
    unfold Jordan.pipe_source, Jordan.pipe_vaccine, Jordan.pipe_location,
      Jordan.pipe_date.
    rewrite (Henrich _ "total_vaccinations") by (by vm_compute).
    rewrite (Henrich _ "date") by (by vm_compute).
    rewrite (Henrich _ "location") by (by vm_compute).
    rewrite (Henrich _ "vaccine") by (by vm_compute).
    rewrite (Henrich _ "source_url") by (by vm_compute).
    by vm_compute.
  - intros Hn. unfold Jordan.pipeline, Jordan.pipe_vaccinations, getattr.
    by rewrite Hn.
  - intros [a Ha] Hn. unfold Jordan.pipeline, Jordan.pipe_vaccinations, getattr.
    by rewrite Ha, Hn.
Qed.

Lemma jordan_pipeline_witness :
  (∀ (ds : gmap string scalar) k v, ds !! k = None → <[k:=v]> ds = <[k:=v]> ds)
  ∧ Jordan.pipeline (λ ds k v, <[k:=v]> ds) "2021-06-03" Samples.jordan_reading
    = Ok {[ "people_vaccinated" := Int 700;
            "people_fully_vaccinated" := Int 300;
            "total_vaccinations" := Int (700 + 300);
            "date" := Str "2021-06-03";
            "location" := Str "Jordan";
            "vaccine" :=
              Str "Pfizer/BioNTech, Sinopharm/Beijing, Sputnik V, Oxford/AstraZeneca";
            "source_url" := Str "https://corona.moh.gov.jo/ar" ]}.
Proof.
  split; [done|].
  exact (proj1 (jordan_pipeline (λ ds k v, <[k:=v]> ds) "2021-06-03"
                  Samples.jordan_reading (λ _ _ _ _, eq_refl))
               700 300 eq_refl).
Defined.

(** ** Taiwan: the table of the report *)

Section TaiwanReport.
Import Taiwan.

Lemma cell_is_true (c : option string) (s : string) :
  cell_is c s = true ↔ c = Some s.
Proof.
  unfold cell_is. destruct c as [x|].
  - rewrite String.eqb_eq. split; congruence.
  - split; done.
Qed.

(** X13. [_parse_stats] returns counts only for a table of four columns
    whose first row begins with the two headings and whose last row, or
    the one before it, begins with the label of the totals; for a table
    with rows that has not four columns it raises "format has changed". *)
Theorem _parse_stats_format
    (clean_count : option string → result Z)
    (df : list (list (option string))) :
  (∀ stats, _parse_stats clean_count df = Ok stats →
     ncols df = 4%nat
     ∧ iloc df 0 0 = Ok (Some "廠牌")
     ∧ iloc df 0 1 = Ok (Some "劑次")
     ∧ (iloc df (-1) 0 = Ok (Some "總計") ∨ iloc df (-2) 0 = Ok (Some "總計")))
  ∧ (df ≠ [] → ncols df ≠ 4%nat →
     _parse_stats clean_count df = Raise (ValueError TableFormatChanged)).
Proof.
  unfold _parse_stats, format_has_changed. split.
  - intros stats.
    destruct (ncols df =? 4)%nat eqn:Hn; simpl; [|done].
    apply Nat.eqb_eq in Hn.
    destruct (iloc df 0 0) as [c00|]; simpl; [|done].
    destruct (cell_is c00 "廠牌") eqn:H00; simpl; [|done].
    destruct (iloc df 0 1) as [c01|]; simpl; [|done].
    destruct (cell_is c01 "劑次") eqn:H01; simpl; [|done].
    apply cell_is_true in H00 as ->. apply cell_is_true in H01 as ->.
    destruct (iloc df (-1) 0) as [l1|]; simpl; [|done].
    destruct (cell_is l1 "總計") eqn:Hl1; simpl.
    + apply cell_is_true in Hl1 as ->. intros _. auto.
    + destruct (iloc df (-2) 0) as [l2|]; simpl; [|done].
      destruct (cell_is l2 "總計") eqn:Hl2; simpl; [|done].
      apply cell_is_true in Hl2 as ->. intros _. auto.
  - intros _ Hn. apply Nat.eqb_neq in Hn. by rewrite Hn.
Qed.

Lemma elem_of_brands (df : list (list (option string))) (b : string) :
  b ∈ brands df
  ↔ b ≠ "總計"
    ∧ ∃ i r, (1 ≤ i)%nat ∧ (S i < length df)%nat
             ∧ df !! i = Some r ∧ r !! 0%nat = Some (Some b).
Proof.
  unfold brands.
  rewrite elem_of_difference, elem_of_singleton, elem_of_list_to_set,
    list_elem_of_omap.
  split.
  - intros [(r & Hr & Hb) Hne]. split; [done|].
    apply list_elem_of_lookup in Hr as [j Hj].
    apply lookup_take_Some in Hj as [Hj Hlt].
    rewrite lookup_drop in Hj.
    exists (1 + j)%nat, r. repeat split; try done; try lia.
    by destruct (r !! 0%nat) as [[?|]|]; simplify_eq/=.
  - intros (Hne & i & r & Hi & Hlt & Hr & Hb). split; [|done].
    exists r. split; [|by rewrite Hb].
    apply list_elem_of_lookup. exists (i - 1)%nat.
    apply lookup_take_Some. split; [|lia].
    rewrite lookup_drop. by replace (1 + (i - 1))%nat with i by lia.
Qed.

(** X14. [_parse_vaccines], on a table with rows and a first column,
    reads the brands in the first cells of the rows between the first and
    the last, the label of the totals left out. It
    raises, naming exactly the brands that the mapping does not know, if
    and only if there is such a brand; otherwise it returns the names that
    the mapping gives to the brands, in ascending order and separated by
    commas. *)
Theorem _parse_vaccines_result (df : list (list (option string))) :
  (0 < ncols df)%nat →
  (∀ U, _parse_vaccines df = Raise (ValueError (UnknownVaccines U))
        ↔ U = brands df ∖ dom vaccines_mapping ∧ U ≠ ∅)
  ∧ ((∃ U, _parse_vaccines df = Raise (ValueError (UnknownVaccines U)))
     ↔ ∃ b, b ∈ brands df ∧ vaccines_mapping !! b = None)
  ∧ (∀ v, _parse_vaccines df = Ok v →
       ∃ l, v = join ", " l ∧ Sorted str_le l
         ∧ ∀ x, x ∈ l ↔ ∃ b, b ∈ brands df ∧ vaccines_mapping !! b = Some x).
Proof.
  intros _.
  assert (∀ U, _parse_vaccines df = Raise (ValueError (UnknownVaccines U))
               ↔ U = brands df ∖ dom vaccines_mapping ∧ U ≠ ∅) as Hraise.
  { intros U. unfold _parse_vaccines. case_bool_decide as He; simpl.
    - split; [done|]. by intros [-> ?].
    - split; [by intros [= <-]|by intros [-> _]]. }
  split; [done|]. split.
  - split.
    + intros [U [-> Hne]%Hraise]. apply set_choose_L in Hne as [b Hb].
      apply elem_of_difference in Hb as [Hb Hn].
      exists b. split; [done|]. by apply not_elem_of_dom.
    + intros (b & Hb & Hn). eexists. apply Hraise. split; [done|].
      intros Hempty.
      assert (b ∈ brands df ∖ dom vaccines_mapping) as Hin
        by (apply elem_of_difference; split; [done|by apply not_elem_of_dom]).
      rewrite Hempty in Hin. by apply not_elem_of_empty in Hin.
  - intros v. unfold _parse_vaccines. case_bool_decide as He; simpl; [|done].
    intros [= <-]. eexists. split; [done|]. split; [apply sorted_Sorted|].
    intros x. rewrite sorted_Permutation, list_elem_of_omap.
    split; intros (b & Hb & Hx); exists b; (split; [|done]).
    + by apply elem_of_elements in Hb.
    + by apply elem_of_elements.
Qed.

Lemma _parse_vaccines_result_witness :
  (0 < ncols Samples.taiwan_table_new_brand)%nat
  ∧ _parse_vaccines Samples.taiwan_table_new_brand
    = Raise (ValueError (UnknownVaccines {[ "Novavax" ]}))
  ∧ ∃ l, "Moderna, Oxford/AstraZeneca" = join ", " l ∧ Sorted str_le l.
Proof.
  split; [vm_compute; lia|]. split.
  - apply (proj1 (_parse_vaccines_result Samples.taiwan_table_new_brand
                    ltac:(vm_compute; lia))).
    split; [by vm_compute|]. by vm_compute.
  - destruct (proj2 (proj2 (_parse_vaccines_result Samples.taiwan_table
                              ltac:(vm_compute; lia)))
                "Moderna, Oxford/AstraZeneca" ltac:(by vm_compute))
      as (l & Hl & Hs & _).
    by exists l.
Defined.

Variable enrich_data :
  gmap string scalar → string → scalar → gmap string scalar.
Hypothesis enrich_data_new :
  ∀ ds k v, ds !! k = None → enrich_data ds k v = <[k:=v]> ds.

(** X15. [pipe_metrics] leaves a series without [people_vaccinated] as it
    is; to a series with a total and the people vaccinated it adds
    [people_fully_vaccinated], their difference. After [_parse_stats],
    whose total is the first doses plus the second, the people fully
    vaccinated are therefore the second doses. *)
Theorem pipe_metrics_second_doses (ds : gmap string scalar) :
  (ds !! "people_vaccinated" = None → pipe_metrics enrich_data ds = Ok ds)
  ∧ (∀ t p, ds !! "total_vaccinations" = Some (Int t) →
            ds !! "people_vaccinated" = Some (Int p) →
            ds !! "people_fully_vaccinated" = None →
            pipe_metrics enrich_data ds
            = Ok (<["people_fully_vaccinated" := Int (t - p)]> ds))
  ∧ (is_Some (ds !! "people_vaccinated") →
     ds !! "total_vaccinations" = None →
     pipe_metrics enrich_data ds = Raise (AttributeError "total_vaccinations"))
  ∧ (∀ clean_count df stats,
       _parse_stats clean_count df = Ok stats →
       ds !! "total_vaccinations" = stats !! "total_vaccinations" →
       ds !! "people_vaccinated" = stats !! "people_vaccinated" →
       ds !! "people_fully_vaccinated" = None →
       ∃ num_dose2,
         (last_value df "第 2劑" ≫= clean_count) = Ok num_dose2
         ∧ pipe_metrics enrich_data ds
           = Ok (<["people_fully_vaccinated" := Int num_dose2]> ds)).
Proof.
  assert (∀ t p, ds !! "total_vaccinations" = Some (Int t) →
            ds !! "people_vaccinated" = Some (Int p) →
            ds !! "people_fully_vaccinated" = None →
            pipe_metrics enrich_data ds
            = Ok (<["people_fully_vaccinated" := Int (t - p)]> ds)) as Hsub.
  { intros t p Ht Hp Hf. unfold pipe_metrics, getattr.
    rewrite bool_decide_eq_true_2 by (rewrite Hp; eauto).
    rewrite Ht, Hp. simpl. by rewrite enrich_data_new. }
  split; [|split; [done|split]].
  - intros Hn. unfold pipe_metrics.
    rewrite bool_decide_eq_false_2; [done|]. rewrite Hn. by intros [? ?].
  - intros Hs Hn. unfold pipe_metrics, getattr.
    rewrite bool_decide_eq_true_2 by done. by rewrite Hn.
  - intros clean_count df stats Hstats Ht Hp Hf.
    apply _parse_stats_total in Hstats as (n1 & n2 & _ & H2 & Hs1 & Hs2).
    exists n2. split; [done|].
    rewrite Hs2 in Ht. rewrite Hs1 in Hp.
    rewrite (Hsub _ _ Ht Hp Hf). do 3 f_equal. lia.
Qed.

End TaiwanReport.

Lemma pipe_metrics_second_doses_witness :
  (∀ (ds : gmap string scalar) k v,
     ds !! k = None → <[k:=v]> ds = <[k:=v]> ds)
  ∧ Taiwan._parse_stats Samples.read_count Samples.taiwan_table
    = Ok {[ "total_vaccinations" := Int (700 + 300);
            "people_vaccinated" := Int 700 ]}
  ∧ Taiwan.pipe_metrics (λ ds k v, <[k:=v]> ds) Samples.taiwan_series
    = Ok (<["people_fully_vaccinated" := Int 300]> Samples.taiwan_series).
Proof.
  split; [done|]. split; [by vm_compute|].
  destruct (proj2 (proj2 (proj2
              (pipe_metrics_second_doses (λ ds k v, <[k:=v]> ds)
                 (λ _ _ _ _, eq_refl) Samples.taiwan_series)))
              Samples.read_count Samples.taiwan_table _
              ltac:(by vm_compute) ltac:(by vm_compute)
              ltac:(by vm_compute) ltac:(by vm_compute))
    as (n & Hn & Hp).
  assert (n = 300) as -> by (vm_compute in Hn; congruence).
  exact Hp.
Defined.

(** ** The Philippines: the three counts *)

(** X16. [_parse_data] returns the counts exactly when boosters ≤ people
    fully vaccinated ≤ doses in total, and then returns them as they are;
    otherwise it raises, naming the first pair out of order: the total and
    the people fully vaccinated, else the total and the boosters, else the
    people fully vaccinated and the boosters. *)
Theorem philippines_counts_ordered
    (date : string) (total fully boosters : Z) :
  (∀ m, Philippines._parse_data date total fully boosters = Philippines.Data m
        ↔ boosters ≤ fully ∧ fully ≤ total
          ∧ m = {| Philippines.total_vaccinations := total;
                   Philippines.people_fully_vaccinated := fully;
                   Philippines.total_boosters := boosters;
                   Philippines.date := date |})
  ∧ (Philippines._parse_data date total fully boosters
     = Philippines.CheckValues "total_vaccinations" "people_fully_vaccinated"
     ↔ total < fully)
  ∧ (Philippines._parse_data date total fully boosters
     = Philippines.CheckValues "total_vaccinations" "total_boosters"
     ↔ fully ≤ total ∧ total < boosters)
  ∧ (Philippines._parse_data date total fully boosters
     = Philippines.CheckValues "people_fully_vaccinated" "total_boosters"
     ↔ fully ≤ total ∧ boosters ≤ total ∧ fully < boosters).
Proof.
  unfold Philippines._parse_data.
  destruct (total <? fully) eqn:H1;
    [apply Z.ltb_lt in H1|apply Z.ltb_ge in H1].
  { split; [intros m|]; repeat split; try done; intros; lia. }
  destruct (total <? boosters) eqn:H2;
    [apply Z.ltb_lt in H2|apply Z.ltb_ge in H2].
  { split; [intros m|]; repeat split; try done; intros; lia. }
  destruct (fully <? boosters) eqn:H3;
    [apply Z.ltb_lt in H3|apply Z.ltb_ge in H3].
  { split; [intros m|]; repeat split; try done; intros; lia. }
  split; [intros m|].
  - split.
    + by intros [= <-].
    + by intros (_ & _ & ->).
  - repeat split; try done; intros; lia.
Qed.

(** ** Peru: the weeks of the age table *)

Lemma str_le_trans (a b c : string) :
  str_le a b → str_le b c → str_le a c.
Proof.
  unfold str_le. intros Hab Hbc.
  destruct (str_lt c a) eqn:Hca; [|done].
  destruct (String.eqb c b) eqn:Heq.
  - apply String.eqb_eq in Heq as ->. congruence.
  - pose proof (str_lt_total _ _ Hbc Heq) as Hlt.
    pose proof (str_lt_trans _ _ _ Hlt Hca). congruence.
Qed.

Lemma str_min_least (l : list string) (m : string) :
  str_min l = Some m → m ∈ l ∧ ∀ x, x ∈ l → str_le m x.
Proof.
  destruct l as [|x r]; [done|]. intros [= <-].
  induction r as [|a r IH].
  - split; [by left|]. intros y ->%list_elem_of_singleton.
    apply str_lt_irrefl.
  - destruct IH as [Hin Hle]. simpl foldr.
    set (m := foldr _ x r) in *.
    destruct (str_lt a m) eqn:Ha.
    + split; [by right; left|]. intros y Hy.
      assert (str_le a m) as Ham by by apply str_lt_asym.
      apply elem_of_cons in Hy as [->|Hy].
      * eapply str_le_trans; [done|]. apply Hle. by left.
      * apply elem_of_cons in Hy as [->|Hy]; [apply str_lt_irrefl|].
        eapply str_le_trans; [done|]. apply Hle. by right.
    + split.
      * apply elem_of_cons in Hin as [Hm|Hm]; [rewrite Hm; by left|by do 2 right].
      * intros y Hy. apply elem_of_cons in Hy as [->|Hy]; [apply Hle; by left|].
        apply elem_of_cons in Hy as [->|Hy]; [done|]. apply Hle. by right.
Qed.

Lemma str_max_greatest (l : list string) (m : string) :
  str_max l = Some m → m ∈ l ∧ ∀ x, x ∈ l → str_le x m.
Proof.
  destruct l as [|x r]; [done|]. intros [= <-].
  induction r as [|a r IH].
  - split; [by left|]. intros y ->%list_elem_of_singleton.
    apply str_lt_irrefl.
  - destruct IH as [Hin Hle]. simpl foldr.
    set (m := foldr _ x r) in *.
    destruct (str_lt m a) eqn:Ha.
    + split; [by right; left|]. intros y Hy.
      assert (str_le m a) as Hma by by apply str_lt_asym.
      apply elem_of_cons in Hy as [->|Hy].
      * eapply str_le_trans; [|done]. apply Hle. by left.
      * apply elem_of_cons in Hy as [->|Hy]; [apply str_lt_irrefl|].
        eapply str_le_trans; [|done]. apply Hle. by right.
    + split.
      * apply elem_of_cons in Hin as [Hm|Hm]; [rewrite Hm; by left|by do 2 right].
      * intros y Hy. apply elem_of_cons in Hy as [->|Hy]; [apply Hle; by left|].
        apply elem_of_cons in Hy as [->|Hy]; [done|]. apply Hle. by right.
Qed.

Lemma above_100_false (x : option Q) :
  Peru.above_100 x = false ↔ ∀ q, x = Some q → (q <= 100 # 1)%Q.
Proof.
  unfold Peru.above_100. destruct x as [q|].
  - rewrite negb_false_iff, Qle_bool_iff. split.
    + by intros H ? [= <-].
    + intros H. by apply H.
  - split; [by intros _ ? ?|done].
Qed.

(** X17. The checks of the age table pass a table on exactly when it has
    a row and, in every row, no percentage is above 100, the Sunday lies
    between 2021-02-08 and today, both included, and the location is
    Peru: the least and the greatest Sunday speak for all of them. On a
    table without rows the checks raise a [TypeError], and on no other. *)
Theorem peru_age_rows_in_range (today : string) (df : list Peru.Age.row) :
  (Peru.pipeline_age today df = Ok df
   ↔ df ≠ []
     ∧ ∀ r, r ∈ df →
         (∀ q, Peru.Age.people_vaccinated_per_hundred r = Some q →
               (q <= 100 # 1)%Q)
         ∧ (∀ q, Peru.Age.people_fully_vaccinated_per_hundred r = Some q →
                 (q <= 100 # 1)%Q)
         ∧ str_le "2021-02-08" (Peru.Age.sunday r)
         ∧ str_le (Peru.Age.sunday r) today
         ∧ Peru.Age.location r = "Peru")
  ∧ (Peru.pipeline_age today df = Raise TypeError ↔ df = []).
Proof.
  unfold Peru.pipeline_age. split.
  - rewrite pipe_age_checks_Ok_iff. split.
    + intros (_ & Hpct & (first & last & Hmin & Hmax & Hfirst & Hlast) & Hloc).
      split; [by intros ->|]. intros r Hr.
      rewrite Forall_forall in Hpct. destruct (Hpct r Hr) as [H1 H2].
      pose proof (proj1 (above_100_false _) H1) as H1'.
      pose proof (proj1 (above_100_false _) H2) as H2'.
      apply str_min_least in Hmin as [_ Hmin].
      apply str_max_greatest in Hmax as [_ Hmax].
      assert (Peru.Age.sunday r ∈ Peru.Age.sunday <$> df) as Hs
        by (apply list_elem_of_fmap; eauto).
      repeat split; [done|done| | |by apply Hloc].
      * eapply str_le_trans; [exact Hfirst|by apply Hmin].
      * eapply str_le_trans; [by apply Hmax|exact Hlast].
    + intros [Hne Hrows]. split; [done|]. split; [|split].
      * apply Forall_forall. intros r Hr.
        destruct (Hrows r Hr) as (H1 & H2 & _).
        by rewrite !above_100_false.
      * destruct df as [|r0 df]; [done|].
        destruct (str_min (Peru.Age.sunday <$> r0 :: df)) as [first|] eqn:Hmin;
          [|done].
        destruct (str_max (Peru.Age.sunday <$> r0 :: df)) as [last|] eqn:Hmax;
          [|done].
        exists first, last. split; [done|]. split; [done|].
        apply str_min_least in Hmin as [Hmin _].
        apply str_max_greatest in Hmax as [Hmax _].
        apply list_elem_of_fmap in Hmin as (r1 & -> & Hr1).
        apply list_elem_of_fmap in Hmax as (r2 & -> & Hr2).
        split; [apply (Hrows r1 Hr1)|apply (Hrows r2 Hr2)].
      * intros r Hr. apply (Hrows r Hr).
  - unfold Peru.pipe_age_checks. split; [|by intros ->].
    destruct df as [|r0 df]; [done|]. intros H. exfalso. revert H.
    repeat case_match; try done.
Qed.
